(** * Semantic tessellation engine: a shallow embedding

    This development embeds the simplex-based interpolation core of the
    semantic explorer front end:

    - [SemanticTriangle] (barycentric weights, interior-point semantics and
      the set-operation classifier),
    - [SemanticTessellation] (building the triangulation, locating the
      triangle of a point, analysing a point, the visualization data),
    - [calculateSimilarity], [projectToTwoDimensions] and [simpleHash] of
      the embedding service,
    - [findMatchingDocuments] of the document search,
    - [calculateBarycentricCoordinates3D] and
      [calculateSemanticInterpolation] of the tetrahedron view.

    JavaScript numbers are modelled as exact rationals extended with one
    non-finite value.  The two weight computations are embedded a second
    time with a rounding applied after every operation (module [Rounded]);
    [roundTiesToEven] is the rounding of binary64, and the claim on the sum
    of the weights is settled with it. *)

From Stdlib Require Import QArith Qabs Qround Qpower Lqa Lia List ZArith Bool.
From stdpp Require Import gmap strings pretty.
Import ListNotations.
Local Open Scope Q_scope.

(** ** Numbers *)

(** A JavaScript number: a finite value, or [NaN].  [NaN] also stands for
    [undefined] read where a number is expected (an array read past its
    end): under every operation used below the two behave alike. *)
Inductive num : Type :=
| Fin (q : Q)
| NaN.

Definition lift1 (f : Q -> Q) (a : num) : num :=
  match a with Fin p => Fin (f p) | NaN => NaN end.

Definition lift2 (f : Q -> Q -> Q) (a b : num) : num :=
  match a, b with Fin p, Fin q => Fin (f p q) | _, _ => NaN end.

Definition nadd : num -> num -> num := lift2 Qplus.
Definition nsub : num -> num -> num := lift2 Qminus.
Definition nmul : num -> num -> num := lift2 Qmult.
Definition nabs : num -> num := lift1 Qabs.

(** [a / b].  A zero divisor gives a non-finite result, [NaN] for [0 / 0].
    Every division below is guarded against a zero divisor (the triangle
    solve and the normalisation of the weights), has a zero dividend
    whenever the divisor is zero (the tetrahedron), or divides by square
    roots of norms that were tested to be non-zero (the similarity). *)
Definition ndiv (a b : num) : num :=
  match a, b with
  | Fin p, Fin q => if Qeq_bool q 0 then NaN else Fin (p / q)
  | _, _ => NaN
  end.

Definition Qlt_bool (p q : Q) : bool := negb (Qle_bool q p).

(** Comparisons: any comparison with [NaN] is false. *)
Definition ncmp (f : Q -> Q -> bool) (a b : num) : bool :=
  match a, b with Fin p, Fin q => f p q | _, _ => false end.

Definition nlt : num -> num -> bool := ncmp Qlt_bool.
Definition nle : num -> num -> bool := ncmp Qle_bool.
Definition nge (a b : num) : bool := nle b a.
Definition ngt (a b : num) : bool := nlt b a.
(** [a === b] on numbers. *)
Definition nseq : num -> num -> bool := ncmp Qeq_bool.

(** Equality of numbers up to the value of the fraction. *)
Definition num_eq (a b : num) : Prop :=
  match a, b with
  | Fin p, Fin q => p == q
  | NaN, NaN => True
  | _, _ => False
  end.

Definition is_finite (a : num) : Prop :=
  match a with Fin _ => True | NaN => False end.

(** [a[i]] on an array of numbers. *)
Definition idx (a : list Q) (i : nat) : num :=
  match a !! i with Some q => Fin q | None => NaN end.

(** [a[i]] on an array of computed numbers. *)
Definition nidx (a : list num) (i : nat) : num :=
  match a !! i with Some v => v | None => NaN end.

(** [Math.max(...ws)] and [Math.min(...ws)] for a non-empty argument list:
    [NaN] as soon as one argument is [NaN].  (With no argument JavaScript
    answers an infinity, which [num] does not have; both are applied to
    weight vectors only.) *)
Definition nmax2 (a b : num) : num :=
  match a, b with
  | Fin p, Fin q => if Qle_bool p q then Fin q else Fin p
  | _, _ => NaN
  end.

Definition nmin2 (a b : num) : num :=
  match a, b with
  | Fin p, Fin q => if Qle_bool p q then Fin p else Fin q
  | _, _ => NaN
  end.

Definition Math_max (ws : list num) : num :=
  match ws with [] => NaN | w :: ws' => fold_left nmax2 ws' w end.

Definition Math_min (ws : list num) : num :=
  match ws with [] => NaN | w :: ws' => fold_left nmin2 ws' w end.

(** [ws.indexOf(v)]: the first index holding a value [=== v]. *)
Fixpoint indexOf_from (ws : list num) (v : num) (i : nat) : option nat :=
  match ws with
  | [] => None
  | w :: ws' => if nseq w v then Some i else indexOf_from ws' v (S i)
  end.

Definition indexOf (ws : list num) (v : num) : option nat := indexOf_from ws v 0.

(** [ws.reduce((acc, w) => acc + w, 0)]. *)
Definition sum_weights (ws : list num) : num := fold_left nadd ws (Fin 0).

(** ** Barycentric weights of a triangle *)

(** The value returned for invalid input and for a degenerate triangle. *)
Definition default_weights : list num := [Fin 0.33; Fin 0.33; Fin 0.34].

(** [SemanticTriangle.calculateBarycentricCoordinates(point, vertices)].
    [None] is a null or undefined argument.  With array-typed vertices no
    step of the body throws, so the [catch] branch (which returns the same
    default) is not reached. *)
Definition calculateBarycentricCoordinates
    (point : option (list Q)) (vertices : option (list (list Q))) : list num :=
  match point, vertices with
  | Some point, Some [v1; v2; v3] =>
      let denominator :=
        nadd (nmul (nsub (idx v2 1) (idx v3 1)) (nsub (idx v1 0) (idx v3 0)))
             (nmul (nsub (idx v3 0) (idx v2 0)) (nsub (idx v1 1) (idx v3 1))) in
      if nlt (nabs denominator) (Fin 0.0001) then default_weights
      else
        let w1 :=
          ndiv (nadd (nmul (nsub (idx v2 1) (idx v3 1)) (nsub (idx point 0) (idx v3 0)))
                     (nmul (nsub (idx v3 0) (idx v2 0)) (nsub (idx point 1) (idx v3 1))))
               denominator in
        let w2 :=
          ndiv (nadd (nmul (nsub (idx v3 1) (idx v1 1)) (nsub (idx point 0) (idx v3 0)))
                     (nmul (nsub (idx v1 0) (idx v3 0)) (nsub (idx point 1) (idx v3 1))))
               denominator in
        let w3 := nsub (nsub (Fin 1) w1) w2 in
        [w1; w2; w3]
  | _, _ => default_weights
  end.

(** [SemanticTriangle.isPointInside(point, vertices)]. *)
Definition isPointInside (point : option (list Q)) (vertices : option (list (list Q))) : bool :=
  match calculateBarycentricCoordinates point vertices with
  | [w1; w2; w3] =>
      nge w1 (Fin 0) && nge w2 (Fin 0) && nge w3 (Fin 0)
      && nle w1 (Fin 1) && nle w2 (Fin 1) && nle w3 (Fin 1)
  | _ => false
  end.

(** ** Barycentric weights of a tetrahedron *)

(** A [THREE.Vector3] and the three operations the code uses. *)
Record Vector3 : Type := mkVector3 { vx : Q; vy : Q; vz : Q }.

Definition subVectors (a b : Vector3) : Vector3 :=
  mkVector3 (vx a - vx b) (vy a - vy b) (vz a - vz b).

Definition crossVectors (a b : Vector3) : Vector3 :=
  mkVector3 (vy a * vz b - vz a * vy b)
            (vz a * vx b - vx a * vz b)
            (vx a * vy b - vy a * vx b).

Definition dot (a b : Vector3) : Q := vx a * vx b + vy a * vy b + vz a * vz b.

(** The signed volume computed (and not used) at the head of
    [calculateBarycentricCoordinates3D]. *)
Definition tetra_volume (a b c d : Vector3) : Q :=
  dot (crossVectors (subVectors b a) (subVectors c a)) (subVectors d a) / 6.

(** The four sub-volumes and their sum, as
    [calculateBarycentricCoordinates3D] computes them. *)
Definition volume0 (point a b c d : Vector3) : Q :=
  Qabs (dot (crossVectors (subVectors point b) (subVectors point c))
            (subVectors point d)) / 6.

Definition volume1 (point a b c d : Vector3) : Q :=
  Qabs (dot (crossVectors (subVectors a point) (subVectors c point))
            (subVectors d point)) / 6.

Definition volume2 (point a b c d : Vector3) : Q :=
  Qabs (dot (crossVectors (subVectors a point) (subVectors b point))
            (subVectors d point)) / 6.

Definition volume3 (point a b c d : Vector3) : Q :=
  Qabs (dot (crossVectors (subVectors a point) (subVectors b point))
            (subVectors c point)) / 6.

Definition totalVolume (point a b c d : Vector3) : Q :=
  volume0 point a b c d + volume1 point a b c d
  + volume2 point a b c d + volume3 point a b c d.

(** [calculateBarycentricCoordinates3D(point, vertices)]. *)
Definition calculateBarycentricCoordinates3D (point : Vector3) (vertices : list Vector3)
  : list num :=
  match vertices with
  | [a; b; c; d] =>
      [ ndiv (Fin (volume0 point a b c d)) (Fin (totalVolume point a b c d));
        ndiv (Fin (volume1 point a b c d)) (Fin (totalVolume point a b c d));
        ndiv (Fin (volume2 point a b c d)) (Fin (totalVolume point a b c d));
        ndiv (Fin (volume3 point a b c d)) (Fin (totalVolume point a b c d)) ]
  | _ => [Fin 0; Fin 0; Fin 0; Fin 0]
  end.

(** ** Completions *)

(** The completion of a call: a returned value or a thrown error. *)
Inductive outcome (A : Type) : Type :=
| Return (a : A)
| Throw (e : string).
Arguments Return {A} a.
Arguments Throw {A} e.

#[global] Instance outcome_fmap : FMap outcome := fun A B f m =>
  match m with Return a => Return (f a) | Throw e => Throw e end.

#[global] Instance outcome_ret : MRet outcome := fun A a => Return a.

#[global] Instance outcome_bind : MBind outcome := fun A B k m =>
  match m with Return a => k a | Throw e => Throw e end.

(** [try { body } catch (error) { handler }]. *)
Definition try_catch {A : Type} (body : outcome A) (handler : string -> outcome A)
  : outcome A :=
  match body with Return a => Return a | Throw e => handler e end.

Definition throws {A : Type} (m : outcome A) : Prop :=
  match m with Return _ => False | Throw _ => True end.

(** ** Documents *)

(** A document object.  An empty [doc_id], [doc_title] or [doc_content] is a
    missing (falsy) property; [doc_embedding = None] is a missing embedding. *)
Record Document : Type := mkDocument {
  doc_id : string;
  doc_title : string;
  doc_content : string;
  doc_embedding : option (list Q)
}.

(** JavaScript truthiness of a string. *)
Definition truthy (s : string) : bool :=
  match s with EmptyString => false | _ => true end.

(** [a || b] on strings. *)
Definition str_or (a b : string) : string := if truthy a then a else b.

(** [xs.join(sep)]. *)
Fixpoint join (sep : string) (xs : list string) : string :=
  match xs with
  | [] => ""
  | [s] => s
  | s :: xs' => s +:+ sep +:+ join sep xs'
  end.

(** [`${xs[i]}`]: a read past the end prints as [undefined]. *)
Definition str_idx (xs : list string) (i : nat) : string :=
  match xs !! i with Some s => s | None => "undefined" end.

(** A stable sort by a comparator, as [Array.prototype.sort(cmp)]: [x] moves
    behind [y] only where [cmp x y > 0]; a comparison that answers [NaN]
    counts as 0. *)
Section Sort.
Context {A : Type} (cmp : A -> A -> num).

Fixpoint insert_sorted (x : A) (l : list A) : list A :=
  match l with
  | [] => [x]
  | y :: l' => if ngt (cmp x y) (Fin 0) then y :: insert_sorted x l' else x :: l
  end.

Definition sort_by (l : list A) : list A := foldr insert_sorted [] l.
End Sort.

(** ** The semantic triangle *)

Record SetOperation : Type := mkSetOperation {
  so_type : string;
  so_description : string;
  so_conceptual : string
}.

Record Contribution : Type := mkContribution {
  c_id : string;
  c_title : string;
  c_weight : num;
  c_similarity : num
}.

Record Semantics : Type := mkSemantics {
  contributions : list Contribution;
  combinedEmbedding : list num;
  setOperation : SetOperation
}.

Record SemanticTriangle : Type := mkSemanticTriangle {
  vertices : list Document;
  embeddings : list (list Q);
  tri_id : string
}.

Definition HIGH : num := Fin 0.6.
Definition MEDIUM : num := Fin 0.3.
Definition LOW : num := Fin 0.1.

Section Engine.

(** [Math.sqrt] on finite non-negative numbers: rationals are not closed
    under square roots, so the function is a parameter. *)
Variable sqrt : Q -> Q.

(** The keyword-and-hash embedding that [generateEmbedding] computes from
    a document's content (it normalises with [Math.sqrt]). *)
Variable contentEmbedding : string -> list Q.

Definition Math_sqrt (a : num) : num :=
  match a with
  | Fin q => if Qlt_bool q 0 then NaN else Fin (sqrt q)
  | NaN => NaN
  end.

(** [generateEmbedding(document)] of the embedding service. *)
Definition generateEmbedding (document : Document) : list Q :=
  if truthy (doc_content document) then contentEmbedding (doc_content document)
  else repeat 0 128.

(** [calculateSimilarity(vec1, vec2)] of the embedding service. *)
Definition calculateSimilarity (vec1 vec2 : list num) : num :=
  if negb (length vec1 =? length vec2)%nat then Fin 0
  else
    let '(dotProduct, normA, normB) :=
      fold_left
        (fun '(d, na, nb) i =>
           (nadd d (nmul (nidx vec1 i) (nidx vec2 i)),
            nadd na (nmul (nidx vec1 i) (nidx vec1 i)),
            nadd nb (nmul (nidx vec2 i) (nidx vec2 i))))
        (seq 0 (length vec1)) (Fin 0, Fin 0, Fin 0) in
    if nseq normA (Fin 0) || nseq normB (Fin 0) then Fin 0
    else
      let similarity := ndiv dotProduct (nmul (Math_sqrt normA) (Math_sqrt normB)) in
      ndiv (nadd similarity (Fin 1)) (Fin 2).

(** [new SemanticTriangle(docA, docB, docC)]; [None] is a null or
    undefined document. *)
Definition new_SemanticTriangle (docA docB docC : option Document)
  : outcome SemanticTriangle :=
  match docA, docB, docC with
  | Some a, Some b, Some c =>
      if truthy (doc_id a) && truthy (doc_id b) && truthy (doc_id c) then
        Return {|
          vertices := [a; b; c];
          embeddings :=
            map (fun doc => match doc_embedding doc with
                            | Some e => e
                            | None => generateEmbedding doc
                            end) [a; b; c];
          tri_id := "triangle-" +:+ doc_id a +:+ "-" +:+ doc_id b +:+ "-" +:+ doc_id c
        |}
      else Throw "Invalid documents for triangle creation"
  | _, _, _ => Throw "Invalid documents for triangle creation"
  end.

(** [SemanticTriangle.interpretAsSetOperations(weights)].  It throws where
    the code reads [.weight] of a missing third (or second, or first)
    sorted entry. *)
Definition interpretAsSetOperations (this : SemanticTriangle) (weights : list num)
  : outcome SetOperation :=
  let titles := map (fun doc => str_or (doc_title doc) (doc_id doc)) (vertices this) in
  if forallb (fun w => nge w LOW && nle w HIGH) weights
     && nlt (nsub (Math_max weights) (Math_min weights)) (Fin 0.3)
  then
    Return {|
      so_type := "balanced_intersection";
      so_description :=
        "Balanced intersection of all three documents: " +:+ join ", " titles;
      so_conceptual :=
        "This point represents concepts that appear in all three documents with similar importance."
    |}
  else
    let maxIndex := indexOf weights (Math_max weights) in
    let dominant :=
      match maxIndex with
      | Some m => if nge (nidx weights m) HIGH then Some m else None
      | None => None
      end in
    match dominant with
    | Some m =>
        let otherIndices :=
          omap (fun '(i, w) => if negb (i =? m)%nat && nge w LOW then Some i else None)
               (imap (fun i w => (i, w)) weights) in
        match otherIndices with
        | [] =>
            Return {|
              so_type := "single_document";
              so_description := "Primarily " +:+ str_idx titles m +:+ " concepts";
              so_conceptual :=
                "This point closely resembles a single document with minimal influence from others."
            |}
        | _ =>
            let otherTitles := map (str_idx titles) otherIndices in
            Return {|
              so_type := "dominant_with_influence";
              so_description :=
                str_idx titles m +:+ " with influence from " +:+ join " and " otherTitles;
              so_conceptual :=
                "This point represents a dominant document modified by specific features from others."
            |}
        end
    | None =>
        let sortedIndices :=
          sort_by (fun a b : num * nat => nsub (fst b) (fst a))
                  (imap (fun i w => (w, i)) weights) in
        let complex :=
          {| so_type := "complex_weighted_combination";
             so_description := "Complex combination of all documents";
             so_conceptual :=
               "This point represents a nuanced mix of concepts from all three documents in varying degrees."
          |} in
        let missing := Throw "TypeError: cannot read properties of undefined" in
        match sortedIndices with
        | [] => missing
        | s0 :: rest0 =>
            if nge (fst s0) MEDIUM then
              match rest0 with
              | [] => missing
              | s1 :: rest1 =>
                  if nge (fst s1) MEDIUM then
                    match rest1 with
                    | [] => missing
                    | s2 :: _ =>
                        if nlt (fst s2) LOW then
                          Return {|
                            so_type := "paired_intersection";
                            so_description :=
                              "Intersection of " +:+ str_idx titles (snd s0)
                              +:+ " and " +:+ str_idx titles (snd s1);
                            so_conceptual :=
                              "This point represents concepts shared between two documents with little influence from the third."
                          |}
                        else Return complex
                    end
                  else Return complex
              end
            else Return complex
        end
    end.

(** The [contributions] array: one entry per vertex, with the weight and
    similarity of its index. *)
Definition contributions_of (this : SemanticTriangle) (weight similarity : nat -> num)
  : list Contribution :=
  imap (fun i doc =>
          {| c_id := str_or (doc_id doc) ("unknown-" +:+ pretty i);
             c_title :=
               str_or (doc_title doc)
                      (str_or (doc_id doc) ("Unknown Document " +:+ pretty i));
             c_weight := weight i;
             c_similarity := similarity i |})
       (vertices this).

(** The result returned when the analysis is abandoned. *)
Definition abandoned (this : SemanticTriangle) (weight : nat -> num)
    (type description conceptual : string) : Semantics :=
  {| contributions := contributions_of this weight (fun _ => Fin 0.5);
     combinedEmbedding := [];
     setOperation :=
       {| so_type := type;
          so_description := description;
          so_conceptual := conceptual |} |}.

Definition unknown (this : SemanticTriangle) (weight : nat -> num)
    (conceptual : string) : Semantics :=
  abandoned this weight "unknown" "Could not determine semantic relationship" conceptual.

(** The two nested loops that accumulate the weighted combination. *)
Definition combine (normalizedWeights : list num) (embs : list (list Q))
    (embeddingLength : nat) : list num :=
  fold_left
    (fun combined i =>
       imap (fun j c =>
               nadd c (nmul (nidx normalizedWeights i)
                            (match embs !! i with Some e => idx e j | None => NaN end)))
            combined)
    (seq 0 (length embs))
    (repeat (Fin 0) embeddingLength).

(** [SemanticTriangle.getInteriorPointSemantics(weights)]; [None] is a null
    or undefined argument. *)
Definition getInteriorPointSemantics (this : SemanticTriangle)
    (weights : option (list num)) : outcome Semantics :=
  try_catch
    (match weights with
     | Some ws =>
         if (length ws =? 3)%nat && (length (embeddings this) =? 3)%nat then
           let sum := sum_weights ws in
           if nlt (nabs sum) (Fin 0.0001) then
             Return (unknown this (fun _ => Fin (1 / 3))
                               "Analysis failed due to invalid weights")
           else
             let normalizedWeights := map (fun w => ndiv w sum) ws in
             let embeddingLength :=
               match embeddings this !! 0%nat with Some e => length e | None => 0%nat end in
             if (embeddingLength =? 0)%nat
                || existsb (fun e => negb (length e =? embeddingLength)%nat)
                           (embeddings this)
             then
               Return (unknown this (nidx normalizedWeights)
                                 "Analysis failed due to inconsistent embedding dimensions")
             else
               let combined :=
                 combine normalizedWeights (embeddings this) embeddingLength in
               setOp ← interpretAsSetOperations this normalizedWeights;
               let similarities :=
                 map (fun e => calculateSimilarity combined (map Fin e))
                     (embeddings this) in
               Return {| contributions :=
                           contributions_of this (nidx normalizedWeights)
                                            (nidx similarities);
                         combinedEmbedding := combined;
                         setOperation := setOp |}
         else
           Return (unknown this (fun _ => Fin (1 / 3))
                             "Analysis failed due to invalid data")
     | None =>
         Return (unknown this (fun _ => Fin (1 / 3))
                           "Analysis failed due to invalid data")
     end)
    (fun _ =>
       Return (abandoned this (fun _ => Fin (1 / 3)) "error"
                         "Error analyzing semantic relationship"
                         "Analysis failed due to an error")).

(** ** The tessellation *)

(** The [d3-delaunay] triangulation object, as far as the tessellation
    uses it: the flat [triangles] index array and the [find] query. *)
Record Delaunay : Type := mkDelaunay {
  del_triangles : list nat;
  del_find : num -> num -> Z
}.

(** [Delaunay.from(points)], a call into the library. *)
Variable Delaunay_from : list (list Q) -> outcome Delaunay.

(** The state of a [SemanticTessellation] object.  [None] in [documents],
    [coordinates] and [delaunay] is null; an entry [None] of the document
    array is a null or undefined document.  [coordinates] is the plain
    object that maps a document id to its coordinate array; a document id
    is taken not to name a member of [Object.prototype] (for such an id the
    read answers an inherited function).
    [pointToDocumentMap] is keyed by the point (the code keys it by the
    point's string form). *)
Record SemanticTessellation : Type := mkSemanticTessellation {
  documents : option (list (option Document));
  coordinates : option (gmap string (list Q));
  triangles : list SemanticTriangle;
  delaunay : option Delaunay;
  pointToDocumentMap : list (list Q * Document);
  initialized : bool;
  useManualTriangulation : bool
}.

Definition set_documents (v : option (list (option Document))) (this : SemanticTessellation) :=
  mkSemanticTessellation v (coordinates this) (triangles this) (delaunay this)
    (pointToDocumentMap this) (initialized this) (useManualTriangulation this).

Definition set_triangles (v : list SemanticTriangle) (this : SemanticTessellation) :=
  mkSemanticTessellation (documents this) (coordinates this) v (delaunay this)
    (pointToDocumentMap this) (initialized this) (useManualTriangulation this).

Definition set_delaunay (v : option Delaunay) (this : SemanticTessellation) :=
  mkSemanticTessellation (documents this) (coordinates this) (triangles this) v
    (pointToDocumentMap this) (initialized this) (useManualTriangulation this).

Definition set_pointToDocumentMap (v : list (list Q * Document)) (this : SemanticTessellation) :=
  mkSemanticTessellation (documents this) (coordinates this) (triangles this)
    (delaunay this) v (initialized this) (useManualTriangulation this).

Definition set_initialized (v : bool) (this : SemanticTessellation) :=
  mkSemanticTessellation (documents this) (coordinates this) (triangles this)
    (delaunay this) (pointToDocumentMap this) v (useManualTriangulation this).

Definition set_useManualTriangulation (v : bool) (this : SemanticTessellation) :=
  mkSemanticTessellation (documents this) (coordinates this) (triangles this)
    (delaunay this) (pointToDocumentMap this) (initialized this) v.

(** [new SemanticTessellation(documents, coordinates)]. *)
Definition new_SemanticTessellation (docs : option (list (option Document)))
    (coords : option (gmap string (list Q))) : SemanticTessellation :=
  {| documents := docs;
     coordinates := coords;
     triangles := [];
     delaunay := None;
     pointToDocumentMap := [];
     initialized := false;
     useManualTriangulation := false |}.

(** A property read [this[name]] reduced to what a caller can tell apart:
    a boolean, an object, null, or undefined for a property the object
    does not have.  ([voronoi] is set to null by the constructor and never
    assigned.) *)
Inductive property : Type :=
| PBool (b : bool)
| PString (s : string)
| PObject
| PNull
| PUndefined.

Definition of_option {A : Type} (o : option A) : property :=
  match o with Some _ => PObject | None => PNull end.

Definition get_property (this : SemanticTessellation) (name : string) : property :=
  if String.eqb name "documents" then of_option (documents this)
  else if String.eqb name "coordinates" then of_option (coordinates this)
  else if String.eqb name "triangles" then PObject
  else if String.eqb name "delaunay" then of_option (delaunay this)
  else if String.eqb name "voronoi" then PNull
  else if String.eqb name "pointToDocumentMap" then PObject
  else if String.eqb name "initialized" then PBool (initialized this)
  else if String.eqb name "useManualTriangulation" then PBool (useManualTriangulation this)
  else PUndefined.

(** [doc && doc.id && this.coordinates[doc.id]], the filter of
    [buildTriangulation]. *)
Definition valid_document (coords : gmap string (list Q)) (doc : option Document)
  : option Document :=
  match doc with
  | Some d =>
      if truthy (doc_id d) && bool_decide (is_Some (coords !! doc_id d)) then Some d
      else None
  | None => None
  end.

Definition point_eqb (p q : list Q) : bool :=
  (length p =? length q)%nat && forallb (fun '(a, b) => Qeq_bool a b) (zip p q).

(** [map.set(key, value)] on an insertion-ordered map. *)
Fixpoint map_set (key : list Q) (value : Document) (m : list (list Q * Document))
  : list (list Q * Document) :=
  match m with
  | [] => [(key, value)]
  | (k, v) :: m' =>
      if point_eqb k key then (k, value) :: m' else (k, v) :: map_set key value m'
  end.

(** The [forEach] that collects the points: a document whose coordinate
    array does not have two entries is skipped. *)
Fixpoint collect_points (coords : gmap string (list Q)) (docs : list Document)
    (points : list (list Q)) (m : list (list Q * Document))
  : list (list Q) * list (list Q * Document) :=
  match docs with
  | [] => (points, m)
  | doc :: docs' =>
      match coords !! doc_id doc with
      | Some point =>
          if (length point =? 2)%nat
          then collect_points coords docs' (points ++ [point]) (map_set point doc m)
          else collect_points coords docs' points m
      | None => collect_points coords docs' points m
      end
  end.

(** [this.documents[i]] for an index read from the triangle array
    ([None]: the read was past the end of that array). *)
Definition document_at (docs : list (option Document)) (i : option nat)
  : option Document :=
  match i with
  | Some i => match docs !! i with Some d => d | None => None end
  | None => None
  end.

(** The loop [for (i = 0; i < triangleIndices.length; i += 3)]: the index
    triples it visits. *)
Fixpoint index_triples (l : list nat) : list (option nat * option nat * option nat) :=
  match l with
  | [] => []
  | [a] => [(Some a, None, None)]
  | [a; b] => [(Some a, Some b, None)]
  | a :: b :: c :: l' => (Some a, Some b, Some c) :: index_triples l'
  end.

Definition has_id (doc : option Document) : bool :=
  match doc with Some d => truthy (doc_id d) | None => false end.

(** The body of that loop; the list of triangles pushed so far is kept
    also when a constructor throws. *)
Fixpoint push_triangles (docs : list (option Document))
    (triples : list (option nat * option nat * option nat))
    (acc : list SemanticTriangle) : list SemanticTriangle * outcome () :=
  match triples with
  | [] => (acc, Return ())
  | (ia, ib, ic) :: rest =>
      let docA := document_at docs ia in
      let docB := document_at docs ib in
      let docC := document_at docs ic in
      if has_id docA && has_id docB && has_id docC then
        match new_SemanticTriangle docA docB docC with
        | Return t => push_triangles docs rest (acc ++ [t])
        | Throw e => (acc, Throw e)
        end
      else push_triangles docs rest acc
  end.

(** [SemanticTessellation.buildTriangulation()].  The object is returned
    in every case; the [catch] clause of the method is the [Throw]
    branches below. *)
Definition buildTriangulation (this : SemanticTessellation)
  : outcome SemanticTessellation :=
  match documents this, coordinates this with
  | Some docs, Some coords =>
      if (length docs <? 3)%nat then Return (set_initialized false this)
      else
        let validDocuments := omap (valid_document coords) docs in
        if (length validDocuments <? 3)%nat then Return (set_initialized false this)
        else
          let this := set_documents (Some (map Some validDocuments)) this in
          let '(points, m) := collect_points coords validDocuments [] [] in
          let this := set_pointToDocumentMap m this in
          if (length points <? 3)%nat then Return (set_initialized false this)
          else
            let this :=
              set_useManualTriangulation (length validDocuments <=? 3)%nat this in
            if useManualTriangulation this then
              match new_SemanticTriangle (validDocuments !! 0%nat)
                                         (validDocuments !! 1%nat)
                                         (validDocuments !! 2%nat) with
              | Return t =>
                  let this := set_triangles [t] this in
                  Return (set_initialized (0 <? length (triangles this))%nat this)
              | Throw _ => Return (set_initialized false this)
              end
            else
              match Delaunay_from points with
              | Return d =>
                  let this := set_delaunay (Some d) this in
                  let '(ts, r) :=
                    push_triangles (map Some validDocuments)
                                   (index_triples (del_triangles d)) [] in
                  let this := set_triangles ts this in
                  match r with
                  | Return _ =>
                      Return (set_initialized (0 <? length (triangles this))%nat this)
                  | Throw _ => Return (set_initialized false this)
                  end
              | Throw _ => Return (set_initialized false this)
              end
  | _, _ => Return (set_initialized false this)
  end.

(** [triangle.vertices.map(doc => this.coordinates[doc.id]).filter(Boolean)]:
    the callback reads a property of [this.coordinates], which throws when
    that is null. *)
Definition vertex_coordinates (this : SemanticTessellation) (triangle : SemanticTriangle)
  : outcome (list (list Q)) :=
  match vertices triangle, coordinates this with
  | [], _ => Return []
  | _ :: _, None => Throw "TypeError: cannot read properties of null"
  | vs, Some coords => Return (omap (fun doc => coords !! doc_id doc) vs)
  end.

(** [this.delaunay.triangles[i]] for a computed index. *)
Definition triangle_index_at (d : Delaunay) (i : Z) : option nat :=
  if (i <? 0)%Z then None else del_triangles d !! Z.to_nat i.

(** The predicate of [this.triangles.find(...)]: every looked-up document
    is one of the triangle's vertices. *)
Definition matches_indices (docs : list (option Document)) (docIndices : list (option nat))
    (triangle : SemanticTriangle) : bool :=
  forallb
    (fun i =>
       match document_at docs i with
       | Some doc =>
           truthy (doc_id doc)
           && existsb (fun triangleDoc =>
                         truthy (doc_id triangleDoc)
                         && String.eqb (doc_id triangleDoc) (doc_id doc))
                      (vertices triangle)
       | None => false
       end)
    docIndices.

(** [SemanticTessellation.findContainingTriangle(point)].  The result
    [None] is the code's null (or the undefined of a [find] without a
    match); [point = None] is a null or undefined argument. *)
Definition findContainingTriangle (this : SemanticTessellation) (point : option (list Q))
  : outcome (option SemanticTriangle) :=
  if negb (initialized this) then Return None
  else
    proceed ←
      (if useManualTriangulation this then
         match triangles this !! 0%nat with
         | None => Return false
         | Some triangle =>
             vs ← vertex_coordinates this triangle;
             if negb (length vs =? 3)%nat then Return false
             else
               match delaunay this with
               | Some _ => Return true
               | None => Return false
               end
         end
       else Return true);
    if negb proceed then Return None
    else
      match delaunay this with
      | None => Return None
      | Some d =>
          match point with
          | None => Throw "TypeError: cannot read properties of null"
          | Some p =>
              let triangleIndex := del_find d (idx p 0) (idx p 1) in
              if (triangleIndex =? -1)%Z then Return None
              else
                let docIndices :=
                  [ triangle_index_at d (triangleIndex * 3);
                    triangle_index_at d (triangleIndex * 3 + 1);
                    triangle_index_at d (triangleIndex * 3 + 2) ] in
                match triangles this, documents this with
                | [], _ => Return None
                | _ :: _, None => Throw "TypeError: cannot read properties of null"
                | ts, Some docs => Return (List.find (matches_indices docs docIndices) ts)
                end
          end
      end.

Record AnalysisResult : Type := mkAnalysisResult {
  a_triangle : SemanticTriangle;
  a_weights : list num;
  a_semantics : Semantics;
  a_point : list Q
}.

(** [SemanticTessellation.analyzePoint(point)]. *)
Definition analyzePoint (this : SemanticTessellation) (point : option (list Q))
  : outcome (option AnalysisResult) :=
  match point with
  | None => Return None
  | Some p =>
      if negb (initialized this) then Return None
      else
        try_catch
          (found ← findContainingTriangle this (Some p);
           match found with
           | None => Return None
           | Some triangle =>
               vs ← vertex_coordinates this triangle;
               if negb (length vs =? 3)%nat then Return None
               else
                 let weights := calculateBarycentricCoordinates (Some p) (Some vs) in
                 if negb (length weights =? 3)%nat then Return None
                 else
                   semantics ← getInteriorPointSemantics triangle (Some weights);
                   Return (Some {| a_triangle := triangle;
                                   a_weights := weights;
                                   a_semantics := semantics;
                                   a_point := p |})
           end)
          (fun _ => Return None)
  end.

End Engine.

(** ** Rounded arithmetic *)

(** A JavaScript number is a binary64 value, and every arithmetic
    operation answers the exact result rounded to the nearest such value.
    The definitions of this part repeat the two weight computations with a
    rounding [rnd] applied after every operation; literals that are not
    binary64 values ([0.0001], [0.33], [0.34]) are rounded as well.
    Overflow to an infinity is not part of the model. *)

(** The unit roundoff of binary64, [2^-53], and half the smallest positive
    binary64 value, [2^-1075]. *)
Definition unit_roundoff : Q := 1 # 9007199254740992.

Definition underflow_unit : Q := 2 ^ (-1075).

(** The multiples of the smallest positive binary64 value, [2^-1074]:
    every binary64 value is one, and so is every sum and every difference
    of two binary64 values. *)
Definition on_grid (x : Q) : Prop := exists k : Z, x == inject_Z k * 2 ^ (-1074).

(** What the computations below use of the rounding of binary64:
    every result is on the grid; a value on the grid is rounded with a
    relative error of at most the unit roundoff (below the normal range it
    is a binary64 value already); any other value may lose [2^-1075] more to
    underflow; and rounding keeps the sign. *)
Definition rounding (rnd : Q -> Q) : Prop :=
  (forall x : Q, on_grid (rnd x))
  /\ (forall x : Q, on_grid x -> Qabs (rnd x - x) <= unit_roundoff * Qabs x)
  /\ (forall x : Q, Qabs (rnd x - x) <= unit_roundoff * Qabs x + underflow_unit)
  /\ (forall x : Q, 0 <= x -> 0 <= rnd x).

(** The binade of a non-zero rational: the [e] with [2^e <= |q| < 2^(e+1)]. *)
Definition binade (q : Q) : Z :=
  let a := Qabs q in
  if Qle_bool 1 a then Z.log2 (Qfloor a)
  else (- Z.log2_up (Qceiling (/ a)))%Z.

(** The nearest integer, ties to the even one. *)
Definition round_half_even (m : Q) : Z :=
  let f := Qfloor m in
  let r := m - inject_Z f in
  if Qlt_bool r (1 # 2) then f
  else if Qlt_bool (1 # 2) r then (f + 1)%Z
  else if Z.even f then f else (f + 1)%Z.

(** Rounding to binary64, [roundTiesToEven]: 53 significant bits in the
    normal range, multiples of [2^-1074] below it.  (The exponent is not
    bounded above: a result beyond the largest binary64 value is rounded
    like any other, where JavaScript answers an infinity.) *)
Definition roundTiesToEven (q : Q) : Q :=
  if Qeq_bool q 0 then 0
  else
    let ulp := 2 ^ Z.max (binade q - 52) (-1074) in
    inject_Z (round_half_even (q / ulp)) * ulp.

Module Rounded.
Section Arithmetic.

Variable rnd : Q -> Q.

Definition nadd : num -> num -> num := lift2 (fun p q => rnd (p + q)).
Definition nsub : num -> num -> num := lift2 (fun p q => rnd (p - q)).
Definition nmul : num -> num -> num := lift2 (fun p q => rnd (p * q)).

Definition ndiv (a b : num) : num :=
  match a, b with
  | Fin p, Fin q => if Qeq_bool q 0 then NaN else Fin (rnd (p / q))
  | _, _ => NaN
  end.

(** [ws.reduce((acc, w) => acc + w, 0)]. *)
Definition sum_weights (ws : list num) : num := fold_left nadd ws (Fin 0).

Definition default_weights : list num :=
  [Fin (rnd 0.33); Fin (rnd 0.33); Fin (rnd 0.34)].

(** [SemanticTriangle.calculateBarycentricCoordinates(point, vertices)]. *)
Definition calculateBarycentricCoordinates
    (point : option (list Q)) (vertices : option (list (list Q))) : list num :=
  match point, vertices with
  | Some point, Some [v1; v2; v3] =>
      let denominator :=
        nadd (nmul (nsub (idx v2 1) (idx v3 1)) (nsub (idx v1 0) (idx v3 0)))
             (nmul (nsub (idx v3 0) (idx v2 0)) (nsub (idx v1 1) (idx v3 1))) in
      if nlt (nabs denominator) (Fin (rnd 0.0001)) then default_weights
      else
        let w1 :=
          ndiv (nadd (nmul (nsub (idx v2 1) (idx v3 1)) (nsub (idx point 0) (idx v3 0)))
                     (nmul (nsub (idx v3 0) (idx v2 0)) (nsub (idx point 1) (idx v3 1))))
               denominator in
        let w2 :=
          ndiv (nadd (nmul (nsub (idx v3 1) (idx v1 1)) (nsub (idx point 0) (idx v3 0)))
                     (nmul (nsub (idx v1 0) (idx v3 0)) (nsub (idx point 1) (idx v3 1))))
               denominator in
        let w3 := nsub (nsub (Fin 1) w1) w2 in
        [w1; w2; w3]
  | _, _ => default_weights
  end.

(** [THREE.Vector3]: [subVectors], [crossVectors] and [dot]. *)
Definition subVectors (a b : Vector3) : Vector3 :=
  mkVector3 (rnd (vx a - vx b)) (rnd (vy a - vy b)) (rnd (vz a - vz b)).

Definition crossVectors (a b : Vector3) : Vector3 :=
  mkVector3 (rnd (rnd (vy a * vz b) - rnd (vz a * vy b)))
            (rnd (rnd (vz a * vx b) - rnd (vx a * vz b)))
            (rnd (rnd (vx a * vy b) - rnd (vy a * vx b))).

Definition dot (a b : Vector3) : Q :=
  rnd (rnd (rnd (vx a * vx b) + rnd (vy a * vy b)) + rnd (vz a * vz b)).

(** The four sub-volumes and their sum. *)
Definition volume0 (point a b c d : Vector3) : Q :=
  rnd (Qabs (dot (crossVectors (subVectors point b) (subVectors point c))
                 (subVectors point d)) / 6).

Definition volume1 (point a b c d : Vector3) : Q :=
  rnd (Qabs (dot (crossVectors (subVectors a point) (subVectors c point))
                 (subVectors d point)) / 6).

Definition volume2 (point a b c d : Vector3) : Q :=
  rnd (Qabs (dot (crossVectors (subVectors a point) (subVectors b point))
                 (subVectors d point)) / 6).

Definition volume3 (point a b c d : Vector3) : Q :=
  rnd (Qabs (dot (crossVectors (subVectors a point) (subVectors b point))
                 (subVectors c point)) / 6).

Definition totalVolume (point a b c d : Vector3) : Q :=
  rnd (rnd (rnd (volume0 point a b c d + volume1 point a b c d)
            + volume2 point a b c d)
       + volume3 point a b c d).

(** [calculateBarycentricCoordinates3D(point, vertices)]. *)
Definition calculateBarycentricCoordinates3D (point : Vector3) (vertices : list Vector3)
  : list num :=
  match vertices with
  | [a; b; c; d] =>
      [ ndiv (Fin (volume0 point a b c d)) (Fin (totalVolume point a b c d));
        ndiv (Fin (volume1 point a b c d)) (Fin (totalVolume point a b c d));
        ndiv (Fin (volume2 point a b c d)) (Fin (totalVolume point a b c d));
        ndiv (Fin (volume3 point a b c d)) (Fin (totalVolume point a b c d)) ]
  | _ => [Fin 0; Fin 0; Fin 0; Fin 0]
  end.

End Arithmetic.
End Rounded.

(** The reduced sum of a weight vector is 1 within [1e-6]. *)
Definition rounded_sum_is_one (rnd : Q -> Q) (ws : list num) : Prop :=
  match Rounded.sum_weights rnd ws with
  | Fin s => Qabs (s - 1) <= 0.000001
  | NaN => False
  end.

(** * Vocabulary of the properties *)

(** The denominator of the two-equation solve, for vertices [(x1, y1)],
    [(x2, y2)], [(x3, y3)]. *)
Definition denominator (x1 y1 x2 y2 x3 y3 : Q) : Q :=
  (y2 - y3) * (x1 - x3) + (x3 - x2) * (y1 - y3).

(** A triangle is degenerate for the code when [|denominator| < 0.0001]. *)
Definition degenerate (x1 y1 x2 y2 x3 y3 : Q) : Prop :=
  Qabs (denominator x1 y1 x2 y2 x3 y3) < 0.0001.

(** A weight vector sums to one within [1e-6]; the sum is taken as
    [reduce] takes it. *)
Definition sums_to_one (ws : list num) : Prop :=
  match sum_weights ws with
  | Fin s => Qabs (s - 1) <= 0.000001
  | NaN => False
  end.

Definition weights_eq (ws ws' : list num) : Prop := Forall2 num_eq ws ws'.


(** A rational stand-in for [Math.sqrt] on concrete inputs: exact on the
    squares of rationals. *)
Definition sqrt_exact (q : Q) : Q :=
  Qmake (Z.sqrt (Qnum q * Zpos (Qden q))) (Qden q).

(** Sample documents and the triangle they span. *)
Definition docA : Document := mkDocument "a" "Alpha" "" (Some [1; 0]).
Definition docB : Document := mkDocument "b" "Beta" "" (Some [0; 1]).
Definition docC : Document := mkDocument "c" "Gamma" "" (Some [1; 1]).
Definition docD : Document := mkDocument "d" "Delta" "" (Some [0; 2]).

Definition sample_triangle : SemanticTriangle :=
  {| vertices := [docA; docB; docC];
     embeddings := [[1; 0]; [0; 1]; [1; 1]];
     tri_id := "triangle-a-b-c" |}.

(** A document without an embedding. *)
Definition docE : Document := mkDocument "e" "Epsilon" "" None.

Definition sample_coordinates : gmap string (list Q) :=
  <["a" := [0; 0]]> (<["b" := [1; 0]]> (<["c" := [0; 1]]> (<["d" := [1; 1]]> ∅))).

(** Stand-ins for the parameters on the sample documents: a content
    embedding that is never consulted (the samples have no content), and a
    triangulation of the unit square spanned by the four sample points,
    whose [find] answers as a point-location query would: the index of the
    triangle that holds the point, and [-1] outside the square. *)
Definition sample_contentEmbedding (content : string) : list Q := repeat 0 128.

Definition sample_delaunay : Delaunay :=
  {| del_triangles := [0; 1; 2; 1; 3; 2]%nat;
     del_find := fun x y =>
       if nlt x (Fin 0) || nlt y (Fin 0) || ngt x (Fin 1) || ngt y (Fin 1) then (-1)%Z
       else if nle (nadd x y) (Fin 1) then 0%Z
       else if nle x (Fin 1) && nle y (Fin 1) then 1%Z
       else (-1)%Z |}.

Definition sample_Delaunay_from (points : list (list Q)) : outcome Delaunay :=
  Return sample_delaunay.

(** The documents that pass the filter of [buildTriangulation]: those with
    an id and with coordinates. *)
Definition validDocuments (this : SemanticTessellation) : list Document :=
  match documents this, coordinates this with
  | Some docs, Some coords => omap (valid_document coords) docs
  | _, _ => []
  end.

(** A triangle whose embeddings differ in length. *)
Definition mismatched_triangle : SemanticTriangle :=
  {| vertices := [docA; docB; docC];
     embeddings := [[1; 0]; [0; 1; 5]; [1; 1]];
     tri_id := "triangle-a-b-c" |}.

(** A triangle whose embeddings have the common length 0. *)
Definition empty_triangle : SemanticTriangle :=
  {| vertices := [docA; docB; docC];
     embeddings := [[]; []; []];
     tri_id := "triangle-a-b-c" |}.

(** The common length D of the vertex embeddings, when they are three
    arrays of one non-zero length. *)
Definition common_dimension (embs : list (list Q)) : option nat :=
  match embs with
  | [e0; e1; e2] =>
      if (0 <? length e0)%nat && (length e1 =? length e0)%nat
         && (length e2 =? length e0)%nat
      then Some (length e0)
      else None
  | _ => None
  end.

(** The shape of a result of type [unknown]: no combined embedding and
    similarity 0.5 for every vertex. *)
Definition unknown_result (sem : Semantics) : Prop :=
  so_type (setOperation sem) = "unknown"
  /\ combinedEmbedding sem = []
  /\ Forall (fun ctr => c_similarity ctr = Fin 0.5) (contributions sem).

(** The inner product of two vectors, summed from the left as the loop of
    [calculateSimilarity] sums it. *)
Definition dotQ (u v : list Q) : Q :=
  fold_left (fun acc '(a, b) => acc + a * b) (zip u v) 0.

(** The cosine similarity of the specification: the cosine of the angle,
    and 0 when one of the vectors has norm zero. *)
Definition cosineSimilarity (sqrt : Q -> Q) (u v : list Q) : Q :=
  if Qeq_bool (dotQ u u) 0 || Qeq_bool (dotQ v v) 0 then 0
  else dotQ u v / (sqrt (dotQ u u) * sqrt (dotQ v v)).

(** [acc[j] + w * e[j]] for every [j]. *)
Definition axpy (w : Q) (e acc : list Q) : list Q :=
  zip_with (fun c x => c + w * x) acc e.

(** The weighted combination of three embeddings of length [D]. *)
Definition weighted_sum (w0 w1 w2 : Q) (e0 e1 e2 : list Q) (D : nat) : list Q :=
  axpy w2 e2 (axpy w1 e1 (axpy w0 e0 (repeat 0 D))).

(** The five classifications of a triangle's interior point. *)
Definition triangle_types : list string :=
  [ "balanced_intersection"; "single_document"; "dominant_with_influence";
    "paired_intersection"; "complex_weighted_combination" ].
(** ** The embedding service: hashing and projection *)

(** [ToInt32]: the value wrapped into the signed 32-bit range, as [x | 0]
    and the left shift do it. *)
Definition to_int32 (z : Z) : Z := ((z + 2 ^ 31) mod 2 ^ 32 - 2 ^ 31)%Z.

(** [simpleHash(str)], on the UTF-16 code units of the string. *)
Definition simpleHash (str : list Z) : Z :=
  fold_left (fun hash char => to_int32 (to_int32 (Z.shiftl hash 5) - hash + char))
            str 0%Z.

(** [xs.reduce((sum, val, i) => sum + (val || 0) * (i + 1), 0)]. *)
Definition weighted_index_sum (xs : list Q) : Q :=
  fold_left (fun sum '(i, val) => sum + val * inject_Z (Z.of_nat i + 1))
            (imap (fun i val => (i, val)) xs) 0.

(** [projectToTwoDimensions(embedding)]; [None] is a null or undefined
    argument. *)
Definition projectToTwoDimensions (embedding : option (list Q)) : list Q :=
  match embedding with
  | None | Some [] => [0; 0]
  | Some e =>
      let xCoord := weighted_index_sum (take 10 e) in
      let yCoord := weighted_index_sum (take 10 (drop 10 e)) in
      [xCoord; yCoord]
  end.

Section Search.

Variable sqrt : Q -> Q.
Variable contentEmbedding : string -> list Q.

(** ** Searching for documents *)

Record Match : Type := mkMatch {
  m_document : Document;
  m_similarity : num
}.

(** [doc.embedding || doc.getEmbedding()] for a [Document] instance:
    [getEmbedding] generates the embedding on first use and keeps it in the
    document. *)
Definition getEmbedding (doc : Document) : Document * list Q :=
  match doc_embedding doc with
  | Some e => (doc, e)
  | None =>
      let e := generateEmbedding contentEmbedding doc in
      (mkDocument (doc_id doc) (doc_title doc) (doc_content doc) (Some e), e)
  end.

(** [findMatchingDocuments(combinedEmbedding, documents, excludeDocIds,
    threshold, maxResults)], on [Document] instances. *)
Definition findMatchingDocuments (combinedEmbedding : option (list num))
    (documents : list Document) (excludeDocIds : list string)
    (threshold : num) (maxResults : nat) : list Match :=
  match combinedEmbedding with
  | None => []
  | Some combined =>
      if (length documents =? 0)%nat then []
      else
        let candidates :=
          List.filter (fun doc => negb (existsb (String.eqb (doc_id doc)) excludeDocIds))
                      documents in
        let documentsWithScores :=
          map (fun doc =>
                 let '(doc', docEmbedding) := getEmbedding doc in
                 {| m_document := doc';
                    m_similarity := calculateSimilarity sqrt combined (map Fin docEmbedding) |})
              candidates in
        take maxResults
             (sort_by (fun a b => nsub (m_similarity b) (m_similarity a))
                      (List.filter (fun item => nge (m_similarity item) threshold)
                                   documentsWithScores))
  end.

(** ** The tetrahedron view: semantic interpolation *)

Record Contribution3D : Type := mkContribution3D {
  c3_id : string;
  c3_title : string;
  c3_weight : num;
  c3_similarity : option num
}.

Record Interpolation : Type := mkInterpolation {
  i_contributions : list Contribution3D;
  i_setOperation : SetOperation
}.

(** The result that carries the weights only. *)
Definition positional_mix (type : string) (baryCoords : list num)
    (documents : list Document) : Interpolation :=
  {| i_contributions :=
       imap (fun i doc => {| c3_id := doc_id doc;
                             c3_title := doc_title doc;
                             c3_weight := nidx baryCoords i;
                             c3_similarity := None |})
            documents;
     i_setOperation :=
       {| so_type := type;
          so_description := "Mixture based on position";
          so_conceptual := "Represents spatial interpolation." |} |}.

(** The loop that accumulates the weighted combination; it stops with
    [None] at the first embedding whose length differs. *)
Fixpoint accumulate3D (baryCoords : list num) (embs : list (list Q)) (i : nat)
    (combined : list num) : option (list num) :=
  match embs with
  | [] => Some combined
  | e :: rest =>
      if (length e =? length combined)%nat then
        accumulate3D baryCoords rest (S i)
          (imap (fun j c => nadd c (nmul (nidx baryCoords i) (idx e j))) combined)
      else None
  end.

(** The classification of four weights. *)
Definition classify3D (baryCoords : list num) (documents : list Document)
  : string * string :=
  let title i := match documents !! i with Some doc => doc_title doc | None => "undefined" end in
  let maxIndex := indexOf baryCoords (Math_max baryCoords) in
  let dominant :=
    match maxIndex with
    | Some m => if ngt (nidx baryCoords m) (Fin 0.6) then Some m else None
    | None => None
    end in
  match dominant with
  | Some m => ("dominant", "Primarily " +:+ title m +:+ " with influences")
  | None =>
      if forallb (fun w => ngt w (Fin 0.2)) baryCoords then
        ("balanced_intersection", "Balanced intersection of all four documents")
      else
        let sorted := sort_by (fun a b : num => nsub b a) baryCoords in
        if ngt (nadd (nidx sorted 0) (nidx sorted 1)) (Fin 0.8)
           && nlt (nidx sorted 2) (Fin 0.1)
        then
          let indices :=
            map snd (take 2 (sort_by (fun a b : num * nat => nsub (fst b) (fst a))
                                     (imap (fun i w => (w, i)) baryCoords))) in
          ("paired_documents",
           "Combination of " +:+ title (default 0%nat (indices !! 0%nat))
           +:+ " and " +:+ title (default 0%nat (indices !! 1%nat)))
        else ("complex_mix", "Complex mixture of all documents")
  end.

(** [calculateSemanticInterpolation(baryCoords, documents)]; the result
    [None] is null. *)
Definition calculateSemanticInterpolation (baryCoords : list num)
    (documents : list Document) : option Interpolation :=
  if negb (length documents =? 4)%nat || negb (length baryCoords =? 4)%nat then None
  else
    let embeddings := omap doc_embedding documents in
    if negb (length embeddings =? 4)%nat
       || existsb (fun e => (length e =? 0)%nat) embeddings
    then Some (positional_mix "positional_mix" baryCoords documents)
    else
      let D := match embeddings !! 0%nat with Some e => length e | None => 0%nat end in
      match accumulate3D baryCoords embeddings 0 (repeat (Fin 0) D) with
      | None =>
          Some (positional_mix "positional_mix (invalid embedding)" baryCoords documents)
      | Some combinedEmbedding =>
          let similarities :=
            map (fun e => calculateSimilarity sqrt combinedEmbedding (map Fin e))
                embeddings in
          let '(operationType, description) := classify3D baryCoords documents in
          Some {| i_contributions :=
                    imap (fun i doc => {| c3_id := doc_id doc;
                                          c3_title := doc_title doc;
                                          c3_weight := nidx baryCoords i;
                                          c3_similarity := Some (nidx similarities i) |})
                         documents;
                  i_setOperation :=
                    {| so_type := operationType;
                       so_description := description;
                       so_conceptual :=
                         "Represents a semantic mixture derived from document embeddings." |} |}
      end.

End Search.

(** A tessellation in good order: it has coordinates, at least three
    documents, each with an id and coordinates, and at least one triangle;
    every triangle has three vertices, all of them documents of the
    tessellation, and three embeddings. *)
Definition well_formed (T : SemanticTessellation) : Prop :=
  exists (coords : gmap string (list Q)) (docs : list Document),
    coordinates T = Some coords
    /\ documents T = Some (map Some docs)
    /\ (3 <= length docs)%nat
    /\ Forall (fun doc => truthy (doc_id doc) = true /\ is_Some (coords !! doc_id doc)) docs
    /\ triangles T <> []
    /\ Forall (fun t => exists a b c,
                   vertices t = [a; b; c] /\ a ∈ docs /\ b ∈ docs /\ c ∈ docs
                   /\ length (embeddings t) = 3%nat)
              (triangles T).

(** ** Visualization data *)

Record PointData : Type := mkPointData {
  pd_id : string;
  pd_title : string;
  pd_x : num;
  pd_y : num
}.

Record VertexData : Type := mkVertexData {
  vd_x : num;
  vd_y : num;
  vd_docId : string
}.

Record TriangleData : Type := mkTriangleData {
  td_id : string;
  td_vertices : list VertexData;
  td_documentIds : list string
}.

Record DocumentData : Type := mkDocumentData {
  dd_id : string;
  dd_title : string
}.

Record VisualizationData : Type := mkVisualizationData {
  v_triangles : list TriangleData;
  v_points : list PointData;
  v_documents : list DocumentData
}.

(** [xs.map(f)] for a callback that may throw: the first exception ends
    the loop. *)
Fixpoint map_outcome {A B : Type} (f : A -> outcome B) (xs : list A) : outcome (list B) :=
  match xs with
  | [] => Return []
  | x :: xs' => y ← f x; ys ← map_outcome f xs'; Return (y :: ys)
  end.

(** [this.coordinates[doc.id]] inside a callback: reading a property of a
    null document or of null coordinates throws. *)
Definition coordinates_of (this : SemanticTessellation) (doc : option Document)
  : outcome (Document * option (list Q)) :=
  match doc, coordinates this with
  | None, _ => Throw "TypeError: cannot read properties of null"
  | Some _, None => Throw "TypeError: cannot read properties of null"
  | Some d, Some coords => Return (d, coords !! doc_id d)
  end.

(** [SemanticTessellation.getVisualizationData()]. *)
Definition getVisualizationData (this : SemanticTessellation) : outcome VisualizationData :=
  if negb (initialized this) then
    Return {| v_triangles := []; v_points := []; v_documents := [] |}
  else
    match documents this with
    | None => Throw "TypeError: cannot read properties of null"
    | Some docs =>
        pointsData ←
          map_outcome
            (fun doc =>
               '(d, coords) ← coordinates_of this doc;
               Return (match coords with
                       | None => None
                       | Some coords =>
                           Some {| pd_id := doc_id d;
                                   pd_title := str_or (doc_title d) (doc_id d);
                                   pd_x := idx coords 0;
                                   pd_y := idx coords 1 |}
                       end))
            docs;
        triangleData ←
          map_outcome
            (fun triangle =>
               vertexData ←
                 map_outcome
                   (fun doc =>
                      '(d, coords) ← coordinates_of this (Some doc);
                      Return (match coords with
                              | Some coords =>
                                  Some {| vd_x := idx coords 0;
                                          vd_y := idx coords 1;
                                          vd_docId := doc_id d |}
                              | None => None
                              end))
                   (vertices triangle);
               let vertexData := omap id vertexData in
               if negb (length vertexData =? 3)%nat then Return None
               else Return (Some {| td_id := tri_id triangle;
                                    td_vertices := vertexData;
                                    td_documentIds := map doc_id (vertices triangle) |}))
            (triangles this);
        documentsData ←
          map_outcome
            (fun doc =>
               match doc with
               | None => Throw "TypeError: cannot read properties of null"
               | Some d => Return {| dd_id := doc_id d;
                                     dd_title := str_or (doc_title d) (doc_id d) |}
               end)
            docs;
        Return {| v_triangles := omap id triangleData;
                  v_points := omap id pointsData;
                  v_documents := documentsData |}
    end.

(** The tessellations of the sample documents: three of them (the single
    triangle) and four of them (the triangulated unit square), as
    [buildTriangulation] leaves them. *)
Definition built (this : SemanticTessellation) : SemanticTessellation :=
  match buildTriangulation sample_contentEmbedding sample_Delaunay_from this with
  | Return T => T
  | Throw _ => this
  end.

Definition three_documents : SemanticTessellation :=
  new_SemanticTessellation (Some [Some docA; Some docB; Some docC])
                           (Some sample_coordinates).

Definition four_documents : SemanticTessellation :=
  new_SemanticTessellation (Some [Some docA; Some docB; Some docC; Some docD])
                           (Some sample_coordinates).

(** The analysis of the point (3/4, 3/4) in the tessellation of the four
    sample documents. *)
Definition sample_analysis : AnalysisResult :=
  match analyzePoint sqrt_exact (built four_documents) (Some [0.75; 0.75]) with
  | Return (Some r) => r
  | _ => mkAnalysisResult sample_triangle [] (unknown sample_triangle (fun _ => NaN) "") []
  end.

(** A list of scores in descending order: every score is at least every
    later one. *)
Fixpoint descending (l : list num) : Prop :=
  match l with
  | [] => True
  | x :: l' => Forall (fun y => nge x y = true) l' /\ descending l'
  end.

(** The entry of [findMatchingDocuments] for one document. *)
Definition scored (sqrt : Q -> Q) (contentEmbedding : string -> list Q)
    (combined : list num) (doc : Document) : Match :=
  {| m_document := fst (getEmbedding contentEmbedding doc);
     m_similarity :=
       calculateSimilarity sqrt combined
                           (map Fin (snd (getEmbedding contentEmbedding doc))) |}.

(** The documents carry embeddings of the common length [D]. *)
Definition embedded (D : nat) (documents : list Document) : Prop :=
  Forall (fun doc => exists e, doc_embedding doc = Some e /\ length e = D) documents.

(** The classifications of a tetrahedron's interior point. *)
Definition tetrahedron_types : list string :=
  [ "dominant"; "balanced_intersection"; "paired_documents"; "complex_mix" ].

(** * Properties *)

(** ** Numbers *)

Lemma Qlt_bool_true (p q : Q) : Qlt_bool p q = true <-> p < q.
Proof.
  unfold Qlt_bool. rewrite negb_true_iff, <- not_true_iff_false, Qle_bool_iff.
  split; [apply Qnot_le_lt | apply Qlt_not_le].
Qed.

Lemma Qlt_bool_false (p q : Q) : Qlt_bool p q = false <-> q <= p.
Proof.
  unfold Qlt_bool. rewrite negb_false_iff. apply Qle_bool_iff.
Qed.

Lemma Qle_bool_false (p q : Q) : Qle_bool p q = false <-> q < p.
Proof.
  rewrite <- not_true_iff_false, Qle_bool_iff.
  split; [apply Qnot_le_lt | apply Qlt_not_le].
Qed.

Lemma Qeq_bool_false (p q : Q) : Qeq_bool p q = false <-> ~ p == q.
Proof.
  rewrite <- not_true_iff_false, Qeq_bool_iff. tauto.
Qed.

Lemma ndiv_fin (p q : Q) : ~ q == 0 -> ndiv (Fin p) (Fin q) = Fin (p / q).
Proof.
  intros H. unfold ndiv. apply Qeq_bool_false in H. now rewrite H.
Qed.

Lemma ndiv_zero (p q : Q) : q == 0 -> ndiv (Fin p) (Fin q) = NaN.
Proof.
  intros H. unfold ndiv. apply Qeq_bool_iff in H. now rewrite H.
Qed.

Lemma Qdiv_six (q : Q) : q / 6 == q * (1 # 6).
Proof. field. Qed.

Lemma Qabs_zero (q : Q) : q == 0 -> Qabs q == 0.
Proof. intros H. rewrite H. reflexivity. Qed.

Lemma Qabs_bounds (q : Q) : 0 <= Qabs q /\ q <= Qabs q /\ - q <= Qabs q.
Proof.
  repeat split.
  - apply Qabs_nonneg.
  - apply Qle_Qabs.
  - rewrite <- Qabs_opp. apply Qle_Qabs.
Qed.

(** ** Barycentric weights *)

Lemma bary_degenerate (p : list Q) (x1 y1 x2 y2 x3 y3 : Q) :
  degenerate x1 y1 x2 y2 x3 y3 ->
  calculateBarycentricCoordinates (Some p) (Some [[x1; y1]; [x2; y2]; [x3; y3]])
  = default_weights.
Proof.
  intros H. apply Qlt_bool_true in H.
  unfold calculateBarycentricCoordinates. cbn [idx lookup list_lookup nadd nsub nmul nabs lift1 lift2].
  change (nlt (Fin ?a) (Fin ?b)) with (Qlt_bool a b).
  unfold denominator in H. now rewrite H.
Qed.



Lemma totalVolume_nonneg (p a b c d : Vector3) :
  0 <= volume0 p a b c d /\ 0 <= volume1 p a b c d
  /\ 0 <= volume2 p a b c d /\ 0 <= volume3 p a b c d.
Proof.
  unfold volume0, volume1, volume2, volume3.
  repeat split;
    match goal with
    | |- 0 <= Qabs ?t / 6 => pose proof (Qabs_nonneg t); rewrite Qdiv_six; lra
    end.
Qed.


Lemma bary3D_regular (p a b c d : Vector3) :
  ~ totalVolume p a b c d == 0 ->
  calculateBarycentricCoordinates3D p [a; b; c; d]
  = [ Fin (volume0 p a b c d / totalVolume p a b c d);
      Fin (volume1 p a b c d / totalVolume p a b c d);
      Fin (volume2 p a b c d / totalVolume p a b c d);
      Fin (volume3 p a b c d / totalVolume p a b c d) ].
Proof.
  intros H. unfold calculateBarycentricCoordinates3D.
  now rewrite !ndiv_fin by exact H.
Qed.









(** ** Rounding *)

Lemma Qpower_2_Z (k : Z) : (0 <= k)%Z -> 2 ^ k == inject_Z (2 ^ k).
Proof. intros H. symmetry. now apply (Zpower_Qpower 2). Qed.

Lemma binade_lt (q : Q) : ~ q == 0 -> Qabs q < 2 ^ (binade q + 1).
Proof.
  intros Hq. unfold binade. cbv zeta.
  assert (Ha : 0 < Qabs q).
  { destruct (Qabs_bounds q) as (H0 & H1 & H2).
    destruct (Qlt_le_dec 0 (Qabs q)) as [H | H]; [exact H |].
    exfalso. apply Hq. lra. }
  destruct (Qle_bool 1 (Qabs q)) eqn:E.
  - apply Qle_bool_iff in E.
    assert (Hf : (1 <= Qfloor (Qabs q))%Z).
    { change 1%Z with (Qfloor (inject_Z 1)). now apply Qfloor_resp_le. }
    rewrite Qpower_2_Z by (pose proof (Z.log2_nonneg (Qfloor (Qabs q))); lia).
    eapply Qlt_le_trans; [apply Qlt_floor |].
    rewrite <- Zle_Qle.
    pose proof (Z.log2_spec (Qfloor (Qabs q)) ltac:(lia)) as [_ H].
    unfold Z.succ in H. lia.
  - apply Qle_bool_false in E.
    set (c := Qceiling (/ Qabs q)).
    assert (Hc : / Qabs q <= inject_Z c) by apply Qle_ceiling.
    assert (Hi : 1 < / Qabs q).
    { apply Qlt_shift_inv_l; [exact Ha | lra]. }
    assert (Hc1 : (1 < c)%Z).
    { rewrite Zlt_Qlt. change (inject_Z 1) with 1. lra. }
    pose proof (Z.log2_up_spec c Hc1) as [Hl _].
    assert (HL : (0 < Z.log2_up c)%Z) by (apply Z.log2_up_pos; exact Hc1).
    replace (- Z.log2_up c + 1)%Z with (- Z.pred (Z.log2_up c))%Z by lia.
    rewrite Qpower_opp, Qpower_2_Z by lia.
    assert (Hp : inject_Z (2 ^ Z.pred (Z.log2_up c)) < / Qabs q).
    { eapply Qle_lt_trans; [| apply Qceiling_lt]. fold c.
      rewrite <- Zle_Qle. lia. }
    assert (Hpos : 0 < inject_Z (2 ^ Z.pred (Z.log2_up c))).
    { rewrite <- (Qpower_2_Z (Z.pred (Z.log2_up c))) by lia.
      apply Qpower_0_lt. reflexivity. }
    apply Qlt_shift_inv_l; [exact Hpos |].
    apply Qlt_le_trans with (Qabs q * / Qabs q).
    + apply Qmult_lt_l; [exact Ha | exact Hp].
    + rewrite Qmult_inv_r by lra. apply Qle_refl.
Qed.

Lemma binade_le (q : Q) : ~ q == 0 -> 2 ^ binade q <= Qabs q.
Proof.
  intros Hq. unfold binade. cbv zeta.
  assert (Ha : 0 < Qabs q).
  { destruct (Qabs_bounds q) as (H0 & H1 & H2).
    destruct (Qlt_le_dec 0 (Qabs q)) as [H | H]; [exact H |].
    exfalso. apply Hq. lra. }
  destruct (Qle_bool 1 (Qabs q)) eqn:E.
  - apply Qle_bool_iff in E.
    assert (Hf : (1 <= Qfloor (Qabs q))%Z).
    { change 1%Z with (Qfloor (inject_Z 1)). now apply Qfloor_resp_le. }
    rewrite Qpower_2_Z by apply Z.log2_nonneg.
    eapply Qle_trans; [| apply Qfloor_le].
    rewrite <- Zle_Qle. apply Z.log2_spec. lia.
  - apply Qle_bool_false in E.
    set (c := Qceiling (/ Qabs q)).
    assert (Hc : / Qabs q <= inject_Z c) by apply Qle_ceiling.
    assert (Hi : 1 < / Qabs q).
    { apply Qlt_shift_inv_l; [exact Ha | lra]. }
    assert (Hc1 : (1 < c)%Z).
    { rewrite Zlt_Qlt. change (inject_Z 1) with 1. lra. }
    rewrite Qpower_opp, Qpower_2_Z by apply Z.log2_up_nonneg.
    assert (Hp : inject_Z c <= inject_Z (2 ^ Z.log2_up c)).
    { rewrite <- Zle_Qle. apply Z.log2_up_spec. exact Hc1. }
    assert (Hpos : 0 < inject_Z (2 ^ Z.log2_up c)) by lra.
    apply Qle_shift_inv_r; [exact Hpos |].
    apply Qle_trans with (Qabs q * / Qabs q).
    + rewrite Qmult_inv_r by lra. apply Qle_refl.
    + apply Qmult_le_l; [exact Ha | lra].
Qed.

Lemma round_half_even_near (m : Q) :
  Qabs (inject_Z (round_half_even m) - m) <= 1 # 2.
Proof.
  unfold round_half_even. cbv zeta.
  pose proof (Qfloor_le m) as Hl. pose proof (Qlt_floor m) as Hu.
  rewrite inject_Z_plus in Hu. change (inject_Z 1) with 1 in Hu.
  apply Qabs_Qle_condition.
  destruct (Qlt_bool (m - inject_Z (Qfloor m)) (1 # 2)) eqn:E1;
    [apply Qlt_bool_true in E1 | apply Qlt_bool_false in E1];
    [| destruct (Qlt_bool (1 # 2) (m - inject_Z (Qfloor m))) eqn:E2;
       [apply Qlt_bool_true in E2 | apply Qlt_bool_false in E2];
       [| destruct (Z.even (Qfloor m))]];
    rewrite ?inject_Z_plus; change (inject_Z 1) with 1;
    remember (inject_Z (Qfloor m)) as f eqn:Ef; clear Ef; split; lra.
Qed.

(** An integer is rounded to itself. *)
Lemma round_half_even_integer (m : Q) (k : Z) :
  m == inject_Z k -> round_half_even m = k.
Proof.
  intros E. unfold round_half_even. cbv zeta.
  rewrite (Qfloor_comp _ _ E), Qfloor_Z.
  assert (H : Qlt_bool (m - inject_Z k) (1 # 2) = true)
    by (apply Qlt_bool_true; rewrite E; remember (inject_Z k) as f; lra).
  now rewrite H.
Qed.

Lemma round_half_even_nonneg (m : Q) : 0 <= m -> (0 <= round_half_even m)%Z.
Proof.
  intros H. unfold round_half_even. cbv zeta.
  assert (Hf : (0 <= Qfloor m)%Z).
  { change 0%Z with (Qfloor (inject_Z 0)). now apply Qfloor_resp_le. }
  repeat destruct (Qlt_bool _ _); try destruct (Z.even _); lia.
Qed.

Lemma underflow_unit_small : 0 < underflow_unit /\ underflow_unit <= 1 # 100000000000000000000.
Proof.
  split.
  - apply Qpower_0_lt. reflexivity.
  - apply Qle_bool_iff. vm_compute. reflexivity.
Qed.

Lemma on_grid_0 : on_grid 0.
Proof. exists 0%Z. ring. Qed.

Lemma on_grid_1 : on_grid 1.
Proof.
  exists (2 ^ 1074)%Z. rewrite <- Qpower_2_Z by discriminate.
  rewrite <- Qpower_plus by discriminate. reflexivity.
Qed.

Lemma on_grid_plus (a b : Q) : on_grid a -> on_grid b -> on_grid (a + b).
Proof.
  intros [k Hk] [l Hl]. exists (k + l)%Z. rewrite inject_Z_plus, Hk, Hl. ring.
Qed.

Lemma on_grid_minus (a b : Q) : on_grid a -> on_grid b -> on_grid (a - b).
Proof.
  intros [k Hk] [l Hl]. exists (k - l)%Z.
  unfold Z.sub. rewrite inject_Z_plus, inject_Z_opp, Hk, Hl. ring.
Qed.

(** The rounding unit of a non-zero rational and what is left of it. *)
Lemma roundTiesToEven_unfold (q : Q) :
  ~ q == 0 ->
  let e := Z.max (binade q - 52) (-1074) in
  roundTiesToEven q = inject_Z (round_half_even (q / 2 ^ e)) * 2 ^ e
  /\ 0 < 2 ^ e
  /\ Qabs (roundTiesToEven q - q) <= 2 ^ e * (1 # 2).
Proof.
  intros Hq e. unfold roundTiesToEven.
  pose proof Hq as Hb. apply Qeq_bool_false in Hb. rewrite Hb. cbv zeta. fold e.
  assert (Hulp : 0 < 2 ^ e) by (apply Qpower_0_lt; reflexivity).
  split; [reflexivity |]. split; [exact Hulp |].
  pose proof (round_half_even_near (q / 2 ^ e)) as Hn.
  set (n := inject_Z (round_half_even (q / 2 ^ e))) in *.
  assert (Ed : n * 2 ^ e - q == (n - q / 2 ^ e) * 2 ^ e) by (field; lra).
  rewrite Ed, Qabs_Qmult, (Qabs_pos (2 ^ e)) by lra.
  rewrite (Qmult_comm (2 ^ e)). apply Qmult_le_compat_r; [exact Hn | lra].
Qed.

(** In the normal range half a rounding unit is within the unit roundoff
    of the value. *)
Lemma normal_half_ulp (q : Q) :
  ~ q == 0 -> 2 ^ (binade q - 52) * (1 # 2) <= unit_roundoff * Qabs q.
Proof.
  intros Hq. pose proof (binade_le q Hq) as H.
  assert (Eu : 2 ^ (binade q - 52) == 2 ^ binade q * (1 # 4503599627370496)).
  { unfold Z.sub. rewrite Qpower_plus by discriminate.
    apply Qmult_comp; reflexivity. }
  rewrite Eu. unfold unit_roundoff. lra.
Qed.

(** Rounding to binary64 is a rounding. *)
Lemma roundTiesToEven_rounding : rounding roundTiesToEven.
Proof.
  assert (Zero : roundTiesToEven 0 = 0) by reflexivity.
  assert (Hz : forall x, x == 0 -> roundTiesToEven x = 0).
  { intros x E. unfold roundTiesToEven. apply Qeq_bool_iff in E. now rewrite E. }
  repeat split.
  - (* results are on the grid *)
    intros x. destruct (Qeq_dec x 0) as [E | E].
    { rewrite (Hz x E). apply on_grid_0. }
    destruct (roundTiesToEven_unfold x E) as (-> & _ & _).
    set (e := Z.max (binade x - 52) (-1074)).
    exists (round_half_even (x / 2 ^ e) * 2 ^ (e + 1074))%Z.
    rewrite inject_Z_mult, <- Qpower_2_Z by lia.
    rewrite <- Qmult_assoc. apply Qmult_comp; [reflexivity |].
    rewrite <- Qpower_plus by discriminate.
    replace (e + 1074 + -1074)%Z with e by lia. reflexivity.
  - (* grid values *)
    intros x [k Hk]. destruct (Qeq_dec x 0) as [E | E].
    { rewrite (Hz x E), E. vm_compute. discriminate. }
    destruct (Z.max_spec (binade x - 52) (-1074)) as [[Hlt Hm] | [Hle Hm]].
    + (* below the normal range: the value is kept *)
      assert (Ex : roundTiesToEven x == x).
      { destruct (roundTiesToEven_unfold x E) as (-> & Hp & _). rewrite Hm in *.
        rewrite (round_half_even_integer _ k).
        - now rewrite Hk.
        - rewrite Hk. field. lra. }
      assert (E0 : roundTiesToEven x - x == 0) by (rewrite Ex; ring).
      rewrite E0. change (Qabs 0) with 0. pose proof (Qabs_nonneg x). unfold unit_roundoff. lra.
    + destruct (roundTiesToEven_unfold x E) as (_ & _ & H). rewrite Hm in H.
      eapply Qle_trans; [exact H | now apply normal_half_ulp].
  - (* every value *)
    intros x. destruct (Qeq_dec x 0) as [E | E].
    { rewrite (Hz x E), E. vm_compute. discriminate. }
    destruct (roundTiesToEven_unfold x E) as (_ & _ & H).
    destruct (Z.max_spec (binade x - 52) (-1074)) as [[Hlt Hm] | [Hle Hm]];
      rewrite Hm in H.
    + change (2 ^ (-1074) * (1 # 2)) with underflow_unit in H.
      pose proof (Qabs_nonneg x). unfold unit_roundoff.
      remember underflow_unit as eta. lra.
    + pose proof (normal_half_ulp x E) as Hn.
      destruct underflow_unit_small as [He _].
      remember underflow_unit as eta. lra.
  - (* the sign *)
    intros x Hx. destruct (Qeq_dec x 0) as [E | E].
    { rewrite (Hz x E). apply Qle_refl. }
    destruct (roundTiesToEven_unfold x E) as (-> & Hp & _).
    apply Qmult_le_0_compat; [| lra].
    change 0 with (inject_Z 0). rewrite <- Zle_Qle.
    apply round_half_even_nonneg. apply Qle_shift_div_l; [exact Hp | lra].
Qed.

(** A rounded value is a binary64 value where it is not too large: an
    integer of at most 53 bits times a power of two not below [2^-1074]. *)
Lemma roundTiesToEven_binary64 (q : Q) :
  exists (n e : Z),
    roundTiesToEven q == inject_Z n * 2 ^ e
    /\ (Z.abs n <= 9007199254740992)%Z /\ (-1074 <= e)%Z.
Proof.
  destruct (Qeq_dec q 0) as [E | Hq].
  { exists 0%Z, 0%Z. split; [| split; [discriminate | discriminate]].
    unfold roundTiesToEven. apply Qeq_bool_iff in E. rewrite E. reflexivity. }
  destruct (roundTiesToEven_unfold q Hq) as (-> & Hulp & _).
  set (e := Z.max (binade q - 52) (-1074)) in *.
  exists (round_half_even (q / 2 ^ e)), e.
  split; [reflexivity |]. split; [| unfold e; lia].
  assert (He : 2 ^ (binade q - 52) <= 2 ^ e).
  { apply Qpower_le_compat_l; [unfold e; lia | lra]. }
  assert (Eu' : 2 ^ (binade q + 1) == 2 ^ (binade q - 52) * 9007199254740992).
  { replace (binade q + 1)%Z with (binade q - 52 + 53)%Z by lia.
    rewrite Qpower_plus by discriminate. reflexivity. }
  pose proof (binade_lt q Hq) as Hhi. rewrite Eu' in Hhi.
  assert (Hm : Qabs (q / 2 ^ e) < 9007199254740992).
  { unfold Qdiv. rewrite Qabs_Qmult, (Qabs_pos (/ 2 ^ e))
      by (apply Qlt_le_weak, Qinv_lt_0_compat; exact Hulp).
    apply Qlt_shift_div_r; [exact Hulp |].
    remember (2 ^ e) as P eqn:EP. remember (2 ^ (binade q - 52)) as P0 eqn:EP0.
    clear EP EP0. lra. }
  pose proof (round_half_even_near (q / 2 ^ e)) as Hn.
  set (n := round_half_even (q / 2 ^ e)) in *.
  assert (Hd : Qabs (inject_Z n) - Qabs (q / 2 ^ e) <= 1 # 2).
  { eapply Qle_trans; [apply Qabs_triangle_reverse | exact Hn]. }
  assert (Ea : Qabs (inject_Z n) = inject_Z (Z.abs n)) by (destruct n; reflexivity).
  rewrite Ea in Hd.
  remember (Qabs (q / 2 ^ e)) as m eqn:Em. clear Em.
  assert (H : inject_Z (Z.abs n) < inject_Z 9007199254740993).
  { change (inject_Z 9007199254740993) with 9007199254740993.
    remember (inject_Z (Z.abs n)) as k eqn:Ek. clear Ek. lra. }
  rewrite <- Zlt_Qlt in H. lia.
Qed.

(** Without rounding the two computations are the exact ones. *)
Lemma unrounded_weights (point : option (list Q)) (vertices : option (list (list Q))) :
  Rounded.calculateBarycentricCoordinates (fun x => x) point vertices
  = calculateBarycentricCoordinates point vertices.
Proof.
  unfold Rounded.calculateBarycentricCoordinates, calculateBarycentricCoordinates.
  destruct point as [point |]; [| reflexivity].
  destruct vertices as [[| v1 [| v2 [| v3 [| v4 vs]]]] |]; reflexivity.
Qed.

Lemma unrounded_weights3D (point : Vector3) (vertices : list Vector3) :
  Rounded.calculateBarycentricCoordinates3D (fun x => x) point vertices
  = calculateBarycentricCoordinates3D point vertices.
Proof.
  unfold Rounded.calculateBarycentricCoordinates3D, calculateBarycentricCoordinates3D,
    Rounded.ndiv, ndiv, Rounded.totalVolume, totalVolume,
    Rounded.volume0, Rounded.volume1, Rounded.volume2, Rounded.volume3,
    volume0, volume1, volume2, volume3,
    Rounded.dot, dot, Rounded.crossVectors, crossVectors,
    Rounded.subVectors, subVectors.
  destruct vertices as [| a [| b [| c [| d [| e vs]]]]]; reflexivity.
Qed.

Section Rounding.

Variable rnd : Q -> Q.
Hypothesis rnd_rounding : rounding rnd.

Lemma rnd_on_grid (x : Q) : on_grid (rnd x).
Proof. apply rnd_rounding. Qed.

Lemma rnd_grid_near (x M : Q) :
  on_grid x -> Qabs x <= M ->
  x - unit_roundoff * M <= rnd x <= x + unit_roundoff * M.
Proof.
  intros Hg HM. destruct rnd_rounding as (_ & H & _). specialize (H x Hg).
  apply Qabs_Qle_condition in H. unfold unit_roundoff in *. split; lra.
Qed.

Lemma rnd_grid_nonneg (x : Q) :
  on_grid x -> 0 <= x ->
  (1 - unit_roundoff) * x <= rnd x <= (1 + unit_roundoff) * x.
Proof.
  intros Hg Hx. destruct rnd_rounding as (_ & H & _). specialize (H x Hg).
  rewrite (Qabs_pos x) in H by exact Hx.
  apply Qabs_Qle_condition in H. unfold unit_roundoff in *. split; lra.
Qed.

Lemma rnd_nonneg (x : Q) :
  0 <= x ->
  0 <= rnd x
  /\ (1 - unit_roundoff) * x - (1 # 100000000000000000000) <= rnd x
  /\ rnd x <= (1 + unit_roundoff) * x + (1 # 100000000000000000000).
Proof.
  intros Hx. destruct rnd_rounding as (_ & _ & H & Hs). specialize (H x).
  rewrite (Qabs_pos x) in H by exact Hx.
  apply Qabs_Qle_condition in H. destruct underflow_unit_small as [E0 E1].
  remember underflow_unit as eta. unfold unit_roundoff in *.
  split; [now apply Hs | split; lra].
Qed.

(** ** The sum of the weights under rounding *)

(** The weights of a triangle are the literals of the default, or two
    rounded quotients and [1 - w1 - w2], rounded twice. *)
Lemma rounded_weights_shape (point : option (list Q)) (vertices : option (list (list Q)))
    (w1 w2 w3 : Q) :
  Rounded.calculateBarycentricCoordinates rnd point vertices = [Fin w1; Fin w2; Fin w3] ->
  (w1 = rnd 0.33 /\ w2 = rnd 0.33 /\ w3 = rnd 0.34)
  \/ (on_grid w1 /\ on_grid w2 /\ w3 = rnd (rnd (1 - w1) - w2)).
Proof.
  unfold Rounded.calculateBarycentricCoordinates, Rounded.default_weights.
  destruct point as [point |]; [| intros [= <- <- <-]; now left].
  destruct vertices as [[| v1 [| v2 [| v3 [| v4 vs]]]] |];
    try (intros [= <- <- <-]; now left).
  cbv zeta. destruct (nlt _ _); [intros [= <- <- <-]; now left |].
  intros [= E1 E2 E3]. right.
  assert (G : forall a b w, Rounded.ndiv rnd a b = Fin w -> on_grid w).
  { intros [p |] [q |] w; cbn; try discriminate.
    destruct (Qeq_bool q 0); [discriminate |]. intros [= <-]. apply rnd_on_grid. }
  split; [exact (G _ _ _ E1) |]. split; [exact (G _ _ _ E2) |].
  rewrite E1, E2 in E3. cbn in E3. now injection E3 as <-.
Qed.

Lemma default_weights_sum :
  Qabs (0 + rnd 0.33 + rnd 0.33 + rnd 0.34 - 1) <= 0.000001
  /\ Qabs (rnd (rnd (rnd (0 + rnd 0.33) + rnd 0.33) + rnd 0.34) - 1) <= 0.000001.
Proof.
  destruct (rnd_nonneg 0.33 ltac:(lra)) as (A0 & A1 & A2).
  destruct (rnd_nonneg 0.34 ltac:(lra)) as (B0 & B1 & B2).
  pose proof (rnd_on_grid 0.33) as Ga. pose proof (rnd_on_grid 0.34) as Gb.
  unfold unit_roundoff in *.
  assert (G0 : on_grid (0 + rnd 0.33)) by (apply on_grid_plus; [apply on_grid_0 | exact Ga]).
  destruct (rnd_grid_nonneg _ G0 ltac:(lra)) as [C1 C2].
  unfold unit_roundoff in *.
  assert (G1 : on_grid (rnd (0 + rnd 0.33) + rnd 0.33))
    by (apply on_grid_plus; [apply rnd_on_grid | exact Ga]).
  destruct (rnd_grid_nonneg _ G1 ltac:(lra)) as [D1 D2].
  unfold unit_roundoff in *.
  assert (G2 : on_grid (rnd (rnd (0 + rnd 0.33) + rnd 0.33) + rnd 0.34))
    by (apply on_grid_plus; [apply rnd_on_grid | exact Gb]).
  destruct (rnd_grid_nonneg _ G2 ltac:(lra)) as [E1 E2].
  unfold unit_roundoff in *.
  split; apply Qabs_Qle_condition; split; lra.
Qed.

Lemma computed_weights_sum (w1 w2 : Q) :
  on_grid w1 -> on_grid w2 ->
  Qabs w1 <= 100000000 -> Qabs w2 <= 100000000 ->
  let w3 := rnd (rnd (1 - w1) - w2) in
  Qabs (0 + w1 + w2 + w3 - 1) <= 0.000001
  /\ Qabs (rnd (rnd (rnd (0 + w1) + w2) + w3) - 1) <= 0.000001.
Proof.
  intros G1 G2 H1 H2 w3. subst w3.
  apply Qabs_Qle_condition in H1. apply Qabs_Qle_condition in H2.
  assert (Ga : on_grid (1 - w1)) by (apply on_grid_minus; [apply on_grid_1 | exact G1]).
  assert (Ba : Qabs (1 - w1) <= 400000000) by (apply Qabs_Qle_condition; split; lra).
  destruct (rnd_grid_near _ _ Ga Ba) as [A1 A2].
  unfold unit_roundoff in *.
  assert (Gb : on_grid (rnd (1 - w1) - w2))
    by (apply on_grid_minus; [apply rnd_on_grid | exact G2]).
  assert (Bb : Qabs (rnd (1 - w1) - w2) <= 400000000)
    by (apply Qabs_Qle_condition; split; lra).
  destruct (rnd_grid_near _ _ Gb Bb) as [B1 B2].
  unfold unit_roundoff in *.
  assert (Gc : on_grid (0 + w1)) by (apply on_grid_plus; [apply on_grid_0 | exact G1]).
  assert (Bc : Qabs (0 + w1) <= 400000000) by (apply Qabs_Qle_condition; split; lra).
  destruct (rnd_grid_near _ _ Gc Bc) as [C1 C2].
  unfold unit_roundoff in *.
  assert (Gd : on_grid (rnd (0 + w1) + w2))
    by (apply on_grid_plus; [apply rnd_on_grid | exact G2]).
  assert (Bd : Qabs (rnd (0 + w1) + w2) <= 400000000)
    by (apply Qabs_Qle_condition; split; lra).
  destruct (rnd_grid_near _ _ Gd Bd) as [D1 D2].
  unfold unit_roundoff in *.
  assert (Ge : on_grid (rnd (rnd (0 + w1) + w2) + rnd (rnd (1 - w1) - w2)))
    by (apply on_grid_plus; apply rnd_on_grid).
  assert (Be : Qabs (rnd (rnd (0 + w1) + w2) + rnd (rnd (1 - w1) - w2)) <= 400000000)
    by (apply Qabs_Qle_condition; split; lra).
  destruct (rnd_grid_near _ _ Ge Be) as [E1 E2].
  unfold unit_roundoff in *.
  split; apply Qabs_Qle_condition; split; lra.
Qed.

Lemma volume_nonneg (t : Q) : 0 <= rnd (Qabs t / 6).
Proof.
  assert (H : 0 <= Qabs t / 6).
  { rewrite Qdiv_six. pose proof (Qabs_nonneg t). lra. }
  now destruct (rnd_nonneg _ H).
Qed.

(** Four non-negative binary64 values divided by their rounded sum. *)
Lemma normalised_sum (v0 v1 v2 v3 : Q) :
  on_grid v0 -> on_grid v1 -> on_grid v2 -> on_grid v3 ->
  0 <= v0 -> 0 <= v1 -> 0 <= v2 -> 0 <= v3 ->
  let T := rnd (rnd (rnd (v0 + v1) + v2) + v3) in
  ~ T == 0 ->
  let q0 := rnd (v0 / T) in
  let q1 := rnd (v1 / T) in
  let q2 := rnd (v2 / T) in
  let q3 := rnd (v3 / T) in
  Qabs (0 + q0 + q1 + q2 + q3 - 1) <= 0.000001
  /\ Qabs (rnd (rnd (rnd (rnd (0 + q0) + q1) + q2) + q3) - 1) <= 0.000001.
Proof.
  intros G0 G1 G2 G3 H0 H1 H2 H3 T HT q0 q1 q2 q3.
  assert (Ga : on_grid (v0 + v1)) by now apply on_grid_plus.
  destruct (rnd_grid_nonneg _ Ga ltac:(lra)) as [A1 A2].
  unfold unit_roundoff in *.
  assert (Gb : on_grid (rnd (v0 + v1) + v2))
    by (apply on_grid_plus; [apply rnd_on_grid | exact G2]).
  destruct (rnd_grid_nonneg _ Gb ltac:(lra)) as [B1 B2].
  unfold unit_roundoff in *.
  assert (Gc : on_grid (rnd (rnd (v0 + v1) + v2) + v3))
    by (apply on_grid_plus; [apply rnd_on_grid | exact G3]).
  destruct (rnd_grid_nonneg _ Gc ltac:(lra)) as [C1 C2].
  unfold unit_roundoff in *. fold T in C1, C2.
  assert (Tpos : 0 < T) by (destruct (Qlt_le_dec 0 T); [assumption | exfalso; apply HT; lra]).
  set (S := v0 + v1 + v2 + v3).
  assert (TS : 0.9999999 * S <= T /\ T <= 1.0000001 * S) by (unfold S; split; lra).
  assert (R : forall v, 0 <= v -> 0 <= v / T).
  { intros v Hv. apply Qle_shift_div_l; [exact Tpos | lra]. }
  assert (Esum : v0 / T + v1 / T + v2 / T + v3 / T == S / T) by (unfold S; field; lra).
  assert (Spos : 0 < S) by lra.
  assert (Rlo : 0.9999998 <= S / T).
  { apply Qle_shift_div_l; [exact Tpos | lra]. }
  assert (Rhi : S / T <= 1.0000002).
  { apply Qle_shift_div_r; [exact Tpos | lra]. }
  destruct (rnd_nonneg _ (R v0 H0)) as (N0 & P0 & Q0).
  destruct (rnd_nonneg _ (R v1 H1)) as (N1 & P1 & Q1).
  destruct (rnd_nonneg _ (R v2 H2)) as (N2 & P2 & Q2).
  destruct (rnd_nonneg _ (R v3 H3)) as (N3 & P3 & Q3).
  fold q0 in N0, P0, Q0. fold q1 in N1, P1, Q1.
  fold q2 in N2, P2, Q2. fold q3 in N3, P3, Q3.
  unfold unit_roundoff in *.
  pose proof (R v0 H0) as R0. pose proof (R v1 H1) as R1.
  pose proof (R v2 H2) as R2. pose proof (R v3 H3) as R3.
  assert (Gs0 : on_grid (0 + q0)) by (apply on_grid_plus; [apply on_grid_0 | apply rnd_on_grid]).
  destruct (rnd_grid_nonneg _ Gs0 ltac:(lra)) as [D1 D2].
  unfold unit_roundoff in *.
  assert (Gs1 : on_grid (rnd (0 + q0) + q1)) by (apply on_grid_plus; apply rnd_on_grid).
  destruct (rnd_grid_nonneg _ Gs1 ltac:(lra)) as [E1 E2].
  unfold unit_roundoff in *.
  assert (Gs2 : on_grid (rnd (rnd (0 + q0) + q1) + q2))
    by (apply on_grid_plus; apply rnd_on_grid).
  destruct (rnd_grid_nonneg _ Gs2 ltac:(lra)) as [F1 F2].
  unfold unit_roundoff in *.
  assert (Gs3 : on_grid (rnd (rnd (rnd (0 + q0) + q1) + q2) + q3))
    by (apply on_grid_plus; apply rnd_on_grid).
  destruct (rnd_grid_nonneg _ Gs3 ltac:(lra)) as [K1 K2].
  unfold unit_roundoff in *.
  split; apply Qabs_Qle_condition; split; lra.
Qed.

(** On two-coordinate arrays the rounded computation returns three finite
    weights: the division is reached only with a denominator that passed
    the degeneracy test, so it is not zero. *)
Lemma rounded_weights_finite (px py x1 y1 x2 y2 x3 y3 : Q) :
  exists w1 w2 w3 : Q,
    Rounded.calculateBarycentricCoordinates rnd
      (Some [px; py]) (Some [[x1; y1]; [x2; y2]; [x3; y3]])
    = [Fin w1; Fin w2; Fin w3].
Proof.
  unfold Rounded.calculateBarycentricCoordinates, Rounded.default_weights.
  cbn [idx lookup list_lookup Rounded.nadd Rounded.nsub Rounded.nmul nabs lift1 lift2].
  cbv zeta.
  set (den := rnd (rnd (rnd (y2 - y3) * rnd (x1 - x3))
                   + rnd (rnd (x3 - x2) * rnd (y1 - y3)))).
  destruct (nlt (Fin (Qabs den)) (Fin (rnd 0.0001))) eqn:E; [eauto |].
  cbn in E. apply Qlt_bool_false in E.
  destruct (rnd_nonneg 0.0001 ltac:(lra)) as (_ & L & _).
  unfold unit_roundoff in L.
  assert (Hden : ~ den == 0).
  { intros H. rewrite H in E. change (Qabs 0) with 0 in E. lra. }
  apply Qeq_bool_false in Hden.
  unfold Rounded.ndiv. rewrite Hden. eauto.
Qed.

End Rounding.

(** C4: with every operation rounded to binary64, the three weights of a
    triangle (degenerate or not) are finite and sum to 1 within 1e-6, taken
    exactly or as [reduce] adds them, whenever the computed [w1] and [w2]
    do not exceed 1e8 in magnitude; the four weights of a tetrahedron sum
    to 1 within 1e-6 whenever its computed sub-volumes do not sum to
    zero. *)
Theorem weights_sum_to_one_up_to_rounding (rnd : Q -> Q) :
  rounding rnd ->
  (forall px py x1 y1 x2 y2 x3 y3 : Q,
      exists w1 w2 w3 : Q,
        Rounded.calculateBarycentricCoordinates rnd
          (Some [px; py]) (Some [[x1; y1]; [x2; y2]; [x3; y3]])
        = [Fin w1; Fin w2; Fin w3]
        /\ (Qabs w1 <= 100000000 -> Qabs w2 <= 100000000 ->
            sums_to_one [Fin w1; Fin w2; Fin w3]
            /\ rounded_sum_is_one rnd [Fin w1; Fin w2; Fin w3]))
  /\ (forall p a b c d : Vector3,
         ~ Rounded.totalVolume rnd p a b c d == 0 ->
         sums_to_one (Rounded.calculateBarycentricCoordinates3D rnd p [a; b; c; d])
         /\ rounded_sum_is_one rnd
              (Rounded.calculateBarycentricCoordinates3D rnd p [a; b; c; d])).
Proof.
  intros Hrnd. split.
  - intros px py x1 y1 x2 y2 x3 y3.
    destruct (rounded_weights_finite rnd Hrnd px py x1 y1 x2 y2 x3 y3)
      as (w1 & w2 & w3 & E).
    exists w1, w2, w3. split; [exact E |]. intros B1 B2.
    unfold sums_to_one, rounded_sum_is_one.
    cbn [sum_weights Rounded.sum_weights fold_left nadd Rounded.nadd lift2].
    destruct (rounded_weights_shape rnd Hrnd _ _ _ _ _ E)
      as [(-> & -> & ->) | (G1 & G2 & ->)].
    + exact (default_weights_sum rnd Hrnd).
    + exact (computed_weights_sum rnd Hrnd w1 w2 G1 G2 B1 B2).
  - intros p a b c d HT.
    unfold Rounded.calculateBarycentricCoordinates3D, Rounded.ndiv.
    apply Qeq_bool_false in HT. rewrite HT. apply Qeq_bool_false in HT.
    unfold sums_to_one, rounded_sum_is_one.
    cbn [sum_weights Rounded.sum_weights fold_left nadd Rounded.nadd lift2].
    unfold Rounded.totalVolume in *.
    apply (normalised_sum rnd Hrnd); try exact HT;
      first [apply (rnd_on_grid rnd Hrnd) | apply (volume_nonneg rnd Hrnd)].
Qed.

Lemma weights_sum_to_one_up_to_rounding_witness :
  (exists w1 w2 w3 : Q,
      Rounded.calculateBarycentricCoordinates roundTiesToEven
        (Some [5; 7.5]) (Some [[0; 0]; [1; 0]; [0; 1]])
      = [Fin w1; Fin w2; Fin w3]
      /\ Qabs w1 <= 100000000 /\ Qabs w2 <= 100000000
      /\ sums_to_one [Fin w1; Fin w2; Fin w3]
      /\ rounded_sum_is_one roundTiesToEven [Fin w1; Fin w2; Fin w3])
  /\ (~ Rounded.totalVolume roundTiesToEven (mkVector3 2 2 2) (mkVector3 0 0 0)
          (mkVector3 1 0 0) (mkVector3 0 1 0) (mkVector3 0 0 1) == 0
      /\ sums_to_one
           (Rounded.calculateBarycentricCoordinates3D roundTiesToEven (mkVector3 2 2 2)
              [mkVector3 0 0 0; mkVector3 1 0 0; mkVector3 0 1 0; mkVector3 0 0 1])
      /\ rounded_sum_is_one roundTiesToEven
           (Rounded.calculateBarycentricCoordinates3D roundTiesToEven (mkVector3 2 2 2)
              [mkVector3 0 0 0; mkVector3 1 0 0; mkVector3 0 1 0; mkVector3 0 0 1])).
Proof.
  destruct (weights_sum_to_one_up_to_rounding roundTiesToEven roundTiesToEven_rounding)
    as [H2 H3].
  split.
  - destruct (H2 5 7.5 0 0 1 0 0 1) as (w1 & w2 & w3 & E & H).
    exists w1, w2, w3. split; [exact E |].
    vm_compute in E. injection E as <- <- <-.
    split; [vm_compute; discriminate |]. split; [vm_compute; discriminate |].
    apply H; vm_compute; discriminate.
  - assert (HT : ~ Rounded.totalVolume roundTiesToEven (mkVector3 2 2 2) (mkVector3 0 0 0)
                     (mkVector3 1 0 0) (mkVector3 0 1 0) (mkVector3 0 0 1) == 0)
      by (intros HT; vm_compute in HT; discriminate).
    split; [exact HT |]. exact (H3 _ _ _ _ _ HT).
Defined.

(** C4, as stated, fails: for the unit triangle, which is not degenerate,
    and the query point (1e17, 0.5) the weights computed in binary64 are
    [-1e17, 1e17, 0]; they sum to 0. *)
Lemma far_point_weights_sum_to_zero :
  ~ degenerate 0 0 1 0 0 1
  /\ Rounded.calculateBarycentricCoordinates roundTiesToEven
       (Some [100000000000000000; 0.5]) (Some [[0; 0]; [1; 0]; [0; 1]])
     = [Fin (-100000000000000000); Fin 100000000000000000; Fin 0]
  /\ Rounded.sum_weights roundTiesToEven
       [Fin (-100000000000000000); Fin 100000000000000000; Fin 0] = Fin 0
  /\ ~ sums_to_one [Fin (-100000000000000000); Fin 100000000000000000; Fin 0]
  /\ ~ rounded_sum_is_one roundTiesToEven
         [Fin (-100000000000000000); Fin 100000000000000000; Fin 0].
Proof.
  split; [intros H; vm_compute in H; discriminate |].
  split; [vm_compute; reflexivity |].
  split; [vm_compute; reflexivity |].
  split; intros H; vm_compute in H; apply H; reflexivity.
Qed.



(** C2, as stated, fails: the triangle (0,0), (1,1), (2,2) is degenerate and
    the weights returned for it are not 1/3 each; the tetrahedron with the
    coplanar vertices (0,0,0), (1,0,0), (0,1,0), (2,2,0) has volume zero and
    the weights returned at (0,0,1) are not 1/4 each. *)
Lemma degenerate_fallback_is_not_equal_weights :
  (degenerate 0 0 1 1 2 2
   /\ ~ weights_eq (calculateBarycentricCoordinates
                      (Some [0; 0]) (Some [[0; 0]; [1; 1]; [2; 2]]))
                   [Fin (1 / 3); Fin (1 / 3); Fin (1 / 3)])
  /\ (tetra_volume (mkVector3 0 0 0) (mkVector3 1 0 0) (mkVector3 0 1 0) (mkVector3 2 2 0) == 0
      /\ ~ weights_eq (calculateBarycentricCoordinates3D
                         (mkVector3 0 0 1)
                         [mkVector3 0 0 0; mkVector3 1 0 0; mkVector3 0 1 0; mkVector3 2 2 0])
                      [Fin (1 / 4); Fin (1 / 4); Fin (1 / 4); Fin (1 / 4)]).
Proof.
  split; (split; [reflexivity |]).
  - intros H. apply Forall2_cons_1 in H as [H _]. vm_compute in H. discriminate.
  - intros H. apply Forall2_cons_1 in H as [H _]. vm_compute in H. discriminate.
Qed.

(** C2, amended: for a degenerate triangle ([|denominator| < 0.0001]) and
    any query point the code returns, without raising, the fixed weights
    [0.33, 0.33, 0.34]; the tetrahedron computation has no degenerate case:
    it divides the four sub-volumes by their sum, which gives four [NaN]
    when that sum is zero. *)
Theorem degenerate_simplex_weights :
  (forall (p : list Q) (x1 y1 x2 y2 x3 y3 : Q),
      degenerate x1 y1 x2 y2 x3 y3 ->
      calculateBarycentricCoordinates (Some p) (Some [[x1; y1]; [x2; y2]; [x3; y3]])
      = [Fin 0.33; Fin 0.33; Fin 0.34])
  /\ (forall p a b c d : Vector3,
         (totalVolume p a b c d == 0 ->
          calculateBarycentricCoordinates3D p [a; b; c; d] = [NaN; NaN; NaN; NaN])
         /\ (~ totalVolume p a b c d == 0 ->
             calculateBarycentricCoordinates3D p [a; b; c; d]
             = [ Fin (volume0 p a b c d / totalVolume p a b c d);
                 Fin (volume1 p a b c d / totalVolume p a b c d);
                 Fin (volume2 p a b c d / totalVolume p a b c d);
                 Fin (volume3 p a b c d / totalVolume p a b c d) ])).
Proof.
  split.
  - intros. now apply bary_degenerate.
  - intros p a b c d. split.
    + intros H. unfold calculateBarycentricCoordinates3D.
      now rewrite !ndiv_zero by exact H.
    + apply bary3D_regular.
Qed.

Lemma degenerate_simplex_weights_witness :
  (degenerate 0 0 1 1 2 2
   /\ calculateBarycentricCoordinates (Some [7; -3]) (Some [[0; 0]; [1; 1]; [2; 2]])
      = [Fin 0.33; Fin 0.33; Fin 0.34])
  /\ (totalVolume (mkVector3 2 2 0) (mkVector3 0 0 0) (mkVector3 1 0 0)
                  (mkVector3 0 1 0) (mkVector3 1 1 0) == 0
      /\ calculateBarycentricCoordinates3D
           (mkVector3 2 2 0)
           [mkVector3 0 0 0; mkVector3 1 0 0; mkVector3 0 1 0; mkVector3 1 1 0]
         = [NaN; NaN; NaN; NaN]).
Proof.
  split.
  - assert (H : degenerate 0 0 1 1 2 2) by reflexivity.
    split; [exact H |].
    exact (proj1 degenerate_simplex_weights [7; -3] 0 0 1 1 2 2 H).
  - assert (H : totalVolume (mkVector3 2 2 0) (mkVector3 0 0 0) (mkVector3 1 0 0)
                            (mkVector3 0 1 0) (mkVector3 1 1 0) == 0) by reflexivity.
    split; [exact H |].
    exact (proj1 (proj2 degenerate_simplex_weights (mkVector3 2 2 0) _ _ _ _) H).
Defined.

(** ** The classifier *)

(** Decide the comparisons of a goal by linear arithmetic. *)
Ltac qdecide :=
  repeat match goal with
  | |- context [Qlt_bool ?a ?b] =>
      first [ rewrite (proj2 (Qlt_bool_true a b)) by lra
            | rewrite (proj2 (Qlt_bool_false a b)) by lra ]
  | |- context [Qle_bool ?a ?b] =>
      first [ rewrite (proj2 (Qle_bool_iff a b)) by lra
            | rewrite (proj2 (Qle_bool_false a b)) by lra ]
  | |- context [Qeq_bool ?a ?b] =>
      first [ rewrite (proj2 (Qeq_bool_iff a b)) by lra
            | rewrite (proj2 (Qeq_bool_false a b)) by lra ]
  end.

Ltac qstep :=
  cbn -[Qlt_bool Qle_bool Qeq_bool Qminus Qplus Qdiv Qabs str_idx join String.append];
  qdecide.

(** C3, as stated, fails: on the weights [0.45, 0.45, 0.1] the classifier
    answers [complex_weighted_combination], since the third weight 0.1 is
    not below [LOW]. *)
Lemma classify_045_045_01_is_complex :
  so_type <$> interpretAsSetOperations sample_triangle [Fin 0.45; Fin 0.45; Fin 0.1]
  = Return "complex_weighted_combination"
  /\ so_type <$> interpretAsSetOperations sample_triangle [Fin 0.45; Fin 0.45; Fin 0.1]
     <> Return "paired_intersection".
Proof.
  split; [reflexivity | discriminate].
Qed.

(** C3, amended: on the weights [0.45, 0.45, w] the classifier answers
    [paired_intersection], naming the first two vertices, for every third
    weight [w] strictly below [LOW = 0.1]; on [0.45, 0.45, 0.1] it answers
    [complex_weighted_combination]. *)
Theorem classify_paired_intersection (this : SemanticTriangle) (w : Q) :
  let titles := map (fun doc => str_or (doc_title doc) (doc_id doc)) (vertices this) in
  (w < 0.1 ->
   interpretAsSetOperations this [Fin 0.45; Fin 0.45; Fin w]
   = Return {|
       so_type := "paired_intersection";
       so_description :=
         "Intersection of " +:+ str_idx titles 0 +:+ " and " +:+ str_idx titles 1;
       so_conceptual :=
         "This point represents concepts shared between two documents with little influence from the third."
     |})
  /\ (w == 0.1 ->
      so_type <$> interpretAsSetOperations this [Fin 0.45; Fin 0.45; Fin w]
      = Return "complex_weighted_combination").
Proof.
  intros titles. subst titles. split; intros H.
  - unfold interpretAsSetOperations. repeat qstep. reflexivity.
  - unfold interpretAsSetOperations. repeat qstep. reflexivity.
Qed.

Lemma classify_paired_intersection_witness :
  (0.09 < 0.1
   /\ interpretAsSetOperations sample_triangle [Fin 0.45; Fin 0.45; Fin 0.09]
      = Return {|
          so_type := "paired_intersection";
          so_description := "Intersection of Alpha and Beta";
          so_conceptual :=
            "This point represents concepts shared between two documents with little influence from the third."
        |})
  /\ (0.1 == 0.1
      /\ so_type <$> interpretAsSetOperations sample_triangle [Fin 0.45; Fin 0.45; Fin 0.1]
         = Return "complex_weighted_combination").
Proof.
  split.
  - assert (H : 0.09 < 0.1) by reflexivity.
    split; [exact H |].
    exact (proj1 (classify_paired_intersection sample_triangle 0.09) H).
  - assert (H : 0.1 == 0.1) by reflexivity.
    split; [exact H |].
    exact (proj2 (classify_paired_intersection sample_triangle 0.1) H).
Defined.

(** ** Totality *)

Lemma insert_sorted_length {A : Type} (cmp : A -> A -> num) (x : A) (l : list A) :
  length (insert_sorted cmp x l) = S (length l).
Proof.
  induction l as [| y l IH]; [reflexivity |].
  cbn [insert_sorted]. destruct (ngt (cmp x y) (Fin 0)); cbn [length];
    [f_equal; exact IH | reflexivity].
Qed.

Lemma sort_by_length {A : Type} (cmp : A -> A -> num) (l : list A) :
  length (sort_by cmp l) = length l.
Proof.
  induction l as [| x l IH]; [reflexivity |].
  cbn [sort_by foldr]. fold (sort_by cmp l).
  rewrite insert_sorted_length. cbn [length]. f_equal. exact IH.
Qed.

(** On three weights the classifier always answers. *)
Lemma interpretAsSetOperations_returns (this : SemanticTriangle) (ws : list num) :
  length ws = 3%nat -> exists r, interpretAsSetOperations this ws = Return r.
Proof.
  intros Hlen. unfold interpretAsSetOperations.
  destruct (forallb _ ws && _); [eauto |].
  destruct (match indexOf ws (Math_max ws) with Some _ => _ | None => _ end).
  { destruct (omap _ _); eauto. }
  match goal with
  | |- context [sort_by ?c ?l] =>
      pose proof (sort_by_length c l) as Hs; destruct (sort_by c l) as [| s0 [| s1 [| s2 rest]]]
  end.
  all: rewrite length_imap, Hlen in Hs; try discriminate Hs.
  destruct (nge s0.1 MEDIUM), (nge s1.1 MEDIUM), (nlt s2.1 LOW); eauto.
Qed.

Lemma try_catch_returns {A : Type} (body : outcome A) (f : string -> A) :
  exists a, try_catch body (fun e => Return (f e)) = Return a.
Proof. destruct body; simpl; eauto. Qed.

Lemma getInteriorPointSemantics_returns (sqrt : Q -> Q) (this : SemanticTriangle)
    (weights : option (list num)) :
  exists s, getInteriorPointSemantics sqrt this weights = Return s.
Proof. unfold getInteriorPointSemantics. apply try_catch_returns. Qed.

Lemma calculateBarycentricCoordinates_length (point : option (list Q))
    (vs : option (list (list Q))) :
  length (calculateBarycentricCoordinates point vs) = 3%nat.
Proof.
  unfold calculateBarycentricCoordinates.
  repeat case_match; reflexivity.
Qed.

(** C10: [analyzePoint] is total: for every point (null included) and every
    tessellation state it returns, without throwing, either null or an
    analysis whose [weights] array has exactly three entries. *)
Theorem analyzePoint_total (sqrt : Q -> Q) (this : SemanticTessellation)
    (point : option (list Q)) :
  exists r : option AnalysisResult,
    analyzePoint sqrt this point = Return r
    /\ match r with
       | Some a => length (a_weights a) = 3%nat
       | None => True
       end.
Proof.
  unfold analyzePoint.
  destruct point as [p |]; [| now exists None].
  destruct (initialized this); cbn [negb]; [| now exists None].
  destruct (findContainingTriangle this (Some p)) as [[triangle |] | e];
    cbn [mbind outcome_bind try_catch]; try (now exists None).
  destruct (vertex_coordinates this triangle) as [vs | e];
    cbn [mbind outcome_bind try_catch]; try (now exists None).
  destruct (length vs =? 3)%nat; cbn [negb mbind outcome_bind try_catch];
    try (now exists None).
  rewrite calculateBarycentricCoordinates_length. cbn [Nat.eqb negb].
  destruct (getInteriorPointSemantics_returns sqrt triangle
              (Some (calculateBarycentricCoordinates (Some p) (Some vs)))) as [s ->].
  cbn [mbind outcome_bind try_catch]. eexists. split; [reflexivity |].
  cbn [a_weights]. apply calculateBarycentricCoordinates_length.
Qed.

(** ** Building the triangulation *)

Section Build.
Variable contentEmbedding : string -> list Q.
Variable Delaunay_from : list (list Q) -> outcome Delaunay.

(** No setter touches the set of properties: [reason] is never one. *)
Lemma reason_is_undefined (this : SemanticTessellation) :
  get_property this "reason" = PUndefined.
Proof. reflexivity. Qed.

Lemma build_returns (this : SemanticTessellation) :
  exists T, buildTriangulation contentEmbedding Delaunay_from this = Return T.
Proof.
  unfold buildTriangulation.
  repeat case_match; eauto.
Qed.

Lemma build_too_few (this T : SemanticTessellation) :
  buildTriangulation contentEmbedding Delaunay_from this = Return T ->
  (length (validDocuments this) < 3)%nat ->
  initialized T = false.
Proof.
  unfold buildTriangulation, validDocuments.
  destruct (documents this) as [docs |]; [| intros [= <-]; reflexivity].
  destruct (coordinates this) as [coords |]; [| intros [= <-]; reflexivity].
  destruct (length docs <? 3)%nat; [intros [= <-]; reflexivity |].
  destruct (length (omap (valid_document coords) docs) <? 3)%nat eqn:E.
  - intros [= <-]. reflexivity.
  - apply Nat.ltb_ge in E. intros _ Hlt. lia.
Qed.

(** A tessellation built on the manual path holds no Delaunay object, and
    [findContainingTriangle] finds nothing in it. *)
Lemma build_manual_finds_nothing (docs : option (list (option Document)))
    (coords : option (gmap string (list Q))) (T : SemanticTessellation)
    (point : option (list Q)) :
  buildTriangulation contentEmbedding Delaunay_from
  (new_SemanticTessellation docs coords) = Return T ->
  useManualTriangulation T = true ->
  findContainingTriangle T point = Return None.
Proof.
  unfold buildTriangulation.
  cbn [documents coordinates new_SemanticTessellation].
  destruct docs as [ds |]; [| intros [= <-]; discriminate].
  destruct coords as [cs |]; [| intros [= <-]; discriminate].
  destruct (length ds <? 3)%nat; [intros [= <-]; discriminate |].
  destruct (length (omap (valid_document cs) ds) <? 3)%nat; [intros [= <-]; discriminate |].
  destruct (collect_points cs (omap (valid_document cs) ds) [] []) as [points m].
  destruct (length points <? 3)%nat; [intros [= <-]; discriminate |].
  cbn [useManualTriangulation set_useManualTriangulation set_pointToDocumentMap
       set_documents].
  destruct (length (omap (valid_document cs) ds) <=? 3)%nat.
  - destruct (new_SemanticTriangle _ _ _ _) as [t | e]; intros [= <-] _.
    + unfold findContainingTriangle.
      cbn [initialized useManualTriangulation triangles delaunay set_initialized
           set_triangles set_useManualTriangulation set_pointToDocumentMap
           set_documents length Nat.ltb Nat.leb negb lookup list_lookup].
      destruct (vertex_coordinates _ t) as [vs | e] eqn:Ev.
      * cbn [mbind outcome_bind]. destruct (length vs =? 3)%nat; reflexivity.
      * exfalso. unfold vertex_coordinates in Ev.
        cbn [coordinates set_initialized set_triangles set_useManualTriangulation
             set_pointToDocumentMap set_documents] in Ev.
        destruct (vertices t); discriminate.
    + reflexivity.
  - destruct (Delaunay_from points) as [d | e].
    + destruct (push_triangles _ _ _) as [ts [u | e]]; intros [= <-]; discriminate.
    + intros [= <-]; discriminate.
Qed.

End Build.

(** C1: the tessellation built from the three sample documents at (0,0),
    (1,0), (0,1) is initialized, the point (1/4, 1/4) has all three
    barycentric weights in [0, 1], and yet [findContainingTriangle] returns
    null for it: the single-triangle path never returns the triangle. *)
Theorem manual_path_misses_interior_point :
  exists T,
    buildTriangulation sample_contentEmbedding sample_Delaunay_from
      (new_SemanticTessellation (Some [Some docA; Some docB; Some docC])
                                (Some sample_coordinates))
    = Return T
    /\ initialized T = true
    /\ useManualTriangulation T = true
    /\ triangles T = [sample_triangle]
    /\ isPointInside (Some [0.25; 0.25]) (Some [[0; 0]; [1; 0]; [0; 1]]) = true
    /\ findContainingTriangle T (Some [0.25; 0.25]) = Return None.
Proof.
  eexists. split; [vm_compute; reflexivity |].
  repeat split; vm_compute; reflexivity.
Qed.

(** C8, as stated, fails: built from two documents, the tessellation is
    returned uninitialized and carries no [reason] property at all. *)
Lemma uninitialized_tessellation_has_no_reason :
  exists T,
    buildTriangulation sample_contentEmbedding sample_Delaunay_from
      (new_SemanticTessellation (Some [Some docA; Some docB]) (Some sample_coordinates))
    = Return T
    /\ initialized T = false
    /\ get_property T "reason" <> PString "insufficient_points"
    /\ get_property T "reason" <> PString "degenerate_geometry".
Proof.
  eexists. split; [vm_compute; reflexivity |].
  repeat split; discriminate.
Qed.

(** C8, amended: [buildTriangulation] never throws and returns the
    tessellation; whenever fewer than three valid documents with coordinates
    remain after filtering, the returned tessellation has
    [initialized = false]; it has no [reason] property. *)
Theorem buildTriangulation_fails_softly
    (contentEmbedding : string -> list Q)
    (Delaunay_from : list (list Q) -> outcome Delaunay)
    (this : SemanticTessellation) :
  exists T,
    buildTriangulation contentEmbedding Delaunay_from this = Return T
    /\ get_property T "reason" = PUndefined
    /\ ((length (validDocuments this) < 3)%nat -> initialized T = false).
Proof.
  destruct (build_returns contentEmbedding Delaunay_from this) as [T HT].
  exists T. split; [exact HT |]. split; [apply reason_is_undefined |].
  now apply build_too_few with (1 := HT).
Qed.

Lemma buildTriangulation_fails_softly_witness :
  (length (validDocuments
             (new_SemanticTessellation (Some [Some docA; None; Some docE; Some docB])
                                       (Some sample_coordinates))) < 3)%nat
  /\ exists T,
      buildTriangulation sample_contentEmbedding sample_Delaunay_from
        (new_SemanticTessellation (Some [Some docA; None; Some docE; Some docB])
                                  (Some sample_coordinates))
      = Return T
      /\ initialized T = false.
Proof.
  assert (H : (length (validDocuments
                         (new_SemanticTessellation
                            (Some [Some docA; None; Some docE; Some docB])
                            (Some sample_coordinates))) < 3)%nat)
    by (vm_compute; lia).
  split; [exact H |].
  destruct (buildTriangulation_fails_softly sample_contentEmbedding sample_Delaunay_from
              (new_SemanticTessellation (Some [Some docA; None; Some docE; Some docB])
                                        (Some sample_coordinates)))
    as (T & HT & _ & Hinit).
  exists T. split; [exact HT | exact (Hinit H)].
Defined.

(** ** Interior-point semantics *)

(** C7, as stated, fails: for a triangle whose second vertex has no
    embedding (the constructor substitutes a generated one of length 128,
    the others have length 2), the interpolation does not fail: it returns
    an ordinary result of type [unknown]. *)
Lemma dimension_mismatch_is_not_raised :
  exists t sem,
    new_SemanticTriangle sample_contentEmbedding (Some docA) (Some docE) (Some docC)
    = Return t
    /\ map length (embeddings t) = [2; 128; 2]%nat
    /\ getInteriorPointSemantics sqrt_exact t (Some [Fin 0.2; Fin 0.3; Fin 0.5])
       = Return sem
    /\ ~ throws (getInteriorPointSemantics sqrt_exact t (Some [Fin 0.2; Fin 0.3; Fin 0.5]))
    /\ so_type (setOperation sem) = "unknown"
    /\ combinedEmbedding sem = []
    /\ map c_similarity (contributions sem) = [Fin 0.5; Fin 0.5; Fin 0.5].
Proof.
  eexists. eexists.
  split; [reflexivity |].
  split; [reflexivity |].
  split; [vm_compute; reflexivity |].
  split; [vm_compute; tauto |].
  repeat split.
Qed.

Lemma unknown_is_unknown_result (this : SemanticTriangle) (weight : nat -> num)
    (conceptual : string) :
  unknown_result (unknown this weight conceptual).
Proof.
  repeat split. cbn [contributions unknown abandoned]. unfold contributions_of.
  apply Forall_lookup. intros i ctr H.
  rewrite list_lookup_imap in H.
  destruct (vertices this !! i); [| discriminate].
  injection H as <-. reflexivity.
Qed.

Lemma common_dimension_None (e0 e1 e2 : list Q) :
  common_dimension [e0; e1; e2] = None ->
  ((length e0 =? 0)%nat
   || existsb (fun e => negb (length e =? length e0)%nat) [e0; e1; e2]) = true.
Proof.
  unfold common_dimension. cbn [existsb].
  destruct (length e0) as [| n]; [reflexivity |].
  rewrite Nat.eqb_refl.
  destruct (length e1 =? S n)%nat; [| reflexivity].
  destruct (length e2 =? S n)%nat; [discriminate | reflexivity].
Qed.

(** C7, amended: when the vertex embeddings are not three arrays of one
    common non-zero length, [getInteriorPointSemantics] does not fail,
    whatever the weights: it returns a result of type [unknown], with an
    empty combined embedding and similarity 0.5 for every vertex (and, for
    three weights whose sum is not near zero, with the normalised weights).
    An embedding is never missing at that point: the constructor replaces a
    missing one by a generated one. *)
Theorem mismatched_embeddings_give_unknown :
  (forall (sqrt : Q -> Q) (this : SemanticTriangle) (weights : option (list num)),
      common_dimension (embeddings this) = None ->
      exists sem,
        getInteriorPointSemantics sqrt this weights = Return sem
        /\ unknown_result sem)
  /\ (forall (sqrt : Q -> Q) (this : SemanticTriangle) (ws : list num)
             (e0 e1 e2 : list Q),
         length ws = 3%nat ->
         embeddings this = [e0; e1; e2] ->
         nlt (nabs (sum_weights ws)) (Fin 0.0001) = false ->
         common_dimension [e0; e1; e2] = None ->
         getInteriorPointSemantics sqrt this (Some ws)
         = Return (unknown this (nidx (map (fun w => ndiv w (sum_weights ws)) ws))
                           "Analysis failed due to inconsistent embedding dimensions"))
  /\ (forall (contentEmbedding : string -> list Q) (a b c : option Document)
             (t : SemanticTriangle),
         new_SemanticTriangle contentEmbedding a b c = Return t ->
         embeddings t
         = map (fun doc => default (generateEmbedding contentEmbedding doc)
                                   (doc_embedding doc))
               (vertices t)).
Proof.
  split; [| split].
  - intros sqrt this weights Hdim.
    unfold getInteriorPointSemantics.
    destruct weights as [ws |];
      [| eexists; split; [reflexivity | apply unknown_is_unknown_result]].
    destruct ((length ws =? 3)%nat && (length (embeddings this) =? 3)%nat) eqn:Hlen;
      [| eexists; split; [reflexivity | apply unknown_is_unknown_result]].
    destruct (nlt (nabs (sum_weights ws)) (Fin 0.0001));
      [eexists; split; [reflexivity | apply unknown_is_unknown_result] |].
    apply andb_true_iff in Hlen as [_ Hlen]. apply Nat.eqb_eq in Hlen.
    destruct (embeddings this) as [| e0 [| e1 [| e2 [| e3 rest]]]];
      try discriminate Hlen.
    cbn [lookup list_lookup].
    rewrite (common_dimension_None e0 e1 e2 Hdim).
    eexists; split; [reflexivity | apply unknown_is_unknown_result].
  - intros sqrt this ws e0 e1 e2 Hlen Hemb Hsum Hdim.
    unfold getInteriorPointSemantics.
    rewrite Hlen, Hemb, Hsum.
    cbn [length Nat.eqb andb lookup list_lookup].
    rewrite (common_dimension_None e0 e1 e2 Hdim). reflexivity.
  - intros ce a b c t.
    unfold new_SemanticTriangle.
    destruct a as [a |], b as [b |], c as [c |]; try discriminate.
    destruct (truthy (doc_id a) && truthy (doc_id b) && truthy (doc_id c));
      [| discriminate].
    intros [= <-]. reflexivity.
Qed.

Lemma mismatched_embeddings_give_unknown_witness :
  common_dimension (embeddings mismatched_triangle) = None
  /\ getInteriorPointSemantics sqrt_exact mismatched_triangle (Some [Fin 2; Fin 3; Fin 5])
     = Return (unknown mismatched_triangle
                       (nidx [Fin (2 / 10); Fin (3 / 10); Fin (5 / 10)])
                       "Analysis failed due to inconsistent embedding dimensions")
  /\ exists sem,
      getInteriorPointSemantics sqrt_exact mismatched_triangle None = Return sem
      /\ unknown_result sem.
Proof.
  assert (Hdim : common_dimension (embeddings mismatched_triangle) = None)
    by reflexivity.
  split; [exact Hdim |]. split.
  - exact (proj1 (proj2 mismatched_embeddings_give_unknown) sqrt_exact
             mismatched_triangle [Fin 2; Fin 3; Fin 5] [1; 0] [0; 1; 5] [1; 1]
             eq_refl eq_refl eq_refl Hdim).
  - exact (proj1 mismatched_embeddings_give_unknown sqrt_exact mismatched_triangle
             None Hdim).
Defined.

(** *** Similarity *)

Lemma nidx_map_Fin_app (pre : list Q) (x : Q) (post : list Q) :
  nidx (map Fin (pre ++ x :: post)) (length pre) = Fin x.
Proof.
  unfold nidx. rewrite list_lookup_fmap, list_lookup_middle; reflexivity.
Qed.

(** The accumulation loop of [calculateSimilarity] computes the three inner
    products. *)
Lemma similarity_loop (u v pu pv : list Q) (d na nb : Q) :
  length u = length v -> length pu = length pv ->
  fold_left
    (fun '(d, na, nb) i =>
       (nadd d (nmul (nidx (map Fin (pu ++ u)) i) (nidx (map Fin (pv ++ v)) i)),
        nadd na (nmul (nidx (map Fin (pu ++ u)) i) (nidx (map Fin (pu ++ u)) i)),
        nadd nb (nmul (nidx (map Fin (pv ++ v)) i) (nidx (map Fin (pv ++ v)) i))))
    (seq (length pu) (length u)) (Fin d, Fin na, Fin nb)
  = (Fin (fold_left (fun acc '(a, b) => acc + a * b) (zip u v) d),
     Fin (fold_left (fun acc '(a, b) => acc + a * b) (zip u u) na),
     Fin (fold_left (fun acc '(a, b) => acc + a * b) (zip v v) nb)).
Proof.
  revert v pu pv d na nb.
  induction u as [| x u IH]; intros [| y v] pu pv d na nb Huv Hp; try discriminate.
  - reflexivity.
  - cbn [length seq fold_left zip zip_with].
    assert (Hy : nidx (map Fin (pv ++ y :: v)) (length pu) = Fin y)
      by (rewrite Hp; apply nidx_map_Fin_app).
    rewrite nidx_map_Fin_app, Hy.
    cbn [nadd nmul lift2].
    specialize (IH v (pu ++ [x]) (pv ++ [y])).
    rewrite !length_app in IH. cbn [length] in IH.
    rewrite <- !app_assoc in IH. cbn [app] in IH.
    rewrite Nat.add_1_r in IH.
    apply IH; [now injection Huv | lia].
Qed.

Lemma dotQ_fold_nonneg (u : list Q) (acc : Q) :
  0 <= acc -> 0 <= fold_left (fun acc '(a, b) => acc + a * b) (zip u u) acc.
Proof.
  revert acc. induction u as [| x u IH]; intros acc H; [exact H |].
  cbn [zip zip_with fold_left]. apply IH. nra.
Qed.

Lemma dotQ_nonneg (u : list Q) : 0 <= dotQ u u.
Proof. apply dotQ_fold_nonneg. lra. Qed.

(** [calculateSimilarity] on finite vectors of one length. *)
Lemma calculateSimilarity_fin (sqrt : Q -> Q) (u v : list Q) :
  length u = length v ->
  calculateSimilarity sqrt (map Fin u) (map Fin v)
  = if Qeq_bool (dotQ u u) 0 || Qeq_bool (dotQ v v) 0 then Fin 0
    else ndiv (nadd (ndiv (Fin (dotQ u v))
                          (Fin (sqrt (dotQ u u) * sqrt (dotQ v v))))
                    (Fin 1))
              (Fin 2).
Proof.
  intros Huv. unfold calculateSimilarity.
  rewrite !length_map, Huv, Nat.eqb_refl. cbn [negb].
  rewrite <- Huv.
  pose proof (similarity_loop u v [] [] 0 0 0 Huv eq_refl) as L.
  cbn [app length] in L. rewrite L.
  fold (dotQ u v). fold (dotQ u u). fold (dotQ v v).
  cbn [nseq ncmp].
  destruct (Qeq_bool (dotQ u u) 0 || Qeq_bool (dotQ v v) 0); [reflexivity |].
  unfold Math_sqrt.
  rewrite (proj2 (Qlt_bool_false (dotQ u u) 0)) by apply dotQ_nonneg.
  rewrite (proj2 (Qlt_bool_false (dotQ v v) 0)) by apply dotQ_nonneg.
  reflexivity.
Qed.

Lemma calculateSimilarity_zero_norm (sqrt : Q -> Q) (u v : list Q) :
  length u = length v ->
  dotQ u u == 0 \/ dotQ v v == 0 ->
  calculateSimilarity sqrt (map Fin u) (map Fin v) = Fin 0.
Proof.
  intros Huv H. rewrite calculateSimilarity_fin by exact Huv.
  destruct H as [H | H]; apply Qeq_bool_iff in H; rewrite H;
    [| rewrite orb_true_r]; reflexivity.
Qed.

Lemma calculateSimilarity_rescaled (sqrt : Q -> Q) (u v : list Q) :
  length u = length v ->
  ~ dotQ u u == 0 -> ~ dotQ v v == 0 ->
  ~ sqrt (dotQ u u) * sqrt (dotQ v v) == 0 ->
  num_eq (calculateSimilarity sqrt (map Fin u) (map Fin v))
         (Fin ((cosineSimilarity sqrt u v + 1) / 2)).
Proof.
  intros Huv Hu Hv Hs. rewrite calculateSimilarity_fin by exact Huv.
  unfold cosineSimilarity.
  apply Qeq_bool_false in Hu, Hv. rewrite Hu, Hv. cbn [orb].
  rewrite ndiv_fin by exact Hs. cbn [nadd lift2].
  rewrite ndiv_fin by discriminate.
  cbn [num_eq]. reflexivity.
Qed.

(** *** The weighted combination *)

Lemma repeat_Fin (q : Q) (n : nat) : repeat (Fin q) n = map Fin (repeat q n).
Proof. induction n as [| n IH]; [reflexivity |]. cbn. now rewrite IH. Qed.

Lemma idx_cons (q : Q) (e : list Q) (j : nat) : idx (q :: e) (S j) = idx e j.
Proof. reflexivity. Qed.

Lemma imap_axpy (w : Q) (e acc : list Q) :
  length acc = length e ->
  imap (fun j c => nadd c (nmul (Fin w) (idx e j))) (map Fin acc)
  = map Fin (axpy w e acc).
Proof.
  revert e. induction acc as [| c acc IH]; intros [| x e] H; try discriminate.
  - reflexivity.
  - change (axpy w (x :: e) (c :: acc)) with ((c + w * x) :: axpy w e acc).
    cbn [map imap]. f_equal.
    rewrite <- (IH e) by (now injection H).
    apply imap_ext. intros j y _. reflexivity.
Qed.

Lemma axpy_length (w : Q) (e acc : list Q) :
  length acc = length e -> length (axpy w e acc) = length e.
Proof. intros H. unfold axpy. rewrite length_zip_with. lia. Qed.

Lemma combine_fin (n0 n1 n2 : Q) (e0 e1 e2 : list Q) :
  length e1 = length e0 -> length e2 = length e0 ->
  combine [Fin n0; Fin n1; Fin n2] [e0; e1; e2] (length e0)
  = map Fin (weighted_sum n0 n1 n2 e0 e1 e2 (length e0)).
Proof.
  intros H1 H2. unfold combine, weighted_sum.
  cbn [length seq fold_left nidx lookup list_lookup].
  rewrite repeat_Fin.
  assert (L0 : length (repeat 0 (length e0)) = length e0) by apply repeat_length.
  rewrite imap_axpy by exact L0.
  assert (L1 : length (axpy n0 e0 (repeat 0 (length e0))) = length e1)
    by (rewrite axpy_length; [lia | exact L0]).
  rewrite imap_axpy by exact L1.
  assert (L2 : length (axpy n1 e1 (axpy n0 e0 (repeat 0 (length e0)))) = length e2)
    by (rewrite axpy_length; [lia | exact L1]).
  rewrite imap_axpy by exact L2.
  reflexivity.
Qed.

Lemma weighted_sum_length (n0 n1 n2 : Q) (e0 e1 e2 : list Q) :
  length e1 = length e0 -> length e2 = length e0 ->
  length (weighted_sum n0 n1 n2 e0 e1 e2 (length e0)) = length e0.
Proof.
  intros H1 H2. unfold weighted_sum.
  assert (L0 : length (repeat 0 (length e0)) = length e0) by apply repeat_length.
  assert (L1 : length (axpy (n0) e0 (repeat 0 (length e0))) = length e1)
    by (rewrite axpy_length; [lia | exact L0]).
  assert (L2 : length (axpy n1 e1 (axpy n0 e0 (repeat 0 (length e0)))) = length e2)
    by (rewrite axpy_length; [lia | exact L1]).
  rewrite axpy_length; [lia | exact L2].
Qed.

(** C6, as stated, fails: with weights [1, 0, 0] on the sample triangle the
    combined embedding is [1, 0]; its cosine with the second vertex's
    embedding [0, 1] is 0, but the similarity reported for that vertex is
    1/2.  With weights of sum zero, and with embeddings of the common
    length 0 (zero-norm vectors), the similarity reported is 0.5 for every
    vertex. *)
Lemma similarity_is_not_the_cosine :
  (exists sem ctr,
      getInteriorPointSemantics sqrt_exact sample_triangle (Some [Fin 1; Fin 0; Fin 0])
      = Return sem
      /\ weights_eq (combinedEmbedding sem) [Fin 1; Fin 0]
      /\ contributions sem !! 1%nat = Some ctr
      /\ num_eq (c_similarity ctr) (Fin (1 / 2))
      /\ cosineSimilarity sqrt_exact [1; 0] [0; 1] == 0
      /\ ~ num_eq (c_similarity ctr) (Fin (cosineSimilarity sqrt_exact [1; 0] [0; 1])))
  /\ (exists sem,
         getInteriorPointSemantics sqrt_exact sample_triangle (Some [Fin 1; Fin (-1); Fin 0])
         = Return sem
         /\ map c_similarity (contributions sem) = [Fin 0.5; Fin 0.5; Fin 0.5])
  /\ (exists sem,
         getInteriorPointSemantics sqrt_exact empty_triangle (Some [Fin 1; Fin 0; Fin 0])
         = Return sem
         /\ map c_similarity (contributions sem) = [Fin 0.5; Fin 0.5; Fin 0.5]).
Proof.
  split; [| split].
  - eexists. eexists.
    split; [vm_compute; reflexivity |].
    split; [repeat constructor |].
    split; [reflexivity |].
    split; [reflexivity |].
    split; [reflexivity |].
    intros H. vm_compute in H. discriminate.
  - eexists. split; [vm_compute; reflexivity | reflexivity].
  - eexists. split; [vm_compute; reflexivity | reflexivity].
Qed.

(** C6, amended: for three weights whose sum is not near zero and three
    vertex embeddings of one common length D > 0, the similarity reported
    for vertex i is [calculateSimilarity] of the combined embedding (the
    weighted sum of the embeddings under the normalised weights) and vertex
    i's embedding.  That value is the cosine similarity rescaled to the
    range 0..1, [(cos + 1) / 2], and it is 0 when one of the two vectors has
    norm zero. *)
Theorem similarity_is_rescaled_cosine
    (sqrt : Q -> Q) (this : SemanticTriangle) (a b c : Q) (e0 e1 e2 : list Q) :
  length (vertices this) = 3%nat ->
  embeddings this = [e0; e1; e2] ->
  (0 < length e0)%nat -> length e1 = length e0 -> length e2 = length e0 ->
  ~ Qabs (0 + a + b + c) < 0.0001 ->
  let s := 0 + a + b + c in
  let comb := weighted_sum (a / s) (b / s) (c / s) e0 e1 e2 (length e0) in
  exists sem,
    getInteriorPointSemantics sqrt this (Some [Fin a; Fin b; Fin c]) = Return sem
    /\ combinedEmbedding sem = map Fin comb
    /\ forall (i : nat) (e : list Q),
        [e0; e1; e2] !! i = Some e ->
        exists ctr,
          contributions sem !! i = Some ctr
          /\ c_similarity ctr = calculateSimilarity sqrt (map Fin comb) (map Fin e)
          /\ (dotQ comb comb == 0 \/ dotQ e e == 0 -> c_similarity ctr = Fin 0)
          /\ (~ dotQ comb comb == 0 -> ~ dotQ e e == 0 ->
              ~ sqrt (dotQ comb comb) * sqrt (dotQ e e) == 0 ->
              num_eq (c_similarity ctr) (Fin ((cosineSimilarity sqrt comb e + 1) / 2))).
Proof.
  intros Hv Hemb HD H1 H2 Hs s comb.
  assert (Hs0 : ~ s == 0).
  { intros E. apply Hs. fold s. rewrite E. reflexivity. }
  assert (Hsb : Qlt_bool (Qabs s) 0.0001 = false).
  { apply Qlt_bool_false. apply Qnot_lt_le. exact Hs. }
  destruct (interpretAsSetOperations_returns this [Fin (a / s); Fin (b / s); Fin (c / s)] eq_refl)
    as [r Hr].
  unfold getInteriorPointSemantics. rewrite Hemb.
  cbn [length Nat.eqb andb lookup list_lookup].
  change (sum_weights [Fin a; Fin b; Fin c]) with (Fin s).
  change (nlt (nabs (Fin s)) (Fin 0.0001)) with (Qlt_bool (Qabs s) 0.0001).
  rewrite Hsb.
  cbn [map]. rewrite !ndiv_fin by exact Hs0.
  assert (Hc : ((length e0 =? 0)%nat
                || existsb (fun e => negb (length e =? length e0)%nat) [e0; e1; e2]) = false).
  { cbn [existsb]. rewrite H1, H2, Nat.eqb_refl. cbn.
    rewrite orb_false_r. apply Nat.eqb_neq. lia. }
  rewrite Hc, Hr.
  rewrite combine_fin by assumption. fold comb.
  cbn [mbind outcome_bind try_catch].
  eexists. split; [reflexivity |]. cbn [combinedEmbedding contributions].
  split; [reflexivity |].
  intros i e Hi.
  assert (Hlen : length comb = length e).
  { unfold comb. rewrite weighted_sum_length by assumption.
    destruct i as [| [| [| i]]]; cbn in Hi;
      first [discriminate Hi | injection Hi as <-; lia]. }
  destruct (vertices this) as [| d0 [| d1 [| d2 [| ]]]] eqn:Ev; try discriminate Hv.
  unfold contributions_of. rewrite Ev.
  destruct i as [| [| [| i]]]; try discriminate Hi.
  all: cbn in Hi; injection Hi as <-.
  all: eexists; split; [reflexivity |].
  all: unfold compose; cbn [c_similarity nidx lookup list_lookup].
  all: split; [reflexivity |]; split;
    [ now apply calculateSimilarity_zero_norm
    | now apply calculateSimilarity_rescaled ].
Qed.

Lemma similarity_is_rescaled_cosine_witness :
  exists sem,
    getInteriorPointSemantics sqrt_exact sample_triangle (Some [Fin 2; Fin 1; Fin 1])
    = Return sem
    /\ combinedEmbedding sem
       = map Fin (weighted_sum (2 / (0 + 2 + 1 + 1)) (1 / (0 + 2 + 1 + 1))
                               (1 / (0 + 2 + 1 + 1)) [1; 0] [0; 1] [1; 1] 2).
Proof.
  assert (Hs : ~ Qabs (0 + 2 + 1 + 1) < 0.0001)
    by (intros H; vm_compute in H; discriminate).
  assert (HD : (0 < length [1; 0])%nat) by (cbn; lia).
  destruct (similarity_is_rescaled_cosine sqrt_exact sample_triangle 2 1 1
              [1; 0] [0; 1] [1; 1] eq_refl eq_refl HD eq_refl eq_refl Hs)
    as (sem & Hsem & Hcomb & _).
  exists sem. split; [exact Hsem | exact Hcomb].
Defined.

(** ** Locating a point on the Delaunay path *)

(** On the Delaunay path the answer is decided by the library's [find]:
    when it reports [-1] the method returns null. *)
Lemma findContainingTriangle_find_reports_none
    (this : SemanticTessellation) (d : Delaunay) (p : list Q) :
  initialized this = true ->
  useManualTriangulation this = false ->
  delaunay this = Some d ->
  del_find d (idx p 0) (idx p 1) = (-1)%Z ->
  findContainingTriangle this (Some p) = Return None.
Proof.
  intros Hi Hm Hd Hf. unfold findContainingTriangle.
  rewrite Hi, Hm, Hd. cbn [negb mbind outcome_bind]. now rewrite Hf.
Qed.

(** The Delaunay path in full: the answer is a function of what [find]
    reports and of the index triple read at three times that value. *)
Lemma findContainingTriangle_delaunay_path
    (this : SemanticTessellation) (d : Delaunay)
    (docs : list (option Document)) (p : list Q) :
  initialized this = true ->
  useManualTriangulation this = false ->
  delaunay this = Some d ->
  documents this = Some docs ->
  findContainingTriangle this (Some p)
  = Return
      (let triangleIndex := del_find d (idx p 0) (idx p 1) in
       if (triangleIndex =? -1)%Z then None
       else List.find
              (matches_indices docs
                 [ triangle_index_at d (triangleIndex * 3);
                   triangle_index_at d (triangleIndex * 3 + 1);
                   triangle_index_at d (triangleIndex * 3 + 2) ])
              (triangles this)).
Proof.
  intros Hi Hm Hd Hdocs. unfold findContainingTriangle.
  rewrite Hi, Hm, Hd, Hdocs. cbn [negb mbind outcome_bind].
  cbv zeta. destruct (del_find d (idx p 0) (idx p 1) =? -1)%Z; [reflexivity |].
  destruct (triangles this); reflexivity.
Qed.

(** Any other index is resolved through the triangle array: the tessellation
    of the four sample documents answers the triangle that [find] names. *)
Example findContainingTriangle_find_reports_index :
  exists T t,
    buildTriangulation sample_contentEmbedding sample_Delaunay_from
      (new_SemanticTessellation (Some [Some docA; Some docB; Some docC; Some docD])
                                (Some sample_coordinates))
    = Return T
    /\ findContainingTriangle T (Some [0.75; 0.75]) = Return (Some t)
    /\ tri_id t = "triangle-b-d-c"
    /\ findContainingTriangle T (Some [2; 2]) = Return None.
Proof.
  eexists. eexists.
  split; [vm_compute; reflexivity |].
  split; [vm_compute; reflexivity |].
  split; reflexivity.
Qed.

(** ** More on the barycentric weights *)

(** X4: a degenerate triangle contains every point: [isPointInside] answers
    true whatever the point, because the default weights lie in [0, 1]. *)
Theorem degenerate_triangle_contains_every_point (p : list Q) (x1 y1 x2 y2 x3 y3 : Q) :
  degenerate x1 y1 x2 y2 x3 y3 ->
  isPointInside (Some p) (Some [[x1; y1]; [x2; y2]; [x3; y3]]) = true.
Proof.
  intros H. unfold isPointInside. rewrite bary_degenerate by exact H. reflexivity.
Qed.

Lemma degenerate_triangle_contains_every_point_witness :
  degenerate 0 0 1 1 2 2
  /\ isPointInside (Some [100; -100]) (Some [[0; 0]; [1; 1]; [2; 2]]) = true.
Proof.
  assert (H : degenerate 0 0 1 1 2 2) by reflexivity.
  split; [exact H |].
  exact (degenerate_triangle_contains_every_point [100; -100] 0 0 1 1 2 2 H).
Defined.

(** ** More on the tetrahedron *)

Lemma Qdiv_unit_interval (v t : Q) : 0 <= v -> v <= t -> 0 < t -> 0 <= v / t /\ v / t <= 1.
Proof.
  intros Hv Hvt Ht. split.
  - apply Qle_shift_div_l; [exact Ht | lra].
  - apply Qle_shift_div_r; [exact Ht | lra].
Qed.

(** X6: the tetrahedron weights are never negative and never above 1, for
    interior and exterior points alike; they are [NaN] exactly when the four
    sub-volumes are all zero. *)
Theorem tetrahedron_weights_in_unit_interval (p a b c d : Vector3) :
  (totalVolume p a b c d == 0
   /\ calculateBarycentricCoordinates3D p [a; b; c; d] = [NaN; NaN; NaN; NaN])
  \/ (exists w0 w1 w2 w3 : Q,
         calculateBarycentricCoordinates3D p [a; b; c; d]
         = [Fin w0; Fin w1; Fin w2; Fin w3]
         /\ (0 <= w0 <= 1) /\ (0 <= w1 <= 1) /\ (0 <= w2 <= 1) /\ (0 <= w3 <= 1)).
Proof.
  destruct (Qeq_dec (totalVolume p a b c d) 0) as [E | E].
  - left. split; [exact E |]. unfold calculateBarycentricCoordinates3D.
    now rewrite !ndiv_zero by exact E.
  - right. rewrite bary3D_regular by exact E.
    destruct (totalVolume_nonneg p a b c d) as (H0 & H1 & H2 & H3).
    assert (Ht : 0 < totalVolume p a b c d).
    { unfold totalVolume in *. lra. }
    do 4 eexists. split; [reflexivity |].
    unfold totalVolume in Ht |- *.
    repeat split; apply Qdiv_unit_interval; lra.
Qed.

(** ** More on the interior-point semantics *)

(** The successful path of [getInteriorPointSemantics], spelled out. *)
Lemma getInteriorPointSemantics_success
    (sqrt : Q -> Q) (this : SemanticTriangle) (a b c : Q) (e0 e1 e2 : list Q) :
  embeddings this = [e0; e1; e2] ->
  common_dimension [e0; e1; e2] = Some (length e0) ->
  ~ Qabs (0 + a + b + c) < 0.0001 ->
  let s := 0 + a + b + c in
  let nw := [Fin (a / s); Fin (b / s); Fin (c / s)] in
  let comb := weighted_sum (a / s) (b / s) (c / s) e0 e1 e2 (length e0) in
  exists r,
    interpretAsSetOperations this nw = Return r
    /\ getInteriorPointSemantics sqrt this (Some [Fin a; Fin b; Fin c])
       = Return {| contributions :=
                     contributions_of this (nidx nw)
                       (nidx (map (fun e => calculateSimilarity sqrt (map Fin comb)
                                                                (map Fin e))
                                  [e0; e1; e2]));
                   combinedEmbedding := map Fin comb;
                   setOperation := r |}.
Proof.
  intros Hemb Hdim Hs s nw comb.
  assert (Hs0 : ~ s == 0).
  { intros E. apply Hs. fold s. rewrite E. reflexivity. }
  assert (Hsb : Qlt_bool (Qabs s) 0.0001 = false).
  { apply Qlt_bool_false. apply Qnot_lt_le. exact Hs. }
  assert (Hlen : (0 < length e0)%nat /\ length e1 = length e0 /\ length e2 = length e0).
  { unfold common_dimension in Hdim.
    destruct (0 <? length e0)%nat eqn:H0; [| discriminate].
    destruct (length e1 =? length e0)%nat eqn:H1; [| discriminate].
    destruct (length e2 =? length e0)%nat eqn:H2; [| discriminate].
    apply Nat.ltb_lt in H0. apply Nat.eqb_eq in H1, H2. auto. }
  destruct Hlen as (HD & H1 & H2).
  subst nw comb.
  destruct (interpretAsSetOperations_returns this
              [Fin (a / s); Fin (b / s); Fin (c / s)] eq_refl) as [r Hr].
  exists r. split; [exact Hr |].
  unfold getInteriorPointSemantics. rewrite Hemb.
  cbn [length Nat.eqb andb lookup list_lookup].
  change (sum_weights [Fin a; Fin b; Fin c]) with (Fin s).
  change (nlt (nabs (Fin s)) (Fin 0.0001)) with (Qlt_bool (Qabs s) 0.0001).
  rewrite Hsb.
  cbn [map]. rewrite !ndiv_fin by exact Hs0.
  assert (Hc : ((length e0 =? 0)%nat
                || existsb (fun e => negb (length e =? length e0)%nat) [e0; e1; e2]) = false).
  { cbn [existsb]. rewrite H1, H2, Nat.eqb_refl. cbn.
    rewrite orb_false_r. apply Nat.eqb_neq. lia. }
  rewrite Hc, Hr.
  rewrite combine_fin by assumption.
  reflexivity.
Qed.

Lemma axpy_lookup (w : Q) (e acc : list Q) (j : nat) (x y : Q) :
  acc !! j = Some y -> e !! j = Some x -> axpy w e acc !! j = Some (y + w * x).
Proof.
  intros Ha He. unfold axpy. rewrite lookup_zip_with, Ha. cbn. rewrite He. reflexivity.
Qed.

Lemma repeat_lookup (q : Q) (n j : nat) : (j < n)%nat -> repeat q n !! j = Some q.
Proof.
  revert j. induction n as [| n IH]; intros j H; [lia |].
  destruct j as [| j]; [reflexivity |]. cbn. apply IH. lia.
Qed.

Lemma weighted_sum_lookup (w0 w1 w2 : Q) (e0 e1 e2 : list Q) (j : nat) (x0 x1 x2 : Q) :
  e0 !! j = Some x0 -> e1 !! j = Some x1 -> e2 !! j = Some x2 ->
  weighted_sum w0 w1 w2 e0 e1 e2 (length e0) !! j
  = Some (0 + w0 * x0 + w1 * x1 + w2 * x2).
Proof.
  intros H0 H1 H2. unfold weighted_sum.
  apply axpy_lookup; [| exact H2].
  apply axpy_lookup; [| exact H1].
  apply axpy_lookup; [| exact H0].
  apply repeat_lookup. apply lookup_lt_Some in H0. exact H0.
Qed.

(** X10: on the successful path, every component of the combined embedding is
    the sum of the vertex embeddings' components weighted by the normalised
    weights. *)
Theorem combinedEmbedding_is_weighted_sum
    (sqrt : Q -> Q) (this : SemanticTriangle) (a b c : Q) (e0 e1 e2 : list Q) :
  embeddings this = [e0; e1; e2] ->
  common_dimension [e0; e1; e2] = Some (length e0) ->
  ~ Qabs (0 + a + b + c) < 0.0001 ->
  let s := 0 + a + b + c in
  exists sem,
    getInteriorPointSemantics sqrt this (Some [Fin a; Fin b; Fin c]) = Return sem
    /\ length (combinedEmbedding sem) = length e0
    /\ forall (j : nat) (x0 x1 x2 : Q),
        e0 !! j = Some x0 -> e1 !! j = Some x1 -> e2 !! j = Some x2 ->
        combinedEmbedding sem !! j
        = Some (Fin (0 + a / s * x0 + b / s * x1 + c / s * x2)).
Proof.
  intros Hemb Hdim Hs s.
  destruct (getInteriorPointSemantics_success sqrt this a b c e0 e1 e2 Hemb Hdim Hs)
    as (r & _ & ->).
  eexists. split; [reflexivity |]. cbn [combinedEmbedding].
  assert (Hlen : length e1 = length e0 /\ length e2 = length e0).
  { unfold common_dimension in Hdim.
    destruct (0 <? length e0)%nat; [| discriminate].
    destruct (length e1 =? length e0)%nat eqn:H1; [| discriminate].
    destruct (length e2 =? length e0)%nat eqn:H2; [| discriminate].
    apply Nat.eqb_eq in H1, H2. auto. }
  split.
  - rewrite length_map. apply weighted_sum_length; tauto.
  - intros j x0 x1 x2 H0 H1 H2.
    rewrite list_lookup_fmap, (weighted_sum_lookup _ _ _ _ _ _ j x0 x1 x2) by assumption.
    reflexivity.
Qed.

Lemma combinedEmbedding_is_weighted_sum_witness :
  exists sem,
    getInteriorPointSemantics sqrt_exact sample_triangle (Some [Fin 2; Fin 1; Fin 1])
    = Return sem
    /\ length (combinedEmbedding sem) = 2%nat.
Proof.
  assert (Hs : ~ Qabs (0 + 2 + 1 + 1) < 0.0001)
    by (intros H; vm_compute in H; discriminate).
  destruct (combinedEmbedding_is_weighted_sum sqrt_exact sample_triangle 2 1 1
              [1; 0] [0; 1] [1; 1] eq_refl eq_refl Hs)
    as (sem & Hsem & Hlen & _).
  exists sem. split; [exact Hsem | exact Hlen].
Defined.

(** X11: with all the weight on one vertex the combined embedding is that
    vertex's embedding. *)
Theorem combinedEmbedding_at_vertex
    (sqrt : Q -> Q) (this : SemanticTriangle) (e0 e1 e2 : list Q) :
  embeddings this = [e0; e1; e2] ->
  common_dimension [e0; e1; e2] = Some (length e0) ->
  (exists sem,
      getInteriorPointSemantics sqrt this (Some [Fin 1; Fin 0; Fin 0]) = Return sem
      /\ weights_eq (combinedEmbedding sem) (map Fin e0))
  /\ (exists sem,
         getInteriorPointSemantics sqrt this (Some [Fin 0; Fin 1; Fin 0]) = Return sem
         /\ weights_eq (combinedEmbedding sem) (map Fin e1))
  /\ (exists sem,
         getInteriorPointSemantics sqrt this (Some [Fin 0; Fin 0; Fin 1]) = Return sem
         /\ weights_eq (combinedEmbedding sem) (map Fin e2)).
Proof.
  intros Hemb Hdim.
  assert (Hlen : length e1 = length e0 /\ length e2 = length e0).
  { unfold common_dimension in Hdim.
    destruct (0 <? length e0)%nat; [| discriminate].
    destruct (length e1 =? length e0)%nat eqn:H1; [| discriminate].
    destruct (length e2 =? length e0)%nat eqn:H2; [| discriminate].
    apply Nat.eqb_eq in H1, H2. auto. }
  destruct Hlen as [H1 H2].
  assert (Hgen : forall a b c (e : list Q),
             ~ Qabs (0 + a + b + c) < 0.0001 ->
             length e = length e0 ->
             (forall j x0 x1 x2 x, e0 !! j = Some x0 -> e1 !! j = Some x1 ->
                                   e2 !! j = Some x2 -> e !! j = Some x ->
                                   0 + a / (0 + a + b + c) * x0 + b / (0 + a + b + c) * x1
                                   + c / (0 + a + b + c) * x2 == x) ->
             exists sem,
               getInteriorPointSemantics sqrt this (Some [Fin a; Fin b; Fin c]) = Return sem
               /\ weights_eq (combinedEmbedding sem) (map Fin e)).
  { intros a b c e Hs He Hval.
    destruct (getInteriorPointSemantics_success sqrt this a b c e0 e1 e2 Hemb Hdim Hs)
      as (r & _ & ->).
    eexists. split; [reflexivity |]. cbn [combinedEmbedding].
    apply Forall2_fmap. apply Forall2_same_length_lookup. split.
    - rewrite weighted_sum_length by assumption. congruence.
    - intros j v x Hv Hx. cbn [num_eq].
      destruct (lookup_lt_is_Some_2 e0 j) as [x0 Hx0];
        [apply lookup_lt_Some in Hx; lia |].
      destruct (lookup_lt_is_Some_2 e1 j) as [x1 Hx1];
        [apply lookup_lt_Some in Hx; lia |].
      destruct (lookup_lt_is_Some_2 e2 j) as [x2 Hx2];
        [apply lookup_lt_Some in Hx; lia |].
      rewrite (weighted_sum_lookup _ _ _ _ _ _ j x0 x1 x2) in Hv by assumption.
      injection Hv as <-. now apply (Hval j x0 x1 x2 x). }
  assert (Hone : forall a b c, 0 + a + b + c == 1 -> ~ Qabs (0 + a + b + c) < 0.0001).
  { intros a b c E H. rewrite E in H. vm_compute in H. discriminate. }
  split; [| split].
  - apply Hgen; [apply Hone; reflexivity | reflexivity |].
    intros j x0 x1 x2 x Hx0 _ _ Hx. rewrite Hx0 in Hx. injection Hx as <-. field.
  - apply Hgen; [apply Hone; reflexivity | exact H1 |].
    intros j x0 x1 x2 x _ Hx1 _ Hx. rewrite Hx1 in Hx. injection Hx as <-. field.
  - apply Hgen; [apply Hone; reflexivity | exact H2 |].
    intros j x0 x1 x2 x _ _ Hx2 Hx. rewrite Hx2 in Hx. injection Hx as <-. field.
Qed.

Lemma interpretAsSetOperations_type (this : SemanticTriangle) (ws : list num) :
  length ws = 3%nat ->
  exists r, interpretAsSetOperations this ws = Return r /\ In (so_type r) triangle_types.
Proof.
  intros Hlen. unfold interpretAsSetOperations, triangle_types.
  destruct (forallb _ ws && _); [eexists; split; [reflexivity | cbn; tauto] |].
  destruct (match indexOf ws (Math_max ws) with Some _ => _ | None => _ end).
  { destruct (omap _ _); eexists; (split; [reflexivity | cbn; tauto]). }
  match goal with
  | |- context [sort_by ?c ?l] =>
      pose proof (sort_by_length c l) as Hs; destruct (sort_by c l) as [| s0 [| s1 [| s2 rest]]]
  end.
  all: rewrite length_imap, Hlen in Hs; try discriminate Hs.
  destruct (nge s0.1 MEDIUM), (nge s1.1 MEDIUM), (nlt s2.1 LOW);
    eexists; (split; [reflexivity | cbn; tauto]).
Qed.

(** X12: for a triangle with three vertices and embeddings of one common
    non-zero length, and three weights whose sum is not near zero, the
    analysis succeeds: the contributions carry the weights divided by their
    sum, and the classification is one of the five triangle types, never
    [unknown] or [error]. *)
Theorem interior_point_semantics_succeeds
    (sqrt : Q -> Q) (this : SemanticTriangle) (a b c : Q) (e0 e1 e2 : list Q) :
  length (vertices this) = 3%nat ->
  embeddings this = [e0; e1; e2] ->
  common_dimension [e0; e1; e2] = Some (length e0) ->
  ~ Qabs (0 + a + b + c) < 0.0001 ->
  let s := 0 + a + b + c in
  exists sem,
    getInteriorPointSemantics sqrt this (Some [Fin a; Fin b; Fin c]) = Return sem
    /\ map c_weight (contributions sem) = [Fin (a / s); Fin (b / s); Fin (c / s)]
    /\ In (so_type (setOperation sem)) triangle_types.
Proof.
  intros Hv Hemb Hdim Hs s.
  destruct (getInteriorPointSemantics_success sqrt this a b c e0 e1 e2 Hemb Hdim Hs)
    as (r & Hr & ->).
  destruct (interpretAsSetOperations_type this
              [Fin (a / s); Fin (b / s); Fin (c / s)] eq_refl) as (r' & Hr' & Hty).
  cbv zeta in Hr. fold s in Hr. rewrite Hr in Hr'. injection Hr' as <-.
  eexists. split; [reflexivity |].
  cbn [contributions setOperation]. unfold contributions_of.
  destruct (vertices this) as [| d0 [| d1 [| d2 [| ]]]]; try discriminate Hv.
  split; [reflexivity | exact Hty].
Qed.

Lemma interior_point_semantics_succeeds_witness :
  exists sem,
    getInteriorPointSemantics sqrt_exact sample_triangle (Some [Fin 2; Fin 1; Fin 1])
    = Return sem
    /\ map c_weight (contributions sem) = [Fin (2 / 4); Fin (1 / 4); Fin (1 / 4)]
    /\ In (so_type (setOperation sem)) triangle_types.
Proof.
  assert (Hs : ~ Qabs (0 + 2 + 1 + 1) < 0.0001)
    by (intros H; vm_compute in H; discriminate).
  destruct (interior_point_semantics_succeeds sqrt_exact sample_triangle 2 1 1
              [1; 0] [0; 1] [1; 1] eq_refl eq_refl eq_refl Hs)
    as (sem & Hsem & Hw & Hty).
  exists sem. split; [exact Hsem |]. split; [| exact Hty].
  rewrite Hw. reflexivity.
Defined.

Lemma combinedEmbedding_at_vertex_witness :
  common_dimension (embeddings sample_triangle) = Some 2%nat
  /\ exists sem,
      getInteriorPointSemantics sqrt_exact sample_triangle (Some [Fin 0; Fin 1; Fin 0])
      = Return sem
      /\ weights_eq (combinedEmbedding sem) (map Fin [0; 1]).
Proof.
  assert (Hdim : common_dimension [[1; 0]; [0; 1]; [1; 1]] = Some (length [1; 0]))
    by reflexivity.
  split; [exact Hdim |].
  exact (proj1 (proj2 (combinedEmbedding_at_vertex sqrt_exact sample_triangle
                         [1; 0] [0; 1] [1; 1] eq_refl Hdim))).
Defined.

(** ** More on the similarity *)

Lemma dotQ_fold_shift (u v : list Q) (acc : Q) :
  fold_left (fun acc '(a, b) => acc + a * b) (zip u v) acc
  == acc + fold_left (fun acc '(a, b) => acc + a * b) (zip u v) 0.
Proof.
  revert v acc. induction u as [| x u IH]; intros [| y v] acc; cbn [zip zip_with fold_left];
    try ring.
  rewrite IH, (IH v (0 + x * y)). ring.
Qed.

Lemma dotQ_cons (x y : Q) (u v : list Q) : dotQ (x :: u) (y :: v) == x * y + dotQ u v.
Proof.
  unfold dotQ. cbn [zip zip_with fold_left]. rewrite dotQ_fold_shift. ring.
Qed.

Lemma dotQ_comm (u v : list Q) : dotQ u v == dotQ v u.
Proof.
  revert v. induction u as [| x u IH]; intros [| y v]; try reflexivity.
  rewrite !dotQ_cons, IH. ring.
Qed.

(** X14: [calculateSimilarity] is symmetric in its two vectors. *)
Theorem similarity_symmetric (sqrt : Q -> Q) (u v : list Q) :
  num_eq (calculateSimilarity sqrt (map Fin u) (map Fin v))
         (calculateSimilarity sqrt (map Fin v) (map Fin u)).
Proof.
  destruct (Nat.eq_dec (length u) (length v)) as [Hlen | Hlen].
  2:{ unfold calculateSimilarity. rewrite !length_map.
      assert (Hlen' : length v <> length u) by congruence.
      apply Nat.eqb_neq in Hlen, Hlen'. now rewrite Hlen, Hlen'. }
  rewrite (calculateSimilarity_fin sqrt u v) by exact Hlen.
  rewrite (calculateSimilarity_fin sqrt v u) by (symmetry; exact Hlen).
  rewrite (orb_comm (Qeq_bool (dotQ v v) 0)).
  destruct (Qeq_bool (dotQ u u) 0 || Qeq_bool (dotQ v v) 0); [reflexivity |].
  set (sa := sqrt (dotQ u u)). set (sb := sqrt (dotQ v v)).
  destruct (Qeq_dec (sa * sb) 0) as [E | E].
  - rewrite (ndiv_zero _ (sa * sb)) by exact E.
    rewrite (ndiv_zero _ (sb * sa)) by (rewrite Qmult_comm; exact E).
    reflexivity.
  - assert (E' : ~ sb * sa == 0) by (rewrite Qmult_comm; exact E).
    rewrite (ndiv_fin _ (sa * sb)) by exact E.
    rewrite (ndiv_fin _ (sb * sa)) by exact E'.
    cbn [nadd lift2]. rewrite !ndiv_fin by discriminate.
    assert (Hsa : ~ sa == 0) by (intros H; apply E; rewrite H; ring).
    assert (Hsb : ~ sb == 0) by (intros H; apply E; rewrite H; ring).
    cbn [num_eq]. rewrite (dotQ_comm v u). field. auto.
Qed.

(** ** The embedding service *)

Lemma to_int32_range (z : Z) : (- 2 ^ 31 <= to_int32 z < 2 ^ 31)%Z.
Proof.
  unfold to_int32.
  pose proof (Z.mod_pos_bound (z + 2 ^ 31) (2 ^ 32) ltac:(lia)). lia.
Qed.

Lemma to_int32_mod (z : Z) : (to_int32 z mod 2 ^ 32 = z mod 2 ^ 32)%Z.
Proof.
  unfold to_int32.
  rewrite Zminus_mod, Z.mod_mod by lia.
  rewrite <- Zminus_mod. f_equal. lia.
Qed.

Lemma to_int32_congr (x y : Z) :
  (x mod 2 ^ 32 = y mod 2 ^ 32)%Z -> to_int32 x = to_int32 y.
Proof.
  intros H. unfold to_int32.
  rewrite (Zplus_mod x), (Zplus_mod y), H. reflexivity.
Qed.

Lemma simpleHash_step (h c : Z) :
  to_int32 (to_int32 (Z.shiftl (to_int32 h) 5) - to_int32 h + c)
  = to_int32 (31 * h + c).
Proof.
  apply to_int32_congr.
  rewrite Z.shiftl_mul_pow2 by lia.
  rewrite Zplus_mod, Zminus_mod, to_int32_mod, (to_int32_mod h).
  rewrite (Zmult_mod (to_int32 h)), to_int32_mod.
  rewrite <- Zmult_mod, <- Zminus_mod, <- Zplus_mod.
  f_equal. lia.
Qed.

Lemma simpleHash_fold (str : list Z) (h : Z) :
  fold_left (fun hash char => to_int32 (to_int32 (Z.shiftl hash 5) - hash + char))
            str (to_int32 h)
  = to_int32 (fold_left (fun hash char => 31 * hash + char)%Z str h).
Proof.
  revert h. induction str as [| c str IH]; intros h; [reflexivity |].
  cbn [fold_left]. rewrite simpleHash_step. apply IH.
Qed.

(** X16: [simpleHash] is the polynomial hash with multiplier 31 over the code
    units, wrapped into the signed 32-bit range. *)
Theorem simpleHash_is_wrapped_polynomial (str : list Z) :
  simpleHash str = to_int32 (fold_left (fun hash char => 31 * hash + char)%Z str 0%Z)
  /\ (- 2 ^ 31 <= simpleHash str < 2 ^ 31)%Z.
Proof.
  assert (E : simpleHash str
              = to_int32 (fold_left (fun hash char => 31 * hash + char)%Z str 0%Z)).
  { unfold simpleHash. change 0%Z with (to_int32 0) at 1. apply simpleHash_fold. }
  split; [exact E |]. rewrite E. apply to_int32_range.
Qed.

(** X17: [projectToTwoDimensions] always answers a pair, and it reads the first
    twenty entries of the embedding only. *)
Theorem projectToTwoDimensions_reads_twenty (e e' : list Q) :
  e <> [] -> e' <> [] ->
  take 20 e = take 20 e' ->
  length (projectToTwoDimensions (Some e)) = 2%nat
  /\ projectToTwoDimensions (Some e) = projectToTwoDimensions (Some e').
Proof.
  intros He He' H.
  assert (H1 : take 10 e = take 10 e').
  { change 10%nat with (min 10 20). rewrite <- !take_take. now rewrite H. }
  assert (H2 : take 10 (drop 10 e) = take 10 (drop 10 e')).
  { rewrite !take_drop_commute. cbn [Nat.add]. now rewrite H. }
  destruct e as [| x e]; [congruence |]. destruct e' as [| x' e']; [congruence |].
  unfold projectToTwoDimensions. rewrite H1, H2. split; reflexivity.
Qed.

Lemma projectToTwoDimensions_reads_twenty_witness :
  projectToTwoDimensions (Some (repeat 1 20 ++ [5; 6; 7]))
  = projectToTwoDimensions (Some (repeat 1 20 ++ [9])).
Proof.
  assert (H1 : repeat 1 20 ++ [5; 6; 7] <> []) by discriminate.
  assert (H2 : repeat 1 20 ++ [9] <> []) by discriminate.
  exact (proj2 (projectToTwoDimensions_reads_twenty _ _ H1 H2 eq_refl)).
Defined.
(** ** More on building the triangulation *)

Section BuildMore.
Variable contentEmbedding : string -> list Q.
Variable Delaunay_from : list (list Q) -> outcome Delaunay.

Lemma valid_document_Some (coords : gmap string (list Q)) (doc : option Document)
    (d : Document) :
  valid_document coords doc = Some d ->
  doc = Some d /\ truthy (doc_id d) = true /\ is_Some (coords !! doc_id d).
Proof.
  unfold valid_document. destruct doc as [d' |]; [| discriminate].
  destruct (truthy (doc_id d')) eqn:Ht; [| discriminate].
  destruct (bool_decide (is_Some (coords !! doc_id d'))) eqn:Hc; [| discriminate].
  intros [= <-]. apply bool_decide_eq_true in Hc. auto.
Qed.

Lemma valid_document_is_valid (coords : gmap string (list Q)) (d : Document) :
  truthy (doc_id d) = true -> is_Some (coords !! doc_id d) ->
  valid_document coords (Some d) = Some d.
Proof.
  intros Ht Hc. unfold valid_document. rewrite Ht.
  now rewrite (bool_decide_eq_true_2 _ Hc).
Qed.

Lemma validDocuments_valid (coords : gmap string (list Q)) (docs : list (option Document)) :
  Forall (fun doc => truthy (doc_id doc) = true /\ is_Some (coords !! doc_id doc))
         (omap (valid_document coords) docs).
Proof.
  apply Forall_forall. intros d Hd.
  apply list_elem_of_omap in Hd as (doc & _ & Hv).
  apply valid_document_Some in Hv. tauto.
Qed.

Lemma omap_valid_idem (coords : gmap string (list Q)) (docs : list Document) :
  Forall (fun doc => truthy (doc_id doc) = true /\ is_Some (coords !! doc_id doc)) docs ->
  omap (valid_document coords) (map Some docs) = docs.
Proof.
  induction 1 as [| d docs [Ht Hc] _ IH]; [reflexivity |].
  cbn [map omap list_omap]. rewrite (valid_document_is_valid coords d Ht Hc).
  f_equal. exact IH.
Qed.

Lemma document_at_In (docs : list Document) (i : option nat) (d : Document) :
  document_at (map Some docs) i = Some d -> d ∈ docs.
Proof.
  unfold document_at. destruct i as [i |]; [| discriminate].
  rewrite list_lookup_fmap. destruct (docs !! i) as [d' |] eqn:E; [| discriminate].
  cbn. intros [= <-]. eapply list_elem_of_lookup_2. exact E.
Qed.

Lemma new_SemanticTriangle_shape (a b c : option Document) (t : SemanticTriangle) :
  new_SemanticTriangle contentEmbedding a b c = Return t ->
  exists a' b' c',
    a = Some a' /\ b = Some b' /\ c = Some c'
    /\ vertices t = [a'; b'; c'] /\ length (embeddings t) = 3%nat.
Proof.
  unfold new_SemanticTriangle.
  destruct a as [a' |], b as [b' |], c as [c' |]; try discriminate.
  destruct (truthy (doc_id a') && truthy (doc_id b') && truthy (doc_id c'));
    [| discriminate].
  intros [= <-]. exists a', b', c'. repeat split.
Qed.

Lemma push_triangles_vertices (docs : list Document)
    (triples : list (option nat * option nat * option nat))
    (acc ts : list SemanticTriangle) (r : outcome ()) :
  let P := fun t : SemanticTriangle =>
             exists a b c, vertices t = [a; b; c] /\ a ∈ docs /\ b ∈ docs /\ c ∈ docs
                           /\ length (embeddings t) = 3%nat in
  push_triangles contentEmbedding (map Some docs) triples acc = (ts, r) ->
  Forall P acc -> Forall P ts.
Proof.
  intros P. revert acc. induction triples as [| [[ia ib] ic] rest IH]; intros acc.
  - cbn. intros [= <- _]. auto.
  - cbn [push_triangles].
    destruct (has_id _ && has_id _ && has_id _).
    + destruct (new_SemanticTriangle _ _ _ _) as [t | e] eqn:Et.
      * intros H Hacc. apply (IH _ H). apply Forall_app. split; [exact Hacc |].
        constructor; [| constructor].
        apply new_SemanticTriangle_shape in Et as (a & b & c & Ea & Eb & Ec & Hv & He).
        exists a, b, c. split; [exact Hv |].
        repeat split; eauto using document_at_In.
      * intros [= <- _]. auto.
    + apply IH.
Qed.

(** What [buildTriangulation] establishes when it reports success. *)
Lemma build_initialized_well_formed (this T : SemanticTessellation) :
  buildTriangulation contentEmbedding Delaunay_from this = Return T ->
  initialized T = true ->
  well_formed T.
Proof.
  unfold buildTriangulation.
  destruct (documents this) as [ds |]; [| intros [= <-]; discriminate].
  destruct (coordinates this) as [cs |] eqn:Ecs; [| intros [= <-]; discriminate].
  destruct (length ds <? 3)%nat; [intros [= <-]; discriminate |].
  destruct (length (omap (valid_document cs) ds) <? 3)%nat eqn:Elen;
    [intros [= <-]; discriminate |].
  apply Nat.ltb_ge in Elen.
  pose proof (validDocuments_valid cs ds) as Hvalid.
  set (valid := omap (valid_document cs) ds) in *.
  destruct (collect_points cs valid [] []) as [points m].
  destruct (length points <? 3)%nat; [intros [= <-]; discriminate |].
  cbn [useManualTriangulation set_useManualTriangulation set_pointToDocumentMap
       set_documents].
  destruct (length valid <=? 3)%nat.
  - destruct (new_SemanticTriangle _ _ _ _) as [t | e] eqn:Et;
      intros [= <-]; [intros _ | discriminate].
    exists cs, valid. cbn.
    repeat split; try assumption; try discriminate.
    constructor; [| constructor].
    apply new_SemanticTriangle_shape in Et as (a & b & c & Ea & Eb & Ec & Hv & He).
    exists a, b, c. split; [exact Hv |].
    repeat split; try exact He;
      eapply list_elem_of_lookup_2; eassumption.
  - destruct (Delaunay_from points) as [d | e]; [| intros [= <-]; discriminate].
    destruct (push_triangles _ _ _ _) as [ts r] eqn:Ep.
    pose proof (push_triangles_vertices valid _ [] ts r Ep (Forall_nil_2 _)) as Hts.
    destruct r as [u | e]; intros [= <-]; [| discriminate].
    cbn. intros Hinit. exists cs, valid.
    repeat split; try assumption.
    destruct ts; [discriminate Hinit | discriminate].
Qed.

End BuildMore.

(** X18: an initialized tessellation returned by [buildTriangulation] is
    in good order: at least three documents, each with an id and
    coordinates, and at least one triangle; every triangle has three
    vertices, all of them documents of the tessellation.  Its documents are
    the valid ones of the tessellation it was built from, in their order,
    and its coordinates are unchanged. *)
Theorem initialized_tessellation_is_well_formed
    (contentEmbedding : string -> list Q)
    (Delaunay_from : list (list Q) -> outcome Delaunay)
    (this T : SemanticTessellation) :
  buildTriangulation contentEmbedding Delaunay_from this = Return T ->
  initialized T = true ->
  well_formed T
  /\ coordinates T = coordinates this
  /\ documents T = Some (map Some (validDocuments this)).
Proof.
  intros Hb Hi.
  split; [exact (build_initialized_well_formed _ _ this T Hb Hi) |].
  revert Hb Hi. unfold buildTriangulation, validDocuments.
  destruct (documents this) as [ds |]; [| intros [= <-]; discriminate].
  destruct (coordinates this) as [cs |] eqn:Ecs; [| intros [= <-]; discriminate].
  destruct (length ds <? 3)%nat; [intros [= <-]; discriminate |].
  destruct (length (omap (valid_document cs) ds) <? 3)%nat;
    [intros [= <-]; discriminate |].
  destruct (collect_points cs (omap (valid_document cs) ds) [] []) as [points m].
  destruct (length points <? 3)%nat; [intros [= <-]; discriminate |].
  cbn [useManualTriangulation set_useManualTriangulation set_pointToDocumentMap
       set_documents].
  destruct (length (omap (valid_document cs) ds) <=? 3)%nat.
  - destruct (new_SemanticTriangle _ _ _ _) as [t | e]; intros [= <-];
      [intros _ | discriminate].
    cbn. auto.
  - destruct (Delaunay_from points) as [d | e]; [| intros [= <-]; discriminate].
    destruct (push_triangles _ _ _ _) as [ts [u | e]]; intros [= <-];
      [intros _ | discriminate].
    cbn. auto.
Qed.

Section BuildMore2.
Variable contentEmbedding : string -> list Q.
Variable Delaunay_from : list (list Q) -> outcome Delaunay.

(** X19: three documents with ids whose coordinate arrays have two entries
    always give an initialized tessellation of one triangle over these
    documents, in their order — whatever the points are, collinear and
    coincident ones included; no Delaunay object is created. *)
Theorem three_documents_always_initialize
    (a b c : Document) (coords : gmap string (list Q)) (xa ya xb yb xc yc : Q) :
  truthy (doc_id a) = true -> truthy (doc_id b) = true -> truthy (doc_id c) = true ->
  coords !! doc_id a = Some [xa; ya] ->
  coords !! doc_id b = Some [xb; yb] ->
  coords !! doc_id c = Some [xc; yc] ->
  exists T t,
    buildTriangulation contentEmbedding Delaunay_from
      (new_SemanticTessellation (Some [Some a; Some b; Some c]) (Some coords))
    = Return T
    /\ initialized T = true
    /\ useManualTriangulation T = true
    /\ delaunay T = None
    /\ triangles T = [t]
    /\ vertices t = [a; b; c].
Proof.
  intros Ha Hb Hc Ca Cb Cc.
  unfold buildTriangulation.
  cbn [documents coordinates new_SemanticTessellation length Nat.ltb Nat.leb].
  cbn [omap list_omap].
  rewrite !valid_document_is_valid by (try assumption; eauto).
  cbn [length Nat.ltb Nat.leb collect_points].
  rewrite Ca, Cb, Cc. cbn [length Nat.eqb app].
  cbn [Nat.ltb Nat.leb length set_documents set_pointToDocumentMap
       set_useManualTriangulation useManualTriangulation lookup list_lookup].
  unfold new_SemanticTriangle. rewrite Ha, Hb, Hc. cbn [andb].
  eexists. eexists. split; [reflexivity |]. repeat split.
Qed.

Lemma set_initialized_idem (b : bool) (T : SemanticTessellation) :
  initialized T = b -> set_initialized b T = T.
Proof. destruct T. cbn. now intros ->. Qed.

(** X20: building again changes nothing: [buildTriangulation] applied to the
    tessellation it returned returns that same tessellation. *)
Theorem buildTriangulation_idempotent (this T : SemanticTessellation) :
  buildTriangulation contentEmbedding Delaunay_from this = Return T ->
  buildTriangulation contentEmbedding Delaunay_from T = Return T.
Proof.
  unfold buildTriangulation at 1.
  destruct (documents this) as [ds |] eqn:Eds.
  2:{ intros [= <-]. unfold buildTriangulation. cbn [documents coordinates set_initialized]. rewrite Eds. reflexivity. }
  destruct (coordinates this) as [cs |] eqn:Ecs.
  2:{ intros [= <-]. unfold buildTriangulation. cbn [documents coordinates set_initialized]. rewrite Eds, Ecs. reflexivity. }
  destruct (length ds <? 3)%nat eqn:E1.
  { intros [= <-]. unfold buildTriangulation. cbn [documents coordinates set_initialized]. rewrite Eds, Ecs, E1. reflexivity. }
  destruct (length (omap (valid_document cs) ds) <? 3)%nat eqn:E2.
  { intros [= <-]. unfold buildTriangulation. cbn [documents coordinates set_initialized]. rewrite Eds, Ecs, E1, E2. reflexivity. }
  pose proof (omap_valid_idem cs _ (validDocuments_valid cs ds)) as Hidem.
  set (valid := omap (valid_document cs) ds) in *.
  destruct (collect_points cs valid [] []) as [points m] eqn:Ecp.
  intros H.
  assert (Hagain : forall U : SemanticTessellation,
             documents U = Some (map Some valid) -> coordinates U = Some cs ->
             buildTriangulation contentEmbedding Delaunay_from U
             = (if (length points <? 3)%nat
                then Return (set_initialized false
                               (set_pointToDocumentMap m
                                  (set_documents (Some (map Some valid)) U)))
                else
                  let U3 := set_useManualTriangulation (length valid <=? 3)%nat
                              (set_pointToDocumentMap m
                                 (set_documents (Some (map Some valid)) U)) in
                  if (length valid <=? 3)%nat then
                    match new_SemanticTriangle contentEmbedding (valid !! 0%nat)
                                               (valid !! 1%nat) (valid !! 2%nat) with
                    | Return t => Return (set_initialized true (set_triangles [t] U3))
                    | Throw _ => Return (set_initialized false U3)
                    end
                  else
                    match Delaunay_from points with
                    | Return d =>
                        let '(ts, r) :=
                          push_triangles contentEmbedding (map Some valid)
                                         (index_triples (del_triangles d)) [] in
                        match r with
                        | Return _ =>
                            Return (set_initialized (0 <? length ts)%nat
                                      (set_triangles ts (set_delaunay (Some d) U3)))
                        | Throw _ =>
                            Return (set_initialized false
                                      (set_triangles ts (set_delaunay (Some d) U3)))
                        end
                    | Throw _ => Return (set_initialized false U3)
                    end)).
  { intros U HdU HcU. unfold buildTriangulation. rewrite HdU, HcU.
    rewrite length_map, Hidem, E2, Ecp.
    destruct (length points <? 3)%nat; [reflexivity |].
    cbn [useManualTriangulation set_useManualTriangulation].
    destruct (length valid <=? 3)%nat.
    - destruct (new_SemanticTriangle _ _ _ _); reflexivity.
    - destruct (Delaunay_from points); [| reflexivity].
      destruct (push_triangles _ _ _ _) as [ts [u | e]]; reflexivity. }
  rewrite Hagain.
  - revert H. destruct (length points <? 3)%nat.
    + intros [= <-]. destruct this; reflexivity.
    + cbn [useManualTriangulation set_useManualTriangulation].
      destruct (length valid <=? 3)%nat.
      * destruct (new_SemanticTriangle _ _ _ _); intros [= <-]; destruct this; reflexivity.
      * destruct (Delaunay_from points); [| intros [= <-]; destruct this; reflexivity].
        destruct (push_triangles _ _ _ _) as [ts [u | e]];
          intros [= <-]; destruct this; reflexivity.
  - revert H. destruct (length points <? 3)%nat; [intros [= <-]; reflexivity |].
    cbn [useManualTriangulation set_useManualTriangulation].
    destruct (length valid <=? 3)%nat.
    + destruct (new_SemanticTriangle _ _ _ _); intros [= <-]; reflexivity.
    + destruct (Delaunay_from points); [| intros [= <-]; reflexivity].
      destruct (push_triangles _ _ _ _) as [ts [u | e]]; intros [= <-]; reflexivity.
  - revert H. destruct (length points <? 3)%nat; [intros [= <-]; exact Ecs |].
    cbn [useManualTriangulation set_useManualTriangulation].
    destruct (length valid <=? 3)%nat.
    + destruct (new_SemanticTriangle _ _ _ _); intros [= <-]; exact Ecs.
    + destruct (Delaunay_from points); [| intros [= <-]; exact Ecs].
      destruct (push_triangles _ _ _ _) as [ts [u | e]]; intros [= <-]; exact Ecs.
Qed.

End BuildMore2.

Lemma initialized_tessellation_is_well_formed_witness :
  well_formed (built four_documents)
  /\ coordinates (built four_documents) = coordinates four_documents
  /\ documents (built four_documents) = Some (map Some (validDocuments four_documents)).
Proof.
  apply (initialized_tessellation_is_well_formed
           sample_contentEmbedding sample_Delaunay_from four_documents);
    vm_compute; reflexivity.
Defined.

Lemma three_documents_always_initialize_witness :
  exists T t,
    buildTriangulation sample_contentEmbedding sample_Delaunay_from
      (new_SemanticTessellation (Some [Some docA; Some docB; Some docC])
                                (Some sample_coordinates))
    = Return T
    /\ initialized T = true
    /\ useManualTriangulation T = true
    /\ delaunay T = None
    /\ triangles T = [t]
    /\ vertices t = [docA; docB; docC].
Proof.
  apply (three_documents_always_initialize sample_contentEmbedding sample_Delaunay_from
           docA docB docC sample_coordinates 0 0 1 0 0 1);
    vm_compute; reflexivity.
Defined.

Lemma buildTriangulation_idempotent_witness :
  buildTriangulation sample_contentEmbedding sample_Delaunay_from (built four_documents)
  = Return (built four_documents).
Proof.
  apply (buildTriangulation_idempotent sample_contentEmbedding sample_Delaunay_from
           four_documents).
  vm_compute. reflexivity.
Defined.

(** X21: a tessellation that [buildTriangulation] made of at most three valid
    documents analyses every point to null: its single triangle is never
    found. *)
Theorem single_triangle_tessellation_analyses_to_null
    (sqrt : Q -> Q) (contentEmbedding : string -> list Q)
    (Delaunay_from : list (list Q) -> outcome Delaunay)
    (docs : option (list (option Document))) (coords : option (gmap string (list Q)))
    (T : SemanticTessellation) (point : option (list Q)) :
  buildTriangulation contentEmbedding Delaunay_from (new_SemanticTessellation docs coords)
  = Return T ->
  useManualTriangulation T = true ->
  analyzePoint sqrt T point = Return None.
Proof.
  intros Hb Hm. unfold analyzePoint.
  destruct point as [p |]; [| reflexivity].
  destruct (initialized T); [| reflexivity].
  rewrite (build_manual_finds_nothing contentEmbedding Delaunay_from docs coords T
             (Some p) Hb Hm).
  reflexivity.
Qed.

Lemma single_triangle_tessellation_analyses_to_null_witness :
  analyzePoint sqrt_exact (built three_documents) (Some [0.25; 0.25]) = Return None.
Proof.
  apply (single_triangle_tessellation_analyses_to_null sqrt_exact
           sample_contentEmbedding sample_Delaunay_from
           (Some [Some docA; Some docB; Some docC]) (Some sample_coordinates));
    vm_compute; reflexivity.
Defined.

Lemma find_Some_elem_of {A : Type} (f : A -> bool) (l : list A) (x : A) :
  List.find f l = Some x -> x ∈ l /\ f x = true.
Proof.
  induction l as [| y l IH]; [discriminate |].
  cbn. destruct (f y) eqn:E.
  - intros [= <-]. split; [constructor | exact E].
  - intros H. destruct (IH H). split; [now constructor | assumption].
Qed.

Lemma findContainingTriangle_finds_own (this : SemanticTessellation)
    (point : option (list Q)) (t : SemanticTriangle) :
  findContainingTriangle this point = Return (Some t) ->
  t ∈ triangles this /\ is_Some (delaunay this).
Proof.
  unfold findContainingTriangle.
  destruct (initialized this); [| discriminate]. cbn [negb].
  destruct (delaunay this) as [d |] eqn:Ed.
  2:{ destruct (useManualTriangulation this).
      - destruct (triangles this !! 0%nat) as [t0 |]; [| discriminate].
        destruct (vertex_coordinates this t0) as [vs | e]; [| discriminate].
        cbn [mbind outcome_bind]. destruct (length vs =? 3)%nat; discriminate.
      - discriminate. }
  intros H. split; [| eauto].
  assert (H' : match point with
               | None => Throw "TypeError: cannot read properties of null"
               | Some p =>
                   let triangleIndex := del_find d (idx p 0) (idx p 1) in
                   if (triangleIndex =? -1)%Z then Return None
                   else
                     let docIndices :=
                       [ triangle_index_at d (triangleIndex * 3);
                         triangle_index_at d (triangleIndex * 3 + 1);
                         triangle_index_at d (triangleIndex * 3 + 2) ] in
                     match triangles this, documents this with
                     | [], _ => Return None
                     | _ :: _, None => Throw "TypeError: cannot read properties of null"
                     | ts, Some docs =>
                         Return (List.find (matches_indices docs docIndices) ts)
                     end
               end = Return (Some t)).
  { revert H. destruct (useManualTriangulation this).
    - destruct (triangles this !! 0%nat) as [t0 |]; [| discriminate].
      destruct (vertex_coordinates this t0) as [vs | e]; [| discriminate].
      cbn [mbind outcome_bind]. destruct (length vs =? 3)%nat; [| discriminate].
      cbn [negb]. exact (fun H => H).
    - cbn [mbind outcome_bind negb]. exact (fun H => H). }
  clear H. destruct point as [p |]; [| discriminate].
  cbv zeta in H'. destruct (_ =? -1)%Z; [discriminate |].
  destruct (triangles this) as [| t0 ts]; [discriminate |].
  destruct (documents this) as [docs |]; [| discriminate].
  match type of H' with
  | Return ?x = _ => assert (E : x = Some t) by congruence
  end.
  apply find_Some_elem_of in E. tauto.
Qed.

(** X22: an analysis that [analyzePoint] returns is about the query point and a
    triangle of the tessellation, found through the Delaunay object; its
    weights are the barycentric weights of the point with respect to the
    three coordinate arrays of that triangle's vertices, and its semantics
    are those of these weights. *)
Theorem analysis_reports_a_triangle_of_the_tessellation
    (sqrt : Q -> Q) (this : SemanticTessellation) (p : list Q) (r : AnalysisResult) :
  analyzePoint sqrt this (Some p) = Return (Some r) ->
  a_point r = p
  /\ a_triangle r ∈ triangles this
  /\ is_Some (delaunay this)
  /\ exists vs,
       vertex_coordinates this (a_triangle r) = Return vs
       /\ length vs = 3%nat
       /\ a_weights r = calculateBarycentricCoordinates (Some p) (Some vs)
       /\ getInteriorPointSemantics sqrt (a_triangle r) (Some (a_weights r))
          = Return (a_semantics r).
Proof.
  unfold analyzePoint.
  destruct (initialized this); [| discriminate]. cbn [negb].
  destruct (findContainingTriangle this (Some p)) as [[t |] | e] eqn:Ef;
    cbn [mbind outcome_bind try_catch]; try discriminate.
  apply findContainingTriangle_finds_own in Ef as [Ht Hd].
  destruct (vertex_coordinates this t) as [vs | e] eqn:Ev;
    cbn [mbind outcome_bind try_catch]; try discriminate.
  destruct (length vs =? 3)%nat eqn:El; cbn [negb]; try discriminate.
  rewrite calculateBarycentricCoordinates_length. cbn [Nat.eqb negb].
  destruct (getInteriorPointSemantics sqrt t _) as [s | e] eqn:Es;
    cbn [mbind outcome_bind try_catch]; try discriminate.
  intros [= <-]. cbn [a_point a_triangle a_weights a_semantics].
  repeat split; try assumption.
  exists vs. repeat split; try assumption. now apply Nat.eqb_eq.
Qed.

Lemma analysis_reports_a_triangle_of_the_tessellation_witness :
  a_point sample_analysis = [0.75; 0.75]
  /\ a_triangle sample_analysis ∈ triangles (built four_documents)
  /\ is_Some (delaunay (built four_documents))
  /\ exists vs,
       vertex_coordinates (built four_documents) (a_triangle sample_analysis) = Return vs
       /\ length vs = 3%nat
       /\ a_weights sample_analysis
          = calculateBarycentricCoordinates (Some [0.75; 0.75]) (Some vs)
       /\ getInteriorPointSemantics sqrt_exact (a_triangle sample_analysis)
            (Some (a_weights sample_analysis))
          = Return (a_semantics sample_analysis).
Proof.
  apply (analysis_reports_a_triangle_of_the_tessellation sqrt_exact).
  vm_compute. reflexivity.
Defined.

(** ** Visualization data *)

Lemma map_outcome_total {A B : Type} (f : A -> outcome B) (g : A -> B) (xs : list A) :
  Forall (fun x => f x = Return (g x)) xs ->
  map_outcome f xs = Return (map g xs).
Proof.
  induction 1 as [| x xs Hx _ IH]; [reflexivity |].
  cbn [map_outcome map]. rewrite Hx, IH. reflexivity.
Qed.

Lemma omap_id_Some {A B : Type} (g : A -> B) (xs : list A) :
  omap id (map (fun x => Some (g x)) xs) = map g xs.
Proof. induction xs as [| x xs IH]; [reflexivity |]. cbn. now rewrite IH. Qed.

Lemma validDocuments_well_formed (T : SemanticTessellation)
    (coords : gmap string (list Q)) (docs : list Document) :
  coordinates T = Some coords ->
  documents T = Some (map Some docs) ->
  Forall (fun doc => truthy (doc_id doc) = true /\ is_Some (coords !! doc_id doc)) docs ->
  validDocuments T = docs.
Proof.
  intros Hc Hd Hv. unfold validDocuments. rewrite Hc, Hd.
  now apply omap_valid_idem.
Qed.

(** X23: on a tessellation in good order [getVisualizationData] leaves nothing
    out: it returns a point and a document entry for every document, in
    their order, and an entry with three vertices for every triangle. *)
Theorem visualization_is_complete (T : SemanticTessellation) :
  well_formed T ->
  initialized T = true ->
  exists v,
    getVisualizationData T = Return v
    /\ map pd_id (v_points v) = map doc_id (validDocuments T)
    /\ map dd_id (v_documents v) = map doc_id (validDocuments T)
    /\ map td_id (v_triangles v) = map tri_id (triangles T)
    /\ Forall (fun td => length (td_vertices td) = 3%nat) (v_triangles v).
Proof.
  intros (coords & docs & Hc & Hd & Hlen & Hv & Hne & Hts) Hi.
  rewrite (validDocuments_well_formed T coords docs Hc Hd Hv).
  assert (Hcoord : forall d, d ∈ docs -> exists c, coords !! doc_id d = Some c).
  { intros d Hin. rewrite Forall_forall in Hv. destruct (Hv d Hin) as [_ [c Hc']]. eauto. }
  set (pt := fun d : Document =>
               {| pd_id := doc_id d;
                  pd_title := str_or (doc_title d) (doc_id d);
                  pd_x := match coords !! doc_id d with Some c => idx c 0 | None => NaN end;
                  pd_y := match coords !! doc_id d with Some c => idx c 1 | None => NaN end |}).
  set (vd := fun d : Document =>
               {| vd_x := match coords !! doc_id d with Some c => idx c 0 | None => NaN end;
                  vd_y := match coords !! doc_id d with Some c => idx c 1 | None => NaN end;
                  vd_docId := doc_id d |}).
  set (td := fun t : SemanticTriangle =>
               {| td_id := tri_id t;
                  td_vertices := map vd (vertices t);
                  td_documentIds := map doc_id (vertices t) |}).
  set (dd := fun d : Document =>
               {| dd_id := doc_id d; dd_title := str_or (doc_title d) (doc_id d) |}).
  exists {| v_triangles := map td (triangles T);
            v_points := map pt docs;
            v_documents := map dd docs |}.
  split.
  - unfold getVisualizationData. rewrite Hi, Hd. cbn [negb].
    rewrite (map_outcome_total _ (fun o => match o with
                                           | Some d => Some (pt d)
                                           | None => None
                                           end)).
    2:{ apply Forall_forall. intros o Ho. apply list_elem_of_fmap in Ho as (d & -> & Hin).
        unfold coordinates_of. rewrite Hc. cbn [mbind outcome_bind].
        destruct (Hcoord d Hin) as [c Ec]. unfold pt. rewrite Ec. reflexivity. }
    cbn [mbind outcome_bind].
    rewrite (map_outcome_total _ (fun t => Some (td t))).
    2:{ eapply Forall_impl; [exact Hts |]. intros t (a & b & c & Et & Ha & Hb & Hcc & _).
        cbn beta.
        rewrite (map_outcome_total _ (fun d => Some (vd d))).
        2:{ rewrite Et. repeat constructor; unfold coordinates_of; rewrite Hc;
              cbn [mbind outcome_bind];
              match goal with
              | |- context [coords !! doc_id ?d] =>
                  let c := fresh "c" in let E := fresh "E" in
                  destruct (Hcoord d ltac:(assumption)) as [c E]; unfold vd; rewrite E
              end; reflexivity. }
        cbn [mbind outcome_bind]. rewrite omap_id_Some.
        rewrite length_map. unfold td. rewrite Et. reflexivity. }
    cbn [mbind outcome_bind].
    rewrite (map_outcome_total _ (fun o => match o with
                                           | Some d => dd d
                                           | None => dd (mkDocument "" "" "" None)
                                           end)).
    2:{ apply Forall_forall. intros o Ho. apply list_elem_of_fmap in Ho as (d & -> & Hin).
        reflexivity. }
    cbn [mbind outcome_bind]. f_equal. f_equal.
    + apply omap_id_Some.
    + rewrite <- (omap_id_Some pt docs). f_equal.
      rewrite <- list_fmap_compose. reflexivity.
    + rewrite <- list_fmap_compose. reflexivity.
  - cbn [v_points v_documents v_triangles].
    rewrite <- !list_fmap_compose.
    repeat split.
    apply Forall_forall. intros x Hx. apply list_elem_of_fmap in Hx as (t & -> & Hin).
    rewrite Forall_forall in Hts. destruct (Hts t Hin) as (a & b & c & Et & _).
    cbn. rewrite length_map, Et. reflexivity.
Qed.

Lemma visualization_is_complete_witness :
  exists v,
    getVisualizationData (built four_documents) = Return v
    /\ map pd_id (v_points v) = map doc_id (validDocuments (built four_documents))
    /\ map dd_id (v_documents v) = map doc_id (validDocuments (built four_documents))
    /\ map td_id (v_triangles v) = map tri_id (triangles (built four_documents))
    /\ Forall (fun td => length (td_vertices td) = 3%nat) (v_triangles v).
Proof.
  apply visualization_is_complete.
  - apply (build_initialized_well_formed sample_contentEmbedding sample_Delaunay_from
             four_documents); vm_compute; reflexivity.
  - vm_compute. reflexivity.
Defined.

(** ** Searching for documents *)

Section SortLemmas.
Context {A : Type} (score : A -> num).


Lemma insert_sorted_perm (c : A -> A -> num) (x : A) (l : list A) :
  insert_sorted c x l ≡ₚ x :: l.
Proof.
  induction l as [| y l IH]; [reflexivity |].
  cbn [insert_sorted]. destruct (ngt (c x y) (Fin 0)); [| reflexivity].
  rewrite IH. apply Permutation_swap.
Qed.

Lemma sort_by_perm (c : A -> A -> num) (l : list A) : sort_by c l ≡ₚ l.
Proof.
  induction l as [| x l IH]; [reflexivity |].
  cbn [sort_by foldr]. rewrite insert_sorted_perm. now rewrite IH.
Qed.

Lemma nge_trans (a b c : num) : nge a b = true -> nge b c = true -> nge a c = true.
Proof.
  destruct a, b, c; cbn; try discriminate.
  rewrite !Qle_bool_iff. intros. lra.
Qed.

Lemma insert_sorted_descending (x : A) (l : list A) :
  is_finite (score x) -> Forall (fun y => is_finite (score y)) l ->
  descending (map score l) ->
  descending (map score (insert_sorted (fun a b => nsub (score b) (score a)) x l)).
Proof.
  intros Hx Hl. induction Hl as [| y l Hy Hl IH]; intros Hs.
  - cbn. auto.
  - cbn [insert_sorted]. destruct Hs as [Hy' Hs].
    destruct (ngt (nsub (score y) (score x)) (Fin 0)) eqn:E.
    + cbn [map descending]. split; [| now apply IH].
      rewrite Forall_fmap. apply Forall_forall. intros z Hz.
      rewrite insert_sorted_perm in Hz. apply elem_of_cons in Hz as [-> | Hz].
      * cbn. destruct (score x), (score y); cbn in *; try discriminate.
        unfold Qlt_bool in E. apply negb_true_iff in E.
        apply Qle_bool_iff. destruct (Qlt_le_dec q q0) as [Hlt | Hle]; [lra |].
        exfalso. assert (Hb : Qle_bool (q0 - q) 0 = true) by (apply Qle_bool_iff; lra).
        congruence.
      * rewrite Forall_fmap, Forall_forall in Hy'. exact (Hy' z Hz).
    + assert (Hxy : nge (score x) (score y) = true).
      { destruct (score x), (score y); cbn in *; try contradiction.
        unfold Qlt_bool in E. apply negb_false_iff in E. apply Qle_bool_iff in E.
        apply Qle_bool_iff. lra. }
      cbn [map descending]. repeat split; try assumption.
      constructor; [exact Hxy |].
      eapply Forall_impl; [exact Hy' |]. intros z Hz. cbn in Hz.
      eapply nge_trans; eassumption.
Qed.

Lemma sort_by_descending (l : list A) :
  Forall (fun y => is_finite (score y)) l ->
  descending (map score (sort_by (fun a b => nsub (score b) (score a)) l)).
Proof.
  induction 1 as [| x l Hx Hl IH]; [exact I |].
  cbn [sort_by foldr]. apply insert_sorted_descending; try assumption.
  apply Forall_forall. intros y Hy. fold (sort_by (fun a b => nsub (score b) (score a)) l) in Hy.
  rewrite sort_by_perm in Hy. rewrite Forall_forall in Hl. auto.
Qed.

End SortLemmas.

Lemma descending_take (n : nat) (l : list num) : descending l -> descending (take n l).
Proof.
  revert n. induction l as [| x l IH]; intros [| n]; cbn; auto.
  intros [Hx Hl]. split; [| auto].
  apply Forall_forall. intros y Hy. rewrite Forall_forall in Hx. apply Hx.
  eapply subseteq_take; eassumption.
Qed.

Lemma descending_take_drop (n : nat) (l : list num) (a b : num) :
  descending l -> a ∈ take n l -> b ∈ drop n l -> nge a b = true.
Proof.
  revert n. induction l as [| x l IH]; intros [| n]; cbn [take drop descending].
  - intros _ H. inversion H.
  - intros _ H. inversion H.
  - intros _ H. inversion H.
  - intros [Hx Hl] Ha Hb. apply elem_of_cons in Ha as [-> | Ha].
    + rewrite Forall_forall in Hx. apply Hx. eapply subseteq_drop; eassumption.
    + eapply IH; eassumption.
Qed.

Lemma nge_finite (a b : num) : nge a b = true -> is_finite a.
Proof. destruct a, b; cbn; try discriminate; auto. Qed.

Lemma excluded_iff (id : string) (excludeDocIds : list string) :
  existsb (String.eqb id) excludeDocIds = true <-> id ∈ excludeDocIds.
Proof.
  rewrite existsb_exists, list_elem_of_In. split.
  - intros (x & Hx & E). apply String.eqb_eq in E. now subst.
  - intros H. exists id. split; [exact H | apply String.eqb_refl].
Qed.

Lemma getEmbedding_id (contentEmbedding : string -> list Q) (doc : Document) :
  doc_id (fst (getEmbedding contentEmbedding doc)) = doc_id doc.
Proof. unfold getEmbedding. destruct (doc_embedding doc); reflexivity. Qed.

(** The list that [findMatchingDocuments] sorts: the scored entries of
    the documents that are not excluded and reach the threshold. *)
Lemma findMatchingDocuments_unfold (sqrt : Q -> Q) (contentEmbedding : string -> list Q)
    (combined : list num) (documents : list Document) (excludeDocIds : list string)
    (threshold : num) (maxResults : nat) :
  findMatchingDocuments sqrt contentEmbedding (Some combined) documents excludeDocIds
                        threshold maxResults
  = take maxResults
      (sort_by (fun a b => nsub (m_similarity b) (m_similarity a))
         (List.filter (fun item => nge (m_similarity item) threshold)
            (map (scored sqrt contentEmbedding combined)
               (List.filter
                  (fun doc => negb (existsb (String.eqb (doc_id doc)) excludeDocIds))
                  documents)))).
Proof.
  unfold findMatchingDocuments.
  destruct documents as [| d ds]; [cbn; symmetry; apply take_nil |].
  cbn [length Nat.eqb]. f_equal. f_equal. f_equal.
  apply map_ext. intros doc. unfold scored.
  destruct (getEmbedding contentEmbedding doc). reflexivity.
Qed.

Lemma findMatchingDocuments_candidates (sqrt : Q -> Q)
    (contentEmbedding : string -> list Q)
    (combined : list num) (documents : list Document) (excludeDocIds : list string)
    (threshold : num) (m : Match) :
  m ∈ List.filter (fun item => nge (m_similarity item) threshold)
        (map (scored sqrt contentEmbedding combined)
           (List.filter
              (fun doc => negb (existsb (String.eqb (doc_id doc)) excludeDocIds))
              documents))
  <-> exists doc, doc ∈ documents /\ (doc_id doc ∉ excludeDocIds)
                  /\ m = scored sqrt contentEmbedding combined doc
                  /\ nge (m_similarity m) threshold = true.
Proof.
  rewrite list_elem_of_In, filter_In, in_map_iff. split.
  - intros [(doc & <- & Hd) Hn]. apply filter_In in Hd as [Hd Hx].
    exists doc. rewrite list_elem_of_In. repeat split; try assumption.
    intros Hex. apply excluded_iff in Hex. rewrite Hex in Hx. discriminate.
  - intros (doc & Hd & Hx & -> & Hn). split; [| exact Hn].
    exists doc. split; [reflexivity |]. apply filter_In.
    split; [now apply list_elem_of_In |].
    apply negb_true_iff. apply not_true_is_false. intros E. apply Hx.
    now apply excluded_iff.
Qed.

(** X24: whatever the arguments, [findMatchingDocuments] returns at most
    [maxResults] entries; each is the scored entry of one of the given
    documents, its id is not on the exclusion list, and its similarity
    reaches the threshold. *)
Theorem findMatchingDocuments_respects_filters
    (sqrt : Q -> Q) (contentEmbedding : string -> list Q)
    (combinedEmbedding : option (list num)) (documents : list Document)
    (excludeDocIds : list string) (threshold : num) (maxResults : nat) :
  let results := findMatchingDocuments sqrt contentEmbedding combinedEmbedding documents
                                       excludeDocIds threshold maxResults in
  (length results <= maxResults)%nat
  /\ Forall (fun m =>
               nge (m_similarity m) threshold = true
               /\ (doc_id (m_document m) ∉ excludeDocIds)
               /\ exists combined doc,
                    combinedEmbedding = Some combined /\ doc ∈ documents
                    /\ m = scored sqrt contentEmbedding combined doc)
            results.
Proof.
  destruct combinedEmbedding as [combined |]; [| cbn; split; [lia | constructor]].
  cbv zeta. rewrite findMatchingDocuments_unfold. split.
  - rewrite length_take. lia.
  - apply Forall_forall. intros m Hm.
    apply (subseteq_take maxResults) in Hm. rewrite sort_by_perm in Hm.
    apply findMatchingDocuments_candidates in Hm as (doc & Hd & Hx & -> & Hn).
    split; [exact Hn |]. split.
    + cbn [m_document scored]. now rewrite getEmbedding_id.
    + eauto.
Qed.

(** X25: the results of [findMatchingDocuments] come in descending order
    of similarity. *)
Theorem findMatchingDocuments_sorted
    (sqrt : Q -> Q) (contentEmbedding : string -> list Q)
    (combinedEmbedding : option (list num)) (documents : list Document)
    (excludeDocIds : list string) (threshold : num) (maxResults : nat) :
  descending (map m_similarity
                (findMatchingDocuments sqrt contentEmbedding combinedEmbedding documents
                                       excludeDocIds threshold maxResults)).
Proof.
  destruct combinedEmbedding as [combined |]; [| exact I].
  rewrite findMatchingDocuments_unfold.
  change (map m_similarity (take maxResults ?l)) with (m_similarity <$> take maxResults l).
  rewrite fmap_take. apply descending_take.
  apply (sort_by_descending m_similarity).
  apply Forall_forall. intros m Hm.
  apply findMatchingDocuments_candidates in Hm as (doc & _ & _ & _ & Hn).
  eapply nge_finite; exact Hn.
Qed.

(** X26: the results of [findMatchingDocuments] are the best ones: a
    document that is not excluded and reaches the threshold is among the
    results, unless [maxResults] entries with at least its similarity
    are. *)
Theorem findMatchingDocuments_keeps_the_best
    (sqrt : Q -> Q) (contentEmbedding : string -> list Q)
    (combined : list num) (documents : list Document)
    (excludeDocIds : list string) (threshold : num) (maxResults : nat)
    (doc : Document) :
  let results := findMatchingDocuments sqrt contentEmbedding (Some combined) documents
                                       excludeDocIds threshold maxResults in
  let m := scored sqrt contentEmbedding combined doc in
  doc ∈ documents ->
  doc_id doc ∉ excludeDocIds ->
  nge (m_similarity m) threshold = true ->
  m ∈ results
  \/ (length results = maxResults
      /\ Forall (fun r => nge (m_similarity r) (m_similarity m) = true) results).
Proof.
  cbv zeta. intros Hd Hx Hn. rewrite findMatchingDocuments_unfold.
  set (cands := List.filter _ (map _ _)).
  set (sorted := sort_by _ cands).
  assert (Hin : scored sqrt contentEmbedding combined doc ∈ sorted).
  { unfold sorted. rewrite sort_by_perm. apply findMatchingDocuments_candidates. eauto 10. }
  rewrite <- (take_drop maxResults sorted) in Hin.
  apply elem_of_app in Hin as [Hin | Hin]; [now left | right].
  split.
  - apply length_take_le.
    destruct (Nat.le_gt_cases maxResults (length sorted)) as [H | H]; [exact H |].
    rewrite drop_ge in Hin by lia. inversion Hin.
  - apply Forall_forall. intros r Hr.
    apply (descending_take_drop maxResults (map m_similarity sorted)).
    + apply (sort_by_descending m_similarity).
      apply Forall_forall. intros m' Hm'.
      apply findMatchingDocuments_candidates in Hm' as (doc' & _ & _ & _ & Hn').
      eapply nge_finite; exact Hn'.
    + change (map m_similarity sorted) with (m_similarity <$> sorted).
      rewrite <- fmap_take. now apply list_elem_of_fmap_2.
    + change (map m_similarity sorted) with (m_similarity <$> sorted).
      rewrite <- fmap_drop. now apply list_elem_of_fmap_2.
Qed.

Lemma findMatchingDocuments_keeps_the_best_witness :
  scored sqrt_exact sample_contentEmbedding [Fin 1; Fin 0] docC
  ∈ findMatchingDocuments sqrt_exact sample_contentEmbedding (Some [Fin 1; Fin 0])
      [docA; docB; docC; docD] ["a"] (Fin 0.5) 1
  \/ (length (findMatchingDocuments sqrt_exact sample_contentEmbedding (Some [Fin 1; Fin 0])
                 [docA; docB; docC; docD] ["a"] (Fin 0.5) 1) = 1%nat
      /\ Forall (fun r => nge (m_similarity r)
                              (m_similarity
                                 (scored sqrt_exact sample_contentEmbedding
                                         [Fin 1; Fin 0] docC)) = true)
                (findMatchingDocuments sqrt_exact sample_contentEmbedding
                   (Some [Fin 1; Fin 0]) [docA; docB; docC; docD] ["a"] (Fin 0.5) 1)).
Proof.
  apply (findMatchingDocuments_keeps_the_best sqrt_exact sample_contentEmbedding
           [Fin 1; Fin 0] [docA; docB; docC; docD] ["a"] (Fin 0.5) 1 docC).
  - apply list_elem_of_In. cbn. auto.
  - intros H. apply list_elem_of_In in H. destruct H as [H | []]. discriminate H.
  - vm_compute. reflexivity.
Defined.

(** ** Semantic interpolation in the tetrahedron *)

Lemma accumulate3D_Some (baryCoords : list num) (embs : list (list Q))
    (i : nat) (combined : list num) :
  Forall (fun e => length e = length combined) embs ->
  exists c, accumulate3D baryCoords embs i combined = Some c
            /\ length c = length combined.
Proof.
  intros H. revert i combined H.
  induction embs as [| e embs IH]; intros i combined H.
  - exists combined. split; reflexivity.
  - inversion H as [| ? ? He Hrest]; subst. cbn [accumulate3D].
    rewrite He, Nat.eqb_refl.
    destruct (IH (S i) (imap (fun j c => nadd c (nmul (nidx baryCoords i) (idx e j)))
                             combined)) as (c & Ec & Hc).
    + rewrite length_imap. exact Hrest.
    + exists c. split; [exact Ec |]. now rewrite Hc, length_imap.
Qed.

Lemma accumulate3D_lengths (baryCoords : list num) (embs : list (list Q))
    (i : nat) (combined c : list num) :
  accumulate3D baryCoords embs i combined = Some c ->
  Forall (fun e => length e = length combined) embs.
Proof.
  revert i combined. induction embs as [| e embs IH]; intros i combined H.
  - constructor.
  - cbn [accumulate3D] in H.
    destruct (length e =? length combined)%nat eqn:E; [| discriminate].
    apply Nat.eqb_eq in E. constructor; [exact E |].
    apply IH in H. rewrite length_imap in H. exact H.
Qed.

Lemma classify3D_type (baryCoords : list num) (documents : list Document) :
  fst (classify3D baryCoords documents) ∈ tetrahedron_types.
Proof.
  unfold classify3D, tetrahedron_types.
  repeat case_match; cbn [fst]; apply list_elem_of_In; cbn; auto.
Qed.

Lemma positional_weights (baryCoords : list num) (documents : list Document)
    (f : nat -> Document -> num -> Contribution3D) :
  length documents = length baryCoords ->
  (forall i doc w, c3_weight (f i doc w) = w) ->
  map c3_weight (imap (fun i doc => f i doc (nidx baryCoords i)) documents) = baryCoords.
Proof.
  intros Hlen Hf. apply list_eq. intros i.
  change (map c3_weight ?l) with (c3_weight <$> l).
  rewrite list_lookup_fmap, list_lookup_imap.
  destruct (documents !! i) as [doc |] eqn:Ed; cbn.
  - rewrite Hf. unfold nidx.
    destruct (baryCoords !! i) as [w |] eqn:Ew; [reflexivity |].
    apply lookup_lt_Some in Ed. apply lookup_ge_None in Ew. lia.
  - apply lookup_ge_None in Ed. symmetry. apply lookup_ge_None. lia.
Qed.

(** The result for four documents with non-empty embeddings of one
    length. *)
Lemma calculateSemanticInterpolation_full
    (sqrt : Q -> Q) (baryCoords : list num) (documents : list Document) (D : nat) :
  length documents = 4%nat -> length baryCoords = 4%nat ->
  (0 < D)%nat -> embedded D documents ->
  exists similarities,
    calculateSemanticInterpolation sqrt baryCoords documents
    = Some {| i_contributions :=
                imap (fun i doc => {| c3_id := doc_id doc;
                                      c3_title := doc_title doc;
                                      c3_weight := nidx baryCoords i;
                                      c3_similarity := Some (nidx similarities i) |})
                     documents;
              i_setOperation :=
                {| so_type := fst (classify3D baryCoords documents);
                   so_description := snd (classify3D baryCoords documents);
                   so_conceptual :=
                     "Represents a semantic mixture derived from document embeddings." |} |}.
Proof.
  intros Hd Hb HD He. unfold calculateSemanticInterpolation.
  rewrite Hd, Hb. cbn [Nat.eqb negb orb].
  assert (Hom : omap doc_embedding documents
                = map (fun doc => default [] (doc_embedding doc)) documents
                /\ Forall (fun e => length e = D)
                          (map (fun doc => default [] (doc_embedding doc)) documents)).
  { clear Hd. induction He as [| doc docs (e & Ee & Hl) _ [IH1 IH2]]; [split; constructor |].
    cbn [omap list_omap map]. rewrite Ee. cbn. rewrite <- IH1. split; [reflexivity |].
    constructor; [exact Hl | rewrite IH1; exact IH2]. }
  destruct Hom as [-> Hall].
  set (embs := map _ documents) in *.
  assert (Hlen : length embs = 4%nat) by (unfold embs; now rewrite length_map).
  rewrite Hlen. cbn [Nat.eqb negb orb].
  assert (Hex : existsb (fun e => (length e =? 0)%nat) embs = false).
  { apply not_true_is_false. intros H. apply existsb_exists in H as (e & Hin & E).
    apply Nat.eqb_eq in E. rewrite Forall_forall in Hall.
    apply list_elem_of_In in Hin. specialize (Hall e Hin). lia. }
  rewrite Hex.
  assert (HD0 : match embs !! 0%nat with Some e => length e | None => 0%nat end = D).
  { destruct embs as [| e0 embs']; [discriminate Hlen |]. cbn.
    now inversion Hall. }
  rewrite HD0.
  destruct (accumulate3D_Some baryCoords embs 0 (repeat (Fin 0) D)) as (c & -> & _).
  { rewrite repeat_length. exact Hall. }
  destruct (classify3D baryCoords documents) as [operationType description].
  eexists. reflexivity.
Qed.

(** X27: four documents with non-empty embeddings of one length, and four
    weights: the interpolation is not null, it reports the weights as
    given, a similarity for every document, and one of the four
    classifications. *)
Theorem interpolation_with_embeddings
    (sqrt : Q -> Q) (baryCoords : list num) (documents : list Document) (D : nat) :
  length documents = 4%nat -> length baryCoords = 4%nat ->
  (0 < D)%nat -> embedded D documents ->
  exists r,
    calculateSemanticInterpolation sqrt baryCoords documents = Some r
    /\ map c3_weight (i_contributions r) = baryCoords
    /\ map c3_id (i_contributions r) = map doc_id documents
    /\ Forall (fun c => is_Some (c3_similarity c)) (i_contributions r)
    /\ so_type (i_setOperation r) ∈ tetrahedron_types.
Proof.
  intros Hd Hb HD He.
  destruct (calculateSemanticInterpolation_full sqrt baryCoords documents D Hd Hb HD He)
    as (similarities & ->).
  eexists. split; [reflexivity |]. cbn [i_contributions i_setOperation so_type].
  split; [| split; [| split]].
  - apply (positional_weights baryCoords documents
             (fun i doc w => {| c3_id := doc_id doc; c3_title := doc_title doc;
                                c3_weight := w; c3_similarity := _ |})); [lia | reflexivity].
  - apply list_eq. intros i.
    change (map ?f ?l) with (f <$> l).
    rewrite !list_lookup_fmap, list_lookup_imap.
    destruct (documents !! i); reflexivity.
  - apply Forall_forall. intros x Hx.
    apply list_elem_of_lookup in Hx as [i Hx]. rewrite list_lookup_imap in Hx.
    destruct (documents !! i); [| discriminate]. injection Hx as <-. cbn. eauto.
  - apply classify3D_type.
Qed.

Lemma interpolation_with_embeddings_witness :
  exists r,
    calculateSemanticInterpolation sqrt_exact [Fin 0.7; Fin 0.1; Fin 0.1; Fin 0.1]
                                   [docA; docB; docC; docD] = Some r
    /\ map c3_weight (i_contributions r) = [Fin 0.7; Fin 0.1; Fin 0.1; Fin 0.1]
    /\ map c3_id (i_contributions r) = map doc_id [docA; docB; docC; docD]
    /\ Forall (fun c => is_Some (c3_similarity c)) (i_contributions r)
    /\ so_type (i_setOperation r) ∈ tetrahedron_types.
Proof.
  apply (interpolation_with_embeddings sqrt_exact [Fin 0.7; Fin 0.1; Fin 0.1; Fin 0.1]
           [docA; docB; docC; docD] 2); [reflexivity | reflexivity | lia |].
  unfold embedded. repeat constructor; eexists; split; reflexivity.
Defined.

Lemma omap_length_le {A B : Type} (f : A -> option B) (l : list A) :
  (length (omap f l) <= length l)%nat.
Proof.
  induction l as [| x l IH]; [reflexivity |].
  cbn [omap list_omap]. fold (@omap list _ A B f l).
  destruct (f x); cbn [length]; lia.
Qed.

Lemma omap_full_length {A B : Type} (f : A -> option B) (l : list A) :
  length (omap f l) = length l -> Forall (fun x => is_Some (f x)) l.
Proof.
  induction l as [| x l IH]; [constructor |].
  cbn [omap list_omap]. fold (@omap list _ A B f l).
  destruct (f x) as [y |] eqn:E.
  - cbn [length]. intros H. constructor; [rewrite E; eauto | apply IH; lia].
  - intros H. pose proof (omap_length_le f l) as Hle. cbn [length] in H. lia.
Qed.

(** X28: four documents, four weights, and an embedding that is missing, empty
    or of another length than the first: the interpolation falls back on
    the weights alone, with no similarity for any document. *)
Theorem interpolation_without_embeddings
    (sqrt : Q -> Q) (baryCoords : list num) (documents : list Document) :
  length documents = 4%nat -> length baryCoords = 4%nat ->
  ~ (exists D, (0 < D)%nat /\ embedded D documents) ->
  exists type,
    calculateSemanticInterpolation sqrt baryCoords documents
    = Some (positional_mix type baryCoords documents)
    /\ (type = "positional_mix" \/ type = "positional_mix (invalid embedding)")
    /\ Forall (fun c => c3_similarity c = None)
              (i_contributions (positional_mix type baryCoords documents)).
Proof.
  intros Hd Hb Hno.
  assert (Hnone : forall type,
             Forall (fun c => c3_similarity c = None)
                    (i_contributions (positional_mix type baryCoords documents))).
  { intros type. apply Forall_forall. intros x Hx.
    apply list_elem_of_lookup in Hx as [i Hx]. cbn in Hx. rewrite list_lookup_imap in Hx.
    destruct (documents !! i); [| discriminate]. injection Hx as <-. reflexivity. }
  unfold calculateSemanticInterpolation.
  rewrite Hd, Hb. cbn [Nat.eqb negb orb].
  destruct (negb (length (omap doc_embedding documents) =? 4)%nat
            || existsb (fun e => (length e =? 0)%nat) (omap doc_embedding documents))
    eqn:E1.
  { exists "positional_mix". auto. }
  apply orb_false_iff in E1 as [E1 E2].
  apply negb_false_iff, Nat.eqb_eq in E1.
  destruct (accumulate3D _ _ _ _) as [c |] eqn:Ea.
  2:{ exists "positional_mix (invalid embedding)". auto. }
  exfalso. apply Hno.
  apply accumulate3D_lengths in Ea. rewrite repeat_length in Ea.
  set (D := match omap doc_embedding documents !! 0%nat with
            | Some e => length e
            | None => 0%nat
            end) in *.
  exists D. split.
  - destruct (omap doc_embedding documents) as [| e0 rest] eqn:Eo; [discriminate E1 |].
    subst D. cbn in *. apply orb_false_iff in E2 as [E2 _].
    apply Nat.eqb_neq in E2. lia.
  - assert (Hall : Forall (fun x => is_Some (doc_embedding x)) documents)
      by (apply omap_full_length; lia).
    unfold embedded. apply Forall_forall. intros doc Hin.
    rewrite Forall_forall in Hall. destruct (Hall doc Hin) as [e Ee].
    exists e. split; [exact Ee |].
    rewrite Forall_forall in Ea. apply Ea.
    apply list_elem_of_omap. eauto.
Qed.

Lemma interpolation_without_embeddings_witness :
  exists type,
    calculateSemanticInterpolation sqrt_exact [Fin 0.7; Fin 0.1; Fin 0.1; Fin 0.1]
                                   [docA; docB; docC; docE]
    = Some (positional_mix type [Fin 0.7; Fin 0.1; Fin 0.1; Fin 0.1]
                           [docA; docB; docC; docE])
    /\ (type = "positional_mix" \/ type = "positional_mix (invalid embedding)")
    /\ Forall (fun c => c3_similarity c = None)
              (i_contributions (positional_mix type [Fin 0.7; Fin 0.1; Fin 0.1; Fin 0.1]
                                               [docA; docB; docC; docE])).
Proof.
  apply (interpolation_without_embeddings sqrt_exact); [reflexivity | reflexivity |].
  intros (D & _ & H). unfold embedded in H.
  apply Forall_cons_1 in H as [_ H]. apply Forall_cons_1 in H as [_ H].
  apply Forall_cons_1 in H as [_ H]. apply Forall_cons_1 in H as [(e & He & _) _].
  discriminate He.
Defined.

Lemma calculateBarycentricCoordinates3D_length (point : Vector3) (vertices : list Vector3) :
  length (calculateBarycentricCoordinates3D point vertices) = 4%nat.
Proof.
  unfold calculateBarycentricCoordinates3D. repeat case_match; reflexivity.
Qed.

(** X29: with the weights of [calculateBarycentricCoordinates3D], of any point
    and any vertex list, the interpolation is null exactly when the
    documents are not four. *)
Theorem interpolation_of_tetrahedron_weights
    (sqrt : Q -> Q) (point : Vector3) (vertices : list Vector3)
    (documents : list Document) :
  calculateSemanticInterpolation sqrt
    (calculateBarycentricCoordinates3D point vertices) documents = None
  <-> length documents <> 4%nat.
Proof.
  unfold calculateSemanticInterpolation.
  rewrite calculateBarycentricCoordinates3D_length. cbn [Nat.eqb negb].
  rewrite orb_false_r.
  destruct (length documents =? 4)%nat eqn:E; cbn [negb].
  - apply Nat.eqb_eq in E. split; [| intros H; contradiction].
    destruct (_ || _); [discriminate |].
    destruct (accumulate3D _ _ _ _); [| discriminate].
    destruct (classify3D _ _). discriminate.
  - apply Nat.eqb_neq in E. tauto.
Qed.

Lemma fold_nmax2_fin (ws : list num) (q : Q) :
  Forall is_finite ws ->
  exists M, fold_left nmax2 ws (Fin q) = Fin M
            /\ q <= M
            /\ Forall (fun w => nle w (Fin M) = true) ws
            /\ (Fin M = Fin q \/ Fin M ∈ ws).
Proof.
  intros H. revert q. induction H as [| w ws Hw _ IH]; intros q.
  - exists q. cbn. repeat split; auto. lra.
  - destruct w as [p |]; [| contradiction]. cbn [fold_left nmax2].
    destruct (Qle_bool q p) eqn:E.
    + apply Qle_bool_iff in E. destruct (IH p) as (M & -> & Hp & Hall & Hin).
      exists M. repeat split; [lra | |].
      * constructor; [cbn; apply Qle_bool_iff; lra | exact Hall].
      * right. destruct Hin as [-> | Hin]; [left | now right].
    + apply Qle_bool_false in E. destruct (IH q) as (M & -> & Hq & Hall & Hin).
      exists M. repeat split; [exact Hq | |].
      * constructor; [cbn; apply Qle_bool_iff; lra | exact Hall].
      * destruct Hin as [-> | Hin]; [now left | right; now right].
Qed.

Lemma Math_max_fin (ws : list num) :
  ws <> [] -> Forall is_finite ws ->
  exists M, Math_max ws = Fin M
            /\ Forall (fun w => nle w (Fin M) = true) ws
            /\ Fin M ∈ ws.
Proof.
  destruct ws as [| w ws]; [contradiction |]. intros _ H.
  inversion H as [| ? ? Hw Hws]; subst.
  destruct w as [q |]; [| contradiction]. cbn [Math_max].
  destruct (fold_nmax2_fin ws q Hws) as (M & -> & Hq & Hall & Hin).
  exists M. repeat split.
  - constructor; [cbn; now apply Qle_bool_iff | exact Hall].
  - destruct Hin as [-> | Hin]; [left | now right].
Qed.

Lemma indexOf_from_finds (ws : list num) (M : Q) (i : nat) :
  Fin M ∈ ws ->
  exists k w, indexOf_from ws (Fin M) i = Some (i + k)%nat
              /\ ws !! k = Some (Fin w) /\ w == M.
Proof.
  revert i. induction ws as [| x ws IH]; intros i Hin; [inversion Hin |].
  cbn [indexOf_from]. destruct (nseq x (Fin M)) eqn:E.
  - destruct x as [p |]; [| discriminate]. cbn in E. apply Qeq_bool_iff in E.
    exists 0%nat, p. rewrite Nat.add_0_r. auto.
  - apply elem_of_cons in Hin as [<- | Hin].
    + cbn in E. rewrite Qeq_bool_refl in E. discriminate.
    + destruct (IH (S i) Hin) as (k & w & Ek & Ew & Hw).
      exists (S k), w. rewrite Ek. split; [f_equal; lia | auto].
Qed.

Lemma classify3D_dominant (baryCoords : list num) (documents : list Document) :
  Forall is_finite baryCoords ->
  (fst (classify3D baryCoords documents) = "dominant"
   <-> Exists (fun w => ngt w (Fin 0.6) = true) baryCoords).
Proof.
  intros Hfin. unfold classify3D. split.
  - destruct (indexOf baryCoords (Math_max baryCoords)) as [m |] eqn:Ei.
    + destruct (ngt (nidx baryCoords m) (Fin 0.6)) eqn:Eg.
      * intros _. unfold nidx in Eg.
        destruct (baryCoords !! m) as [w |] eqn:Ew; [| discriminate].
        apply Exists_exists. exists w. split; [| exact Eg].
        eapply list_elem_of_lookup_2; exact Ew.
      * repeat case_match; cbn [fst]; discriminate.
    + repeat case_match; cbn [fst]; discriminate.
  - intros Hex. apply Exists_exists in Hex as (w & Hin & Hw).
    assert (Hne : baryCoords <> []) by (intros ->; inversion Hin).
    destruct (Math_max_fin baryCoords Hne Hfin) as (M & -> & Hall & HM).
    unfold indexOf.
    destruct (indexOf_from_finds baryCoords M 0 HM) as (k & w' & -> & Ek & Ew').
    cbn [Nat.add]. unfold nidx at 1. rewrite Ek.
    assert (Hg : ngt (Fin w') (Fin 0.6) = true).
    { rewrite Forall_forall in Hall. specialize (Hall w Hin).
      destruct w as [q |]; [| discriminate]. cbn in *.
      apply Qle_bool_iff in Hall. unfold Qlt_bool in *.
      apply negb_true_iff in Hw. apply Qle_bool_false in Hw.
      apply negb_true_iff. apply not_true_is_false. intros H.
      apply Qle_bool_iff in H. lra. }
    rewrite Hg. reflexivity.
Qed.

Lemma classify3D_balanced (baryCoords : list num) (documents : list Document) :
  Forall is_finite baryCoords ->
  (fst (classify3D baryCoords documents) = "balanced_intersection"
   <-> ~ Exists (fun w => ngt w (Fin 0.6) = true) baryCoords
       /\ Forall (fun w => ngt w (Fin 0.2) = true) baryCoords).
Proof.
  intros Hfin.
  pose proof (classify3D_dominant baryCoords documents Hfin) as Hdom.
  unfold classify3D in *.
  destruct (match indexOf baryCoords (Math_max baryCoords) with
            | Some m => if ngt (nidx baryCoords m) (Fin 0.6) then Some m else None
            | None => None
            end) as [m |].
  - cbn [fst] in *. split; [discriminate |]. intros [Hno _]. exfalso. apply Hno.
    now apply Hdom.
  - assert (Hno : ~ Exists (fun w => ngt w (Fin 0.6) = true) baryCoords).
    { intros Hex. apply Hdom in Hex. revert Hex.
      repeat case_match; cbn [fst]; discriminate. }
    destruct (forallb (fun w => ngt w (Fin 0.2)) baryCoords) eqn:Ef.
    + cbn [fst]. split; [intros _ | reflexivity]. split; [exact Hno |].
      apply Forall_forall. intros w Hw. rewrite forallb_forall in Ef.
      apply Ef. now apply list_elem_of_In.
    + split.
      * repeat case_match; cbn [fst]; discriminate.
      * intros [_ Hall]. exfalso.
        assert (forallb (fun w => ngt w (Fin 0.2)) baryCoords = true); [| congruence].
        apply forallb_forall. intros w Hw. rewrite Forall_forall in Hall.
        apply Hall. now apply list_elem_of_In.
Qed.

(** X30: with finite weights the interpolation is classified [dominant] exactly
    when some weight exceeds 0.6, and [balanced_intersection] exactly when
    none does and every weight exceeds 0.2. *)
Theorem interpolation_classification
    (sqrt : Q -> Q) (baryCoords : list num) (documents : list Document) (D : nat) :
  length documents = 4%nat -> length baryCoords = 4%nat ->
  (0 < D)%nat -> embedded D documents ->
  Forall is_finite baryCoords ->
  exists r,
    calculateSemanticInterpolation sqrt baryCoords documents = Some r
    /\ (so_type (i_setOperation r) = "dominant"
        <-> Exists (fun w => ngt w (Fin 0.6) = true) baryCoords)
    /\ (so_type (i_setOperation r) = "balanced_intersection"
        <-> ~ Exists (fun w => ngt w (Fin 0.6) = true) baryCoords
            /\ Forall (fun w => ngt w (Fin 0.2) = true) baryCoords).
Proof.
  intros Hd Hb HD He Hfin.
  destruct (calculateSemanticInterpolation_full sqrt baryCoords documents D Hd Hb HD He)
    as (similarities & ->).
  eexists. split; [reflexivity |]. cbn [i_setOperation so_type].
  split; [now apply classify3D_dominant | now apply classify3D_balanced].
Qed.

Lemma interpolation_classification_witness :
  exists r,
    calculateSemanticInterpolation sqrt_exact [Fin 0.25; Fin 0.25; Fin 0.25; Fin 0.25]
                                   [docA; docB; docC; docD] = Some r
    /\ (so_type (i_setOperation r) = "dominant"
        <-> Exists (fun w => ngt w (Fin 0.6) = true)
                   [Fin 0.25; Fin 0.25; Fin 0.25; Fin 0.25])
    /\ (so_type (i_setOperation r) = "balanced_intersection"
        <-> ~ Exists (fun w => ngt w (Fin 0.6) = true)
                     [Fin 0.25; Fin 0.25; Fin 0.25; Fin 0.25]
            /\ Forall (fun w => ngt w (Fin 0.2) = true)
                      [Fin 0.25; Fin 0.25; Fin 0.25; Fin 0.25]).
Proof.
  apply (interpolation_classification sqrt_exact [Fin 0.25; Fin 0.25; Fin 0.25; Fin 0.25]
           [docA; docB; docC; docD] 2); [reflexivity | reflexivity | lia | |].
  - unfold embedded. repeat constructor; eexists; split; reflexivity.
  - repeat constructor.
Defined.
